(** * Hand-Magic: the gesture classifier and the particle engine

    A shallow embedding of [src/utils/gestureLogic.ts], of the tick
    functions of [src/components/HandParticlesScene.tsx] ([animate],
    [predict], [initThree]) and its camera list, and of the gesture box and
    the camera menu of [src/components/Overlay.tsx], together with the
    properties the specification states about them and further properties
    of the code.

    JavaScript numbers are IEEE 754 binary64 values, so they are modelled by
    Rocq's primitive [float]s, whose operations are the same correctly
    rounded ones; [Float32Array] stores round to binary32.  Library functions
    the program calls but does not define ([Math.sin], [Math.random],
    [THREE.Color], ...) are the fields of a [Host]. *)

From Stdlib Require Import ZArith Floats Bool List Lia.
From Stdlib Require String.
From stdpp Require Import base list.

Set Warnings "-inexact-float".

(* ================================================================== *)
(** * Definitions *)
(* ================================================================== *)

(** ** JavaScript values and built-ins *)

Module JS.

(** A completion is a value or a thrown exception. *)
Inductive Completion (A : Type) : Type :=
  | Normal (a : A)
  | Throw.
Arguments Normal {A} a.
Arguments Throw {A}.

Definition bind {A B : Type} (c : Completion A) (k : A -> Completion B)
  : Completion B :=
  match c with
  | Normal a => k a
  | Throw => Throw
  end.

(** [a[i]] followed by a property access: reading a property of
    [undefined] throws a [TypeError]. *)
Definition at_index {A : Type} (a : list A) (i : nat) : Completion A :=
  match a !! i with
  | Some v => Normal v
  | None => Throw
  end.

Definition is_neg_zero (a : float) : bool := is_zero a && get_sign a.
Definition is_pos_zero (a : float) : bool := is_zero a && negb (get_sign a).

(** [Math.max(a, b)] and [Math.min(a, b)] as ECMAScript defines them: NaN
    if either argument is NaN, [+0] above [-0], otherwise the first
    argument unless the second is strictly beyond it. *)
Definition Math_max (a b : float) : float :=
  if is_nan a || is_nan b then nan
  else if is_pos_zero b && is_neg_zero a then b
  else if (a <? b)%float then b
  else a.

Definition Math_min (a b : float) : float :=
  if is_nan a || is_nan b then nan
  else if is_neg_zero b && is_pos_zero a then b
  else if (b <? a)%float then b
  else a.

Definition Math_sqrt (a : float) : float := sqrt a.
Definition Math_abs (a : float) : float := abs a.

(** [Math.pow(a, 2)], taken as the correctly rounded square. *)
Definition Math_pow2 (a : float) : float := (a * a)%float.

Definition Math_PI : float := 3.141592653589793%float.

(** [Math.fround]: the nearest binary32 value (ties to even), as a
    binary64. *)
Definition Math_fround (v : float) : float :=
  match Prim2SF v with
  | S754_finite s m e => SF2Prim (binary_round 24 128 s m e)
  | _ => v
  end.

(** A loop counter used as a number. *)
Definition of_nat (n : nat) : float := of_uint63 (Uint63.of_Z (Z.of_nat n)).

(** [Float32Array]: a fixed-length array of binary32 values.  A read out of
    range gives [undefined], which every use below coerces to NaN; a write
    out of range is ignored (as [<[i:=v]>] does). *)
Definition new_Float32Array (n : nat) : list float := replicate n 0%float.

Definition get (a : list float) (i : nat) : float := default nan (a !! i).

Definition set (a : list float) (i : nat) (v : float) : list float :=
  <[i := Math_fround v]> a.

End JS.

Declare Scope js_scope.
Notation "'let*' x ':=' c 'in' k" := (JS.bind c (fun x => k))
  (at level 10, x name, c at level 100, k at level 200) : js_scope.
Notation "a >? b" := (PrimFloat.ltb b a) : float_scope.

(** ** [src/types.ts] *)

Inductive GestureType : Set :=
  | NONE
  | OPEN_HAND
  | CLOSED_FIST
  | VICTORY
  | PINCH
  | THUMBS_UP
  | ROCK_ON
  | DOUBLE_PALM.

Definition GestureType_eqb (a b : GestureType) : bool :=
  match a, b with
  | NONE, NONE | OPEN_HAND, OPEN_HAND | CLOSED_FIST, CLOSED_FIST
  | VICTORY, VICTORY | PINCH, PINCH | THUMBS_UP, THUMBS_UP
  | ROCK_ON, ROCK_ON | DOUBLE_PALM, DOUBLE_PALM => true
  | _, _ => false
  end.

Module HandLandmark.
Record t : Set := mk { x : float; y : float; z : float }.
End HandLandmark.

Module CameraDevice.
Record t : Set := mk { deviceId : String.string; label : String.string }.
End CameraDevice.

(** ** [src/utils/gestureLogic.ts] *)

Module GestureLogic.
Import JS.
Local Open Scope float_scope.
Local Open Scope js_scope.

Definition distance (p1 p2 : HandLandmark.t) : float :=
  Math_sqrt
    (Math_pow2 (HandLandmark.x p1 - HandLandmark.x p2) +
     Math_pow2 (HandLandmark.y p1 - HandLandmark.y p2) +
     Math_pow2 (HandLandmark.z p1 - HandLandmark.z p2)).

Definition isFingerExtended (landmarks : list HandLandmark.t)
    (tipIdx pipIdx : nat) : Completion bool :=
  let* wrist := at_index landmarks 0%nat in
  let* tip := at_index landmarks tipIdx in
  let* pip := at_index landmarks pipIdx in
  Normal (distance wrist tip >? distance wrist pip).

(** The returned object [{ type, strength }]. *)
Record Gesture : Set := mkGesture { type : GestureType; strength : float }.

(** The parameter has type [HandLandmark[]], so the [!landmarks] half of
    the first test never holds; its other half is the length test. *)
Definition detectGesture (landmarks : list HandLandmark.t)
  : Completion Gesture :=
  if (length landmarks <? 21)%nat then Normal (mkGesture NONE 0) else
  let* thumbTip := at_index landmarks 4%nat in
  let* indexTip := at_index landmarks 8%nat in
  (* 1. PINCH Check (Thumb close to Index) *)
  let pinchDist := distance thumbTip indexTip in
  if pinchDist <? 0.05 then
    Normal (mkGesture PINCH (Math_max 0 (1 - pinchDist * 20)))
  else
  let* thumbExt := isFingerExtended landmarks 4%nat 2%nat in
  let* indexExt := isFingerExtended landmarks 8%nat 6%nat in
  let* middleExt := isFingerExtended landmarks 12%nat 10%nat in
  let* ringExt := isFingerExtended landmarks 16%nat 14%nat in
  let* pinkyExt := isFingerExtended landmarks 20%nat 18%nat in
  let extendedCount :=
    length (List.filter (fun b : bool => b)
              [thumbExt; indexExt; middleExt; ringExt; pinkyExt]) in
  (* 2. CLOSED FIST *)
  if (extendedCount =? 0)%nat then Normal (mkGesture CLOSED_FIST 1) else
  (* 3. ROCK ON (Index + Pinky only) *)
  if indexExt && pinkyExt && negb middleExt && negb ringExt then
    Normal (mkGesture ROCK_ON 1) else
  (* 4. VICTORY (Index + Middle only) *)
  if indexExt && middleExt && negb ringExt && negb pinkyExt then
    Normal (mkGesture VICTORY 1) else
  (* 5. THUMBS UP *)
  if thumbExt && negb indexExt && negb middleExt && negb ringExt
     && negb pinkyExt then
    Normal (mkGesture THUMBS_UP 1) else
  (* 6. OPEN HAND *)
  if (4 <=? extendedCount)%nat then Normal (mkGesture OPEN_HAND 1) else
  Normal (mkGesture NONE 0).

End GestureLogic.

(** The decision procedure as the specification words it: the rules of
    section 4.2 in their order, the first one that matches winning.  These
    definitions follow the specification, not the source; the theorems
    compare them with [detectGesture]. *)
Module ClassifierSpec.
Import JS GestureLogic.
Local Open Scope float_scope.

Definition origin : HandLandmark.t := HandLandmark.mk 0 0 0.

Definition joint (pose : list HandLandmark.t) (i : nat) : HandLandmark.t :=
  nth i pose origin.

(** [isExtended(pose, tipIndex, pipIndex)]: true iff
    distance(wrist, tip) > distance(wrist, pip). *)
Definition isExtended (pose : list HandLandmark.t) (tipIndex pipIndex : nat)
  : bool :=
  distance (joint pose 0) (joint pose tipIndex)
  >? distance (joint pose 0) (joint pose pipIndex).

Definition pinchDistance (pose : list HandLandmark.t) : float :=
  distance (joint pose 4) (joint pose 8).

Definition thumb (pose : list HandLandmark.t) := isExtended pose 4 2.
Definition index (pose : list HandLandmark.t) := isExtended pose 8 6.
Definition middle (pose : list HandLandmark.t) := isExtended pose 12 10.
Definition ring (pose : list HandLandmark.t) := isExtended pose 16 14.
Definition pinky (pose : list HandLandmark.t) := isExtended pose 20 18.

Definition extendedCount (pose : list HandLandmark.t) : nat :=
  count_occ bool_dec
    [thumb pose; index pose; middle pose; ring pose; pinky pose] true.

(** The ordered rules 1, 3, 4, 5, 6 and 7 of section 4.2, each with its
    condition. *)
Definition rules (pose : list HandLandmark.t) : list (bool * GestureType) :=
  [ (pinchDistance pose <? 0.05, PINCH);
    ((extendedCount pose =? 0)%nat, CLOSED_FIST);
    (index pose && pinky pose && negb (middle pose) && negb (ring pose),
     ROCK_ON);
    (index pose && middle pose && negb (ring pose) && negb (pinky pose),
     VICTORY);
    (thumb pose && negb (index pose) && negb (middle pose)
     && negb (ring pose) && negb (pinky pose), THUMBS_UP);
    ((4 <=? extendedCount pose)%nat, OPEN_HAND) ].

Fixpoint firstMatch (rs : list (bool * GestureType)) : GestureType :=
  match rs with
  | [] => NONE
  | (true, g) :: _ => g
  | (false, _) :: rest => firstMatch rest
  end.

Definition classify (pose : list HandLandmark.t) : GestureType :=
  firstMatch (rules pose).

(** [clamp(v, lo, hi)]. *)
Definition clamp (v lo hi : float) : float := Math_min hi (Math_max lo v).

End ClassifierSpec.

(** ** Library functions of the host (browser and three.js) *)

Class Host : Type := mkHost {
  Math_sin : float -> float;
  Math_cos : float -> float;
  Math_cbrt : float -> float;
  Math_acos : float -> float;
  (** the number returned by the [n]-th call of [Math.random()] *)
  Math_random : nat -> float;
  (** [a % b] *)
  Number_remainder : float -> float -> float;
  (** [new THREE.Color().setHSL(h, s, l)], as (r, g, b) *)
  Color_setHSL : float -> float -> float -> float * float * float;
  (** [new THREE.Color(0x00ffff).lerp(new THREE.Color(0xff00ff), t)],
      as (r, g, b) *)
  Color_gradient : float -> float * float * float
}.

Module Vector3.
Local Open Scope float_scope.

Record t : Set := mk { x : float; y : float; z : float }.

(** [THREE.Vector3.lerp]: [this.x += (v.x - this.x) * alpha], and the same
    for y and z. *)
Definition lerp (this v : t) (alpha : float) : t :=
  mk (x this + (x v - x this) * alpha)
     (y this + (y v - y this) * alpha)
     (z this + (z v - z this) * alpha).

End Vector3.

(** ** [src/components/HandParticlesScene.tsx] *)

Module HandParticlesScene.
Import JS GestureLogic.
Local Open Scope float_scope.

(* Configuration *)
Definition PARTICLE_COUNT : nat := Z.to_nat 25000.
Definition BOUNDS : float := 80.
Definition CAMERA_Z : float := 100.

(** The four typed arrays of [sceneState], three numbers per particle.
    [initThree] assigns them (and [particles], whose geometry shares
    [positions] and [colors]) together, so one option covers them. *)
Record Buffers : Set := mkBuffers {
  positions : list float;
  velocities : list float;
  homePositions : list float;
  colors : list float
}.

Record SceneState : Set := mkSceneState {
  arrays : option Buffers;
  handPosition : Vector3.t;
  isHandPresent : bool;
  gesture : GestureType;
  gestureStrength : float;
  time : float;
  doublePalmTimer : float;
  isStreamReady : bool
}.

(** The mutable state of the component: [threeRef] (renderer, composer and
    camera are assigned together; only the camera position is kept),
    [loopState.lastTime], [sceneState], and the number of [Math.random()]
    calls made so far.  The frame counter behind [onFpsUpdate], the
    camera's orientation ([lookAt]) and the rendering calls are left out. *)
Record App : Set := mkApp {
  camera : option Vector3.t;
  lastTime : float;
  sceneState : SceneState;
  randomCalls : nat
}.

Definition set_arrays (v : option Buffers) (s : SceneState) : SceneState :=
  mkSceneState v (handPosition s) (isHandPresent s) (gesture s)
    (gestureStrength s) (time s) (doublePalmTimer s) (isStreamReady s).

Definition set_handPosition (v : Vector3.t) (s : SceneState) : SceneState :=
  mkSceneState (arrays s) v (isHandPresent s) (gesture s)
    (gestureStrength s) (time s) (doublePalmTimer s) (isStreamReady s).

Definition set_isHandPresent (v : bool) (s : SceneState) : SceneState :=
  mkSceneState (arrays s) (handPosition s) v (gesture s)
    (gestureStrength s) (time s) (doublePalmTimer s) (isStreamReady s).

Definition set_gesture (v : GestureType) (s : SceneState) : SceneState :=
  mkSceneState (arrays s) (handPosition s) (isHandPresent s) v
    (gestureStrength s) (time s) (doublePalmTimer s) (isStreamReady s).

Definition set_gestureStrength (v : float) (s : SceneState) : SceneState :=
  mkSceneState (arrays s) (handPosition s) (isHandPresent s) (gesture s)
    v (time s) (doublePalmTimer s) (isStreamReady s).

Definition set_time (v : float) (s : SceneState) : SceneState :=
  mkSceneState (arrays s) (handPosition s) (isHandPresent s) (gesture s)
    (gestureStrength s) v (doublePalmTimer s) (isStreamReady s).

Definition set_doublePalmTimer (v : float) (s : SceneState) : SceneState :=
  mkSceneState (arrays s) (handPosition s) (isHandPresent s) (gesture s)
    (gestureStrength s) (time s) v (isStreamReady s).

Section WithHost.
Context {host : Host}.

(** *** [animate]: the per-particle loop body *)

(** The gesture-selected force ("Hand Interaction"): the velocity after
    it, and the number of [Math.random()] calls made so far. *)
Definition handInteraction (s : SceneState) (dt : float) (i : nat)
    (px py pz dx dy dz dist : float) (v : float * float * float)
    (draws : nat) : float * float * float * nat :=
  let '(vx, vy, vz) := v in
  let mouse := handPosition s in
  let time := time s in
  match gesture s with
  | OPEN_HAND =>
    (* 1. OPEN HAND: Swirl *)
    if dist <? 40 then
      let force := (40 - dist) * 1.5 in
      let vx := vx + - dy * force * 0.5 * dt in
      let vy := vy + dx * force * 0.5 * dt in
      let vz := vz + Math_sin (time * 5 + of_nat i) * force * dt in
      (* Gentle attraction *)
      let vx := vx - dx * 2.0 * dt in
      let vy := vy - dy * 2.0 * dt in
      let vz := vz - dz * 2.0 * dt in
      (vx, vy, vz, draws)
    else (vx, vy, vz, draws)
  | CLOSED_FIST =>
    (* 2. FIST: Repel (Explosion) *)
    if dist <? 50 then
      let force := (50 - dist) * 20.0 in
      let dirX := dx / dist in
      let dirY := dy / dist in
      let dirZ := dz / dist in
      (vx + dirX * force * dt, vy + dirY * force * dt,
       vz + dirZ * force * dt, draws)
    else (vx, vy, vz, draws)
  | PINCH =>
    (* 3. PINCH: Suction *)
    if dist <? 60 then
      let strength := 150 * gestureStrength s in
      (vx - dx * strength * dt, vy - dy * strength * dt,
       vz - dz * strength * dt, draws)
    else (vx, vy, vz, draws)
  | VICTORY =>
    (* 4. VICTORY: Wave + Rainbow *)
    if dist <? 40 then
      (vx, vy + Math_sin (px * 0.2 + time * 10) * 20 * dt, vz, draws)
    else (vx, vy, vz, draws)
  | THUMBS_UP =>
    (* 5. THUMBS UP: Heart/Orbit Shape *)
    if dist <? 40 then
      let tx := Math_sin (time * 3 + of_nat i * 0.1) * 20 in
      let ty := Math_cos (time * 3 + of_nat i * 0.1) * 20 in
      (vx + (Vector3.x mouse + tx - px) * 5 * dt,
       vy + (Vector3.y mouse + ty - py) * 5 * dt, vz, draws)
    else (vx, vy, vz, draws)
  | ROCK_ON =>
    (* 6. ROCK ON: Chaos *)
    if dist <? 60 then
      (vx + (Math_random draws - 0.5) * 200 * dt,
       vy + (Math_random (draws + 1) - 0.5) * 200 * dt,
       vz + (Math_random (draws + 2) - 0.5) * 200 * dt,
       (draws + 3)%nat)
    else (vx, vy, vz, draws)
  | NONE | DOUBLE_PALM =>
    (* Passive repulse just a bit to not clip through hand *)
    if dist <? 15 then
      let force := (15 - dist) * 10 in
      (vx + (dx / dist) * force * dt, vy + (dy / dist) * force * dt,
       vz + (dz / dist) * force * dt, draws)
    else (vx, vy, vz, draws)
  end.

(** "Color Updates": the color array after them, and the number of
    [Math.random()] calls made so far. *)
Definition colorUpdates (s : SceneState) (i3 : nat) (px dist : float)
    (homePositions colors : list float) (draws : nat) : list float * nat :=
  match gesture s with
  | VICTORY =>
    (* Rainbow wave *)
    let hue := Number_remainder (time s * 0.2 + px * 0.01) 1 in
    let '(r, g, b) := Color_setHSL hue 0.8 0.6 in
    (set (set (set colors i3 r) (i3 + 1) g) (i3 + 2) b, draws)
  | PINCH =>
    (* Red/Orange heat *)
    let intensity := Math_min 1 (40 / (dist + 1)) in
    (set (set (set colors i3 1.0) (i3 + 1) (1.0 - intensity))
       (i3 + 2) (1.0 - intensity), draws)
  | _ =>
    (* Reset slowly to gradient *)
    if Math_random draws <? 0.05 then
      (set (set (set colors i3 (if get homePositions i3 >? 0 then 0 else 1))
              (i3 + 1) 0.8) (i3 + 2) 1, S draws)
    else (colors, S draws)
  end.

(** One iteration of [for (let i = 0; i < PARTICLE_COUNT; i++)]. *)
Definition particleStep (s : SceneState) (dt : float)
    (acc : Buffers * nat) (i : nat) : Buffers * nat :=
  let '(b, draws) := acc in
  let i3 := (i * 3)%nat in
  let px := get (positions b) i3 in
  let py := get (positions b) (i3 + 1) in
  let pz := get (positions b) (i3 + 2) in
  let vx := get (velocities b) i3 in
  let vy := get (velocities b) (i3 + 1) in
  let vz := get (velocities b) (i3 + 2) in
  (* Return to home force (Memory) *)
  let hx := get (homePositions b) i3 in
  let hy := get (homePositions b) (i3 + 1) in
  let hz := get (homePositions b) (i3 + 2) in
  let distHomeX := hx - px in
  let distHomeY := hy - py in
  let distHomeZ := hz - pz in
  (* Base attraction to home *)
  let vx := vx + distHomeX * 1.5 * dt in
  let vy := vy + distHomeY * 1.5 * dt in
  let vz := vz + distHomeZ * 1.5 * dt in
  (* Hand Interaction *)
  let '(vx, vy, vz, colors', draws) :=
    if isHandPresent s then
      let mouse := handPosition s in
      let dx := px - Vector3.x mouse in
      let dy := py - Vector3.y mouse in
      let dz := pz - Vector3.z mouse in
      let distSq := dx * dx + dy * dy + dz * dz in
      let dist := Math_sqrt distSq in
      let '(vx, vy, vz, draws) :=
        handInteraction s dt i px py pz dx dy dz dist (vx, vy, vz) draws in
      let '(colors', draws) :=
        colorUpdates s i3 px dist (homePositions b) (colors b) draws in
      (vx, vy, vz, colors', draws)
    else (vx, vy, vz, colors b, draws) in
  (* Apply friction *)
  let vx := vx * 0.92 in
  let vy := vy * 0.92 in
  let vz := vz * 0.92 in
  let positions' :=
    set (set (set (positions b) i3 (get (positions b) i3 + vx * dt))
           (i3 + 1) (get (positions b) (i3 + 1) + vy * dt))
      (i3 + 2) (get (positions b) (i3 + 2) + vz * dt) in
  let velocities' :=
    set (set (set (velocities b) i3 vx) (i3 + 1) vy) (i3 + 2) vz in
  (mkBuffers positions' velocities' (homePositions b) colors', draws).

Definition particleLoop (s : SceneState) (dt : float) (n : nat)
    (acc : Buffers * nat) : Buffers * nat :=
  fold_left (particleStep s dt) (seq 0 n) acc.

(** "Auto Orbit Camera if hand near edge", else "Gentle idle orbit". *)
Definition orbitCamera (s : SceneState) (now dt : float) (cam : Vector3.t)
  : Vector3.t :=
  if isHandPresent s then
    let screenX := Vector3.x (handPosition s) / BOUNDS in
    if Math_abs screenX >? 0.8 then
      Vector3.mk (Vector3.x cam + screenX * 100 * dt)
        (Vector3.y cam) (Vector3.z cam)
    else cam
  else
    let t := now * 0.0001 in
    Vector3.mk (Math_sin t * 20) (Math_cos (t * 0.7) * 20) (Vector3.z cam).

(** [animate], with [now] the value of [performance.now()]. *)
Definition animate (now : float) (app : App) : App :=
  match camera app with
  | None => app
  | Some cam =>
    let dt := Math_min ((now - lastTime app) / 1000) 0.1 in
    let s := set_time (time (sceneState app) + dt) (sceneState app) in
    match arrays s with
    | None => mkApp (Some cam) now s (randomCalls app)
    | Some b =>
      let '(b', draws) := particleLoop s dt PARTICLE_COUNT (b, randomCalls app) in
      mkApp (Some (orbitCamera s now dt cam)) now (set_arrays (Some b') s)
        draws
    end
  end.

(** *** [predict] *)

(** What one run of [predict] reads from its surroundings. *)
Record Frame : Set := mkFrame {
  (** [videoRef.current && videoRef.current.videoWidth > 0 &&
      landmarkerRef.current] *)
  videoReady : bool;
  (** [landmarkerRef.current.detectForVideo(...).landmarks], or the
      exception it throws *)
  detectForVideo : Completion (list (list HandLandmark.t));
  (** [performance.now()] as the double-palm check reads it *)
  performance_now : float;
  (** [document.fullscreenElement] is set *)
  fullscreenElement : bool;
  (** [performance.now()] as [animate] reads it *)
  animate_now : float
}.

(** What it does to its surroundings. *)
Inductive Effect : Set :=
  | requestFullscreen
  | exitFullscreen
  | onGestureChange (g : GestureType).

(** "Check for Double Palm (Fullscreen trigger)": the new timer and the
    fullscreen call made, if any. *)
Definition doublePalm (f : Frame) (g1 g2 : Gesture) (timer : float)
  : float * list Effect :=
  if GestureType_eqb (type g1) OPEN_HAND
     && GestureType_eqb (type g2) OPEN_HAND then
    let now := performance_now f in
    if (now - timer <? 1000) && (timer >? 0) then
      (* Toggle fullscreen *)
      (0, [if negb (fullscreenElement f) then requestFullscreen
           else exitFullscreen])
    else if timer =? 0 then (now, [])
    else (timer, [])
  else
    if performance_now f - timer >? 1000 then (0, [])
    else (timer, []).

(** The body of the [try] block.  An exception leaves the state as the
    assignments before it made it; the [catch] only logs. *)
Definition detectHands (f : Frame) (s : SceneState)
  : SceneState * list Effect :=
  match detectForVideo f with
  | Throw => (s, [])
  | Normal results =>
    match results with
    | [] => (set_gesture NONE (set_isHandPresent false s), [])
    | landmarks :: _ =>
      let s := set_isHandPresent true s in
      (* Use first hand for main interaction *)
      match landmarks !! 9%nat with
      | None => (s, [])
      | Some l9 =>
        let x := (0.5 - HandLandmark.x l9) * BOUNDS * 2.5 in
        let y := (0.5 - HandLandmark.y l9) * BOUNDS * 2.5 in
        let z := - HandLandmark.z l9 * BOUNDS * 2 in
        let targetPos := Vector3.mk x y z in
        (* Smooth hand movement *)
        let s :=
          set_handPosition (Vector3.lerp (handPosition s) targetPos 0.2) s in
        (* Detect Gesture *)
        match detectGesture landmarks with
        | Throw => (s, [])
        | Normal g =>
          let s := set_gestureStrength (strength g) (set_gesture (type g) s) in
          match results with
          | [first; second] =>
            match detectGesture first with
            | Throw => (s, [])
            | Normal g1 =>
              match detectGesture second with
              | Throw => (s, [])
              | Normal g2 =>
                let '(timer, fx) := doublePalm f g1 g2 (doublePalmTimer s) in
                (set_doublePalmTimer timer s, fx)
              end
            end
          | _ => (s, [])
          end
        end
      end
    end
  end.

(** [predict]: the pose part, the notification of the parent, and
    [animate]. *)
Definition predict (f : Frame) (app : App) : App * list Effect :=
  let '(s, fx) :=
    if videoReady f && isStreamReady (sceneState app) then
      let '(s, fx) := detectHands f (sceneState app) in
      (s, fx ++ [onGestureChange (gesture s)])
    else (sceneState app, []) in
  (animate (animate_now f)
     (mkApp (camera app) (lastTime app) s (randomCalls app)), fx).

(** [requestAnimationFrame(predict)], frame after frame. *)
Fixpoint run (frames : list Frame) (app : App) : App * list Effect :=
  match frames with
  | [] => (app, [])
  | f :: rest =>
    let '(app1, fx1) := predict f app in
    let '(app2, fx2) := run rest app1 in
    (app2, fx1 ++ fx2)
  end.

(** *** [initThree] *)

(** One iteration of the seeding loop ("Random sphere distribution"). *)
Definition initParticle (acc : Buffers * nat) (i : nat) : Buffers * nat :=
  let '(b, draws) := acc in
  let i3 := (i * 3)%nat in
  let r := BOUNDS * Math_cbrt (Math_random draws) in
  let theta := Math_random (draws + 1) * 2 * Math_PI in
  let phi := Math_acos (2 * Math_random (draws + 2) - 1) in
  let x := r * Math_sin phi * Math_cos theta in
  let y := r * Math_sin phi * Math_sin theta in
  let z := r * Math_cos phi in
  let positions' := set (set (set (positions b) i3 x) (i3 + 1) y) (i3 + 2) z in
  let homePositions' :=
    set (set (set (homePositions b) i3 x) (i3 + 1) y) (i3 + 2) z in
  let velocities' :=
    set (set (set (velocities b) i3 0) (i3 + 1) 0) (i3 + 2) 0 in
  (* Gradient color *)
  let '(cr, cg, cb) := Color_gradient (Math_random (draws + 3)) in
  let colors' := set (set (set (colors b) i3 cr) (i3 + 1) cg) (i3 + 2) cb in
  (mkBuffers positions' velocities' homePositions' colors', (draws + 4)%nat).

(** [initThree], with [container] telling whether [containerRef.current]
    is set. *)
Definition initThree (container : bool) (app : App) : App :=
  if negb container then app else
  match camera app with
  | Some _ => app (* Prevent double init *)
  | None =>
    let fresh := new_Float32Array (PARTICLE_COUNT * 3) in
    let '(b, draws) :=
      fold_left initParticle (seq 0 PARTICLE_COUNT)
        (mkBuffers fresh fresh fresh fresh, randomCalls app) in
    mkApp (Some (Vector3.mk 0 0 CAMERA_Z)) (lastTime app)
      (set_arrays (Some b) (sceneState app)) draws
  end.

End WithHost.

End HandParticlesScene.

(** ** The camera list of [startCamera]
    ([src/components/HandParticlesScene.tsx]) *)

Module MediaDevices.
Import JS String.StringSyntax.
Local Open Scope string_scope.

(** What [navigator.mediaDevices.enumerateDevices()] resolves to.  A
    string is the sequence of its code units. *)
Record MediaDeviceInfo : Set := mkInfo {
  kind : String.string;
  deviceId : String.string;
  label : String.string
}.

(** [a || b] on strings: the empty string is the only falsy one. *)
Definition String_or (a b : String.string) : String.string :=
  if String.eqb a "" then b else a.

(** [s.slice(0, n)] *)
Definition String_slice_0 (n : nat) (s : String.string) : String.string :=
  String.substring 0 n s.

(** [devices.filter(...).map(...)] *)
Definition videoDevices (devices : list MediaDeviceInfo)
  : list CameraDevice.t :=
  List.map
    (fun device =>
       CameraDevice.mk (deviceId device)
         (String_or (label device)
            (String.append "Camera "
               (String.append (String_slice_0 5 (deviceId device)) "..."))))
    (List.filter (fun device => String.eqb (kind device) "videoinput")
       devices).

(** "List devices only after we have permission": the block guarded by
    [hasEnumeratedDevices], given what [enumerateDevices()] does.  It
    returns the flag and the calls of [onCamerasFound] it makes. *)
Definition listDevices (hasEnumeratedDevices : bool)
    (enumerateDevices : Completion (list MediaDeviceInfo))
  : bool * list (list CameraDevice.t) :=
  if negb hasEnumeratedDevices then
    match enumerateDevices with
    | Normal devices => (true, [videoDevices devices])
    | Throw => (hasEnumeratedDevices, [])
    end
  else (hasEnumeratedDevices, []).

(** One [loadeddata] event after the other, each handler running to its
    end before the next event (the handlers are asynchronous; handlers
    that overlap are not modelled). *)
Fixpoint loads (events : list (Completion (list MediaDeviceInfo)))
    (hasEnumeratedDevices : bool) : bool * list (list CameraDevice.t) :=
  match events with
  | [] => (hasEnumeratedDevices, [])
  | e :: rest =>
    let '(flag, calls) := listDevices hasEnumeratedDevices e in
    let '(flag', calls') := loads rest flag in
    (flag', calls ++ calls')
  end.

End MediaDevices.

(** ** [src/components/Overlay.tsx] *)

Module Overlay.
Import String.StringSyntax.
Local Open Scope string_scope.

(** The literals hold the bytes the source file has between the quotes
    (its UTF-8 encoding). *)
Definition getGestureIcon (g : GestureType) : String.string :=
  match g with
  | OPEN_HAND => "ğŸ–ï¸ Swirl"
  | CLOSED_FIST => "âœŠ Repel"
  | VICTORY => "âœŒï¸ Flow"
  | PINCH => "ğŸ¤ Gravity"
  | THUMBS_UP => "ğŸ‘ Orbit"
  | ROCK_ON => "ğŸ¤˜ Chaos"
  | _ => String.EmptyString
  end.

Definition getGestureColor (g : GestureType) : String.string :=
  match g with
  | CLOSED_FIST => "text-red-500 border-red-500"
  | PINCH => "text-orange-500 border-orange-500"
  | VICTORY => "text-green-400 border-green-400"
  | ROCK_ON => "text-purple-500 border-purple-500"
  | _ => "text-cyan-400 border-cyan-400"
  end.

(** "Gesture Feedback Center": the box drawn for a gesture, as its color
    classes and its text. *)
Definition feedback (gesture : GestureType)
  : option (String.string * String.string) :=
  if negb (GestureType_eqb gesture NONE) then
    Some (getGestureColor gesture, getGestureIcon gesture)
  else None.

(** An [<option>] of the camera menu. *)
Record MenuOption : Set := mkOption {
  value : String.string;
  disabled : bool;
  text : String.string
}.

(** [!selectedCameraId]: null or the empty string. *)
Definition noSelection (selectedCameraId : option String.string) : bool :=
  match selectedCameraId with
  | None => true
  | Some id => String.eqb id ""
  end.

(** The camera menu: nothing without cameras, else the value shown and
    the options. *)
Definition cameraMenu (cameras : list CameraDevice.t)
    (selectedCameraId : option String.string)
  : option (String.string * list MenuOption) :=
  if (0 <? length cameras)%nat then
    Some (match selectedCameraId with
          | Some id => id
          | None => String.EmptyString
          end,
          (if noSelection selectedCameraId
           then [mkOption String.EmptyString true "Select Camera"] else [])
          ++ List.map
               (fun cam =>
                  mkOption (CameraDevice.deviceId cam) false
                    (CameraDevice.label cam))
               cameras)
  else None.

End Overlay.

(** ** Observations on a run *)

Module Observations.
Import JS GestureLogic HandParticlesScene.
Local Open Scope float_scope.

(** The DOUBLE_PALM trigger fires when a fullscreen call is made. *)
Definition isTrigger (e : Effect) : bool :=
  match e with
  | requestFullscreen | exitFullscreen => true
  | onGestureChange _ => false
  end.

Definition triggers (fx : list Effect) : nat :=
  length (List.filter isTrigger fx).

(** The gestures reported to the parent. *)
Definition reported (fx : list Effect) : list GestureType :=
  flat_map (fun e => match e with onGestureChange g => [g] | _ => [] end) fx.

(** The same frame with another detection result. *)
Definition withDetection (f : Frame)
    (d : Completion (list (list HandLandmark.t))) : Frame :=
  mkFrame (videoReady f) d (performance_now f) (fullscreenElement f)
    (animate_now f).

(** The same component state with another double-palm timer. *)
Definition withTimer (timer : float) (app : App) : App :=
  mkApp (camera app) (lastTime app)
    (set_doublePalmTimer timer (sceneState app)) (randomCalls app).

(** Two hands are detected, and both classify as OPEN_HAND. *)
Definition bothOpenHands (f : Frame) : Prop :=
  videoReady f = true /\
  exists (first second : list HandLandmark.t) (s1 s2 : float),
    detectForVideo f = Normal [first; second] /\
    detectGesture first = Normal (mkGesture OPEN_HAND s1) /\
    detectGesture second = Normal (mkGesture OPEN_HAND s2).

(** Two buffer sets of the same lengths and home positions. *)
Definition same_shape (b b' : Buffers) : Prop :=
  homePositions b' = homePositions b /\
  length (positions b') = length (positions b) /\
  length (velocities b') = length (velocities b) /\
  length (colors b') = length (colors b).

(** Two buffer sets that agree on cell [j] of the mutable arrays. *)
Definition same_cell (j : nat) (b b' : Buffers) : Prop :=
  get (positions b') j = get (positions b) j /\
  get (velocities b') j = get (velocities b) j /\
  get (colors b') j = get (colors b) j.

End Observations.

(** ** Observations on the classifier, a tick and a run of frames *)

Module ClassifierObservations.

(** The indices [detectGesture] reads: the wrist, and per digit the
    proximal joint and the tip. *)
Definition jointsRead : list nat :=
  [0; 2; 4; 6; 8; 10; 12; 14; 16; 18; 20]%nat.

End ClassifierObservations.

Module EngineObservations.
Import JS GestureLogic HandParticlesScene.
Local Open Scope float_scope.

(** The radius within which the force of a gesture acts, as the tests
    [dist < ...] of "Hand Interaction" have it. *)
Definition reach (g : GestureType) : float :=
  match g with
  | OPEN_HAND | VICTORY | THUMBS_UP => 40
  | CLOSED_FIST => 50
  | PINCH | ROCK_ON => 60
  | NONE | DOUBLE_PALM => 15
  end.

(** The [Math.random()] calls "Color Updates" makes per particle. *)
Definition colorDraws (s : SceneState) : nat :=
  if isHandPresent s then
    match gesture s with
    | VICTORY | PINCH => 0
    | _ => 1
    end
  else 0.

(** Every particle sits at its home with no velocity: the positions are
    finite binary32 numbers equal to the home positions, the velocities
    are zeros. *)
Definition atRest (b : Buffers) : Prop :=
  forall j, (j < PARTICLE_COUNT * 3)%nat ->
    let p := get (positions b) j in
    is_finite p = true /\ Math_fround p = p /\
    (get (homePositions b) j =? p) = true /\
    (get (velocities b) j =? 0) = true.

(** Two buffer sets agree on the cells of particle [i]. *)
Definition sameParticle (i : nat) (b1 b2 : Buffers) : Prop :=
  forall k, (k < 3)%nat ->
    let j := (i * 3 + k)%nat in
    get (positions b1) j = get (positions b2) j /\
    get (velocities b1) j = get (velocities b2) j /\
    get (homePositions b1) j = get (homePositions b2) j /\
    get (colors b1) j = get (colors b2) j.

(** The same component on other buffers. *)
Definition withArrays (b : Buffers) (app : App) : App :=
  mkApp (camera app) (lastTime app) (set_arrays (Some b) (sceneState app))
    (randomCalls app).

(** All four arrays hold three numbers per particle. *)
Definition wellSized (b : Buffers) : Prop :=
  length (positions b) = (PARTICLE_COUNT * 3)%nat /\
  length (velocities b) = (PARTICLE_COUNT * 3)%nat /\
  length (homePositions b) = (PARTICLE_COUNT * 3)%nat /\
  length (colors b) = (PARTICLE_COUNT * 3)%nat.

(** No frame shows a hand, and every tick has a finite length; [last] is
    the time of the tick before the first frame. *)
Fixpoint calm (last : float) (frames : list Frame) : Prop :=
  match frames with
  | [] => True
  | f :: rest =>
    detectForVideo f = Normal [] /\
    is_finite (Math_min ((animate_now f - last) / 1000) 0.1) = true /\
    calm (animate_now f) rest
  end.

End EngineObservations.

Module TickObservations.
Import JS GestureLogic HandParticlesScene Observations.
Local Open Scope float_scope.

(** [predict] runs its pose part. *)
Definition ready (f : Frame) (app : App) : bool :=
  videoReady f && isStreamReady (sceneState app).

(** The detection shows exactly two hands. *)
Definition twoHands (f : Frame) : Prop :=
  exists first second : list HandLandmark.t,
    detectForVideo f = Normal [first; second].

(** Both palms are held open through the frames: taken two by two, each
    frame shows two open hands, the first at a positive time and the
    second less than a second later. *)
Fixpoint heldOpen (frames : list Frame) : Prop :=
  match frames with
  | f0 :: f1 :: rest =>
    bothOpenHands f0 /\ bothOpenHands f1 /\
    (performance_now f0 >? 0) = true /\
    (performance_now f1 - performance_now f0 <? 1000) = true /\
    heldOpen rest
  | [f0] => bothOpenHands f0
  | [] => True
  end.

(** The detection shows exactly two hands, both classified OPEN_HAND. *)
Definition openPair (f : Frame) : Prop :=
  exists (first second : list HandLandmark.t) (s1 s2 : float),
    detectForVideo f = Normal [first; second] /\
    detectGesture first = Normal (mkGesture OPEN_HAND s1) /\
    detectGesture second = Normal (mkGesture OPEN_HAND s2).

End TickObservations.

(** ** Classes of binary64 values *)

Module Binary64.

(** The sign class of a result: a zero, an infinity or a finite number of
    sign [s]; never a NaN. *)
Definition has_sign (s : bool) (x : spec_float) : Prop :=
  match x with
  | S754_zero s' | S754_infinity s' | S754_finite s' _ _ => s' = s
  | S754_nan => False
  end.

(** Zero of either sign, or a positive number or infinity. *)
Definition nonneg (x : spec_float) : Prop :=
  match x with
  | S754_zero _ => True
  | S754_infinity s | S754_finite s _ _ => s = false
  | S754_nan => False
  end.

Definition SF_one : spec_float := S754_finite false 4503599627370496 (-52).

End Binary64.

(** ** Example poses, hosts and states *)

Module Examples.
Import JS GestureLogic HandParticlesScene.
Local Open Scope float_scope.

Definition P := HandLandmark.mk.

(** Wrist at the origin; per digit the joints at 0.05, 0.1, 0.15 and the
    tip at 0.2 from it, the thumb along x and the fingers along y. *)
Definition openHand : list HandLandmark.t :=
  [P 0 0 0;
   P 0.05 0 0; P 0.1 0 0; P 0.15 0 0; P 0.2 0 0;
   P 0 0.05 0; P 0 0.1 0; P 0 0.15 0; P 0 0.2 0;
   P 0 0.05 0; P 0 0.1 0; P 0 0.15 0; P 0 0.2 0;
   P 0 0.05 0; P 0 0.1 0; P 0 0.15 0; P 0 0.2 0;
   P 0 0.05 0; P 0 0.1 0; P 0 0.15 0; P 0 0.2 0].

(** The open hand with the thumb tip brought to [d] from the index tip. *)
Definition pinchAt (d : float) : list HandLandmark.t :=
  <[4%nat := P d 0.2 0]> openHand.

(** All five tips at 0.05 from the wrist, inside their proximal joints at
    0.1; the thumb tip at [d] from the index tip. *)
Definition fistAt (d : float) : list HandLandmark.t :=
  [P 0 0 0;
   P 0.05 0 0; P 0.1 0 0; P 0.15 0 0; P d 0.05 0;
   P 0 0.05 0; P 0 0.1 0; P 0 0.15 0; P 0 0.05 0;
   P 0 0.05 0; P 0 0.1 0; P 0 0.15 0; P 0 0.05 0;
   P 0 0.05 0; P 0 0.1 0; P 0 0.15 0; P 0 0.05 0;
   P 0 0.05 0; P 0 0.1 0; P 0 0.15 0; P 0 0.05 0].

(** A fist in the middle of the picture: the pose [fistAt 0.06] moved so
    that joint 9 is at (0.5, 0.5, 0). *)
Definition centredFist : list HandLandmark.t :=
  [P 0.5 0.45 0;
   P 0.55 0.45 0; P 0.6 0.45 0; P 0.65 0.45 0; P 0.56 0.5 0;
   P 0.5 0.5 0; P 0.5 0.55 0; P 0.5 0.6 0; P 0.5 0.5 0;
   P 0.5 0.5 0; P 0.5 0.55 0; P 0.5 0.6 0; P 0.5 0.5 0;
   P 0.5 0.5 0; P 0.5 0.55 0; P 0.5 0.6 0; P 0.5 0.5 0;
   P 0.5 0.5 0; P 0.5 0.55 0; P 0.5 0.6 0; P 0.5 0.5 0].

(** A host whose library functions are constant.  The theorems hold for
    every host; this one instantiates them at concrete inputs. *)
Definition constantHost : Host :=
  mkHost (fun _ => 0) (fun _ => 1) (fun _ => 0) (fun _ => 0) (fun _ => 0)
    (fun _ _ => 0) (fun _ _ _ => (1, 1, 1)) (fun _ => (1, 1, 1)).

(** Every particle at rest at the origin, where its home is. *)
Definition restingBuffers : Buffers :=
  let zeros := new_Float32Array (PARTICLE_COUNT * 3) in
  mkBuffers zeros zeros zeros zeros.

(** The same with the first particle moved to (1, 0, 0). *)
Definition displacedBuffers : Buffers :=
  let zeros := new_Float32Array (PARTICLE_COUNT * 3) in
  mkBuffers (set zeros 0 1) zeros zeros zeros.

(** A running component with the hand at the origin, last drawn at
    time 0. *)
Definition runningApp (b : Buffers) (present : bool) (g : GestureType) : App :=
  mkApp (Some (Vector3.mk 0 0 CAMERA_Z)) 0
    (mkSceneState (Some b) (Vector3.mk 0 0 0) present g 1 0 0 true) 0.

(** A component whose stream is ready but whose scene is not built. *)
Definition idleApp (timer : float) : App :=
  mkApp None 0
    (mkSceneState None (Vector3.mk 0 0 0) false NONE 0 0 timer true) 0.

(** A frame at time [now] in which the hands [hands] are detected. *)
Definition frameAt (now : float) (hands : list (list HandLandmark.t))
  : Frame :=
  mkFrame true (Normal hands) now false now.

End Examples.

Module MoreExamples.
Import JS GestureLogic HandParticlesScene.
Local Open Scope float_scope.

(** A running component with the hand at [hand]. *)
Definition runningAppAt (hand : Vector3.t) (b : Buffers) (present : bool)
    (g : GestureType) : App :=
  mkApp (Some (Vector3.mk 0 0 CAMERA_Z)) 0
    (mkSceneState (Some b) hand present g 1 0 0 true) 0.

(** Every particle at the origin, the first with a NaN velocity along
    x. *)
Definition nanBuffers : Buffers :=
  let zeros := new_Float32Array (PARTICLE_COUNT * 3) in
  mkBuffers zeros (set zeros 0 nan) zeros zeros.

End MoreExamples.

(* ================================================================== *)
(** * Theorems *)
(* ================================================================== *)

(** ** Rounding in the binary64 format

    Facts about the specification of the primitive floats
    ([SpecFloat]): what shifting and rounding do to a mantissa, and from
    there the sign and the size of a rounded result. *)

Module Binary64Facts.
Import Binary64.
Local Open Scope Z_scope.

Lemma digits2_pos_size (p : positive) : digits2_pos p = Pos.size p.
Proof. induction p; simpl; congruence. Qed.

Lemma digits_lt_pow (p : positive) (a : Z) :
  0 <= a -> Zpos p < 2 ^ a -> Zpos (digits2_pos p) <= a.
Proof.
  intros Ha Hp. rewrite digits2_pos_size.
  destruct (Z.le_gt_cases (Zpos (Pos.size p)) a) as [|Hgt]; [assumption|exfalso].
  pose proof (Pos.size_le p) as Hle.
  assert (H2 : 2 ^ Zpos (Pos.size p) <= 2 * Zpos p).
  { rewrite <- Pos2Z.inj_pow. change (2 * Zpos p) with (Zpos p~0). lia. }
  assert (Hm : 2 * 2 ^ a <= 2 ^ Zpos (Pos.size p)).
  { rewrite <- Z.pow_succ_r by assumption. apply Z.pow_le_mono_r; lia. }
  lia.
Qed.

Lemma digits_le_pow (p : positive) (a : Z) :
  0 <= a -> Zpos p <= 2 ^ a -> Zpos (digits2_pos p) <= a + 1.
Proof.
  intros Ha Hp. apply digits_lt_pow; [lia|].
  rewrite Z.pow_add_r by lia. change (2 ^ 1) with 2. lia.
Qed.

Lemma shr_1_m (mrs : shr_record) :
  0 <= shr_m mrs -> shr_m (shr_1 mrs) = shr_m mrs / 2.
Proof.
  destruct mrs as [m r s]; simpl. intros Hm.
  destruct m as [|[p|p|]|p]; simpl; try reflexivity; try lia.
  - rewrite Pos2Z.inj_xI.
    apply Z.div_unique with (r := 1); lia.
  - rewrite Pos2Z.inj_xO.
    apply Z.div_unique with (r := 0); lia.
Qed.

Lemma iter_shr_1_m (p : positive) : forall mrs,
  0 <= shr_m mrs ->
  shr_m (SpecFloat.iter_pos shr_1 p mrs) = shr_m mrs / 2 ^ Zpos p.
Proof.
  induction p as [p IH|p IH|]; intros mrs Hm; simpl SpecFloat.iter_pos.
  - assert (H1 : 0 <= shr_m (shr_1 mrs)).
    { rewrite shr_1_m by assumption. apply Z.div_pos; lia. }
    assert (H2 : 0 <= shr_m (SpecFloat.iter_pos shr_1 p (shr_1 mrs))).
    { rewrite IH by assumption. apply Z.div_pos; lia. }
    rewrite IH, IH, shr_1_m by assumption.
    rewrite !Z.div_div by lia.
    f_equal.
    replace (Zpos p~1) with (1 + Zpos p + Zpos p) by lia.
    rewrite !Z.pow_add_r by lia. change (2 ^ 1) with 2. lia.
  - assert (H2 : 0 <= shr_m (SpecFloat.iter_pos shr_1 p mrs)).
    { rewrite IH by assumption. apply Z.div_pos; lia. }
    rewrite IH, IH by assumption.
    rewrite !Z.div_div by lia.
    f_equal.
    replace (Zpos p~0) with (Zpos p + Zpos p) by lia.
    rewrite !Z.pow_add_r by lia. lia.
  - rewrite shr_1_m by assumption. reflexivity.
Qed.

(** [shr] divides the mantissa by [2^n] and adds [n] to the exponent; a
    non-positive [n] leaves both alone. *)
Lemma shr_spec (mrs : shr_record) (e n : Z) :
  0 <= shr_m mrs ->
  shr_m (fst (shr mrs e n)) = shr_m mrs / 2 ^ Z.max 0 n /\
  snd (shr mrs e n) = e + Z.max 0 n.
Proof.
  intros Hm. destruct n as [|p|p]; simpl.
  - rewrite Z.div_1_r. lia.
  - rewrite iter_shr_1_m by assumption. split; [reflexivity|lia].
  - rewrite Z.div_1_r. lia.
Qed.

Lemma shr_record_of_loc_m (m : Z) (l : location) :
  shr_m (shr_record_of_loc m l) = m.
Proof. destruct l as [|[]]; reflexivity. Qed.

Lemma round_nearest_even_bounds (m : Z) (l : location) :
  m <= round_nearest_even m l <= m + 1.
Proof.
  destruct l as [|[]]; simpl; try lia.
  destruct (Z.even m); lia.
Qed.


Lemma Zdigits2_lt_pow (m a : Z) :
  0 <= m < 2 ^ a -> 0 <= a -> Zdigits2 m <= a.
Proof.
  intros [Hm Hlt] Ha. destruct m as [|p|p]; simpl; [assumption| |lia].
  now apply digits_lt_pow.
Qed.

Lemma Zdigits2_le_pow (m a : Z) :
  0 <= m <= 2 ^ a -> 0 <= a -> Zdigits2 m <= a + 1.
Proof.
  intros [Hm Hlt] Ha. destruct m as [|p|p]; simpl; [lia| |lia].
  now apply digits_le_pow.
Qed.

Lemma div_pow_lt (m a k : Z) :
  0 <= k <= a -> m < 2 ^ a -> m / 2 ^ k < 2 ^ (a - k).
Proof.
  intros Hk Hm. apply Z.div_lt_upper_bound; [lia|].
  rewrite <- Z.pow_add_r by lia. now replace (k + (a - k)) with a by lia.
Qed.

Lemma div_pow_le (m a k : Z) :
  0 <= k <= a -> m <= 2 ^ a -> m / 2 ^ k <= 2 ^ (a - k).
Proof.
  intros Hk Hm. apply Z.div_le_upper_bound; [lia|].
  rewrite <- Z.pow_add_r by lia. now replace (k + (a - k)) with a by lia.
Qed.


Section Rounding.
Variables prec emax : Z.

Lemma shr_fexp_spec (m e : Z) (l : location) :
  0 <= m ->
  let k := Z.max 0 (fexp prec emax (Zdigits2 m + e) - e) in
  shr_m (fst (shr_fexp prec emax m e l)) = m / 2 ^ k /\
  snd (shr_fexp prec emax m e l) = e + k.
Proof.
  intros Hm k. unfold shr_fexp.
  pose proof (shr_spec (shr_record_of_loc m l) e
                (fexp prec emax (Zdigits2 m + e) - e)) as H.
  rewrite shr_record_of_loc_m in H. now apply H.
Qed.

Lemma binary_round_aux_sign (s : bool) (m e : Z) (l : location) :
  0 <= m -> has_sign s (binary_round_aux prec emax s m e l).
Proof.
  intros Hm. unfold binary_round_aux.
  destruct (shr_fexp_spec m e l Hm) as [Hm1 _].
  destruct (shr_fexp prec emax m e l) as [mrs1 e1]. cbn [fst snd] in Hm1.
  set (m2 := round_nearest_even (shr_m mrs1) (loc_of_shr_record mrs1)).
  assert (Hm2 : 0 <= m2).
  { pose proof (round_nearest_even_bounds (shr_m mrs1) (loc_of_shr_record mrs1)).
    assert (0 <= shr_m mrs1) by (rewrite Hm1; apply Z.div_pos; lia).
    unfold m2; lia. }
  destruct (shr_fexp_spec m2 e1 loc_Exact Hm2) as [Hm3 _].
  destruct (shr_fexp prec emax m2 e1 loc_Exact) as [mrs3 e3]. cbn [fst snd] in Hm3.
  assert (H3 : 0 <= shr_m mrs3) by (rewrite Hm3; apply Z.div_pos; lia).
  destruct (shr_m mrs3) as [|p|p]; simpl; [reflexivity| |lia].
  destruct (e3 <=? emax - prec); reflexivity.
Qed.

Lemma binary_round_sign (s : bool) (m : positive) (e : Z) :
  has_sign s (binary_round prec emax s m e).
Proof.
  unfold binary_round.
  destruct (shl_align m e _) as [mz ez].
  apply binary_round_aux_sign. lia.
Qed.

End Rounding.


(** Rounding a magnitude below one never ends above one. *)
Lemma binary_round_aux_le_one (m e : Z) (l : location) :
  0 <= m < 2 ^ (- e) -> e <= -52 ->
  SFleb (binary_round_aux prec emax false m e l) SF_one = true.
Proof.
  intros [Hm Hlt] He. unfold binary_round_aux.
  pose proof (shr_fexp_spec prec emax m e l Hm) as [Hm1 He1].
  destruct (shr_fexp prec emax m e l) as [mrs1 e1]. cbn [fst snd] in Hm1, He1.
  set (k1 := Z.max 0 (fexp prec emax (Zdigits2 m + e) - e)) in *.
  assert (Hd : Zdigits2 m <= - e) by (apply Zdigits2_lt_pow; lia).
  assert (Hk1 : 0 <= k1 <= - e - 52).
  { unfold k1, fexp, SpecFloat.emin, prec, emax. lia. }
  assert (He1' : e1 <= -52) by lia.
  assert (Hm1' : 0 <= shr_m mrs1 < 2 ^ (- e1)).
  { rewrite Hm1. split; [apply Z.div_pos; lia|].
    replace (- e1) with (- e - k1) by lia. apply div_pow_lt; lia. }
  set (m2 := round_nearest_even (shr_m mrs1) (loc_of_shr_record mrs1)).
  assert (Hm2 : 0 <= m2 <= 2 ^ (- e1)).
  { pose proof (round_nearest_even_bounds (shr_m mrs1) (loc_of_shr_record mrs1)).
    unfold m2; lia. }
  pose proof (shr_fexp_spec prec emax m2 e1 loc_Exact (proj1 Hm2)) as [Hm3 He3].
  destruct (shr_fexp prec emax m2 e1 loc_Exact) as [mrs3 e3]. cbn [fst snd] in Hm3, He3.
  set (k2 := Z.max 0 (fexp prec emax (Zdigits2 m2 + e1) - e1)) in *.
  assert (Hd2 : Zdigits2 m2 <= - e1 + 1) by (apply Zdigits2_le_pow; lia).
  assert (Hk2 : 0 <= k2 <= - e1 - 52).
  { unfold k2, fexp, SpecFloat.emin, prec, emax. lia. }
  assert (He3' : e3 <= -52) by lia.
  assert (Hm3' : 0 <= shr_m mrs3 <= 2 ^ (- e3)).
  { rewrite Hm3. split; [apply Z.div_pos; lia|].
    replace (- e3) with (- e1 - k2) by lia. apply div_pow_le; lia. }
  destruct (shr_m mrs3) as [|p|p]; [reflexivity| |lia].
  replace (e3 <=? emax - prec) with true
    by (symmetry; apply Z.leb_le; unfold emax, prec; lia).
  unfold SFleb, SF_one, SFcompare.
  destruct (Z.compare_spec e3 (-52)) as [Heq|Hl|Hg]; [|reflexivity|lia].
  rewrite Heq in Hm3'. change (2 ^ (- -52)) with 4503599627370496 in Hm3'.
  destruct (Pos.compare_cont Eq p 4503599627370496) eqn:Hc;
    [reflexivity|reflexivity|].
  apply (proj1 (Pos.compare_gt_iff p 4503599627370496)) in Hc. lia.
Qed.


Lemma iter_xO_pow (m d : positive) :
  Zpos (Pos.iter xO m d) = Zpos m * 2 ^ Zpos d.
Proof.
  induction d as [|d IH] using Pos.peano_ind.
  - simpl. lia.
  - rewrite Pos.iter_succ, Pos2Z.inj_xO, IH, Pos2Z.inj_succ, Z.pow_succ_r; lia.
Qed.

(** [shl_align] only ever lowers the exponent, and keeps the value. *)
Lemma shl_align_spec (mx : positive) (ex ex' : Z) :
  snd (shl_align mx ex ex') = Z.min ex ex' /\
  Zpos (fst (shl_align mx ex ex')) = Zpos mx * 2 ^ (ex - Z.min ex ex').
Proof.
  unfold shl_align. destruct (ex' - ex) as [|d|d] eqn:Hd; cbn [fst snd].
  - replace (ex - Z.min ex ex') with 0 by lia. rewrite Z.pow_0_r. split; lia.
  - replace (ex - Z.min ex ex') with 0 by lia. rewrite Z.pow_0_r. split; lia.
  - rewrite iter_xO_pow. replace (ex - Z.min ex ex') with (Zpos d) by lia.
    split; [lia|reflexivity].
Qed.


Lemma has_sign_nonneg (x : spec_float) : has_sign false x -> nonneg x.
Proof. destruct x; simpl; auto. Qed.

Lemma has_sign_neg_le_one (x : spec_float) :
  has_sign true x -> SFleb x SF_one = true.
Proof. destruct x as [s|s| |s m e]; simpl; intros H; subst; easy. Qed.

Lemma binary_round_le_one (p : positive) (e : Z) :
  Zpos p < 2 ^ (- e) -> e <= -52 ->
  SFleb (binary_round prec emax false p e) SF_one = true.
Proof.
  intros Hp He. unfold binary_round.
  pose proof (shl_align_spec p e (fexp prec emax (Zpos (digits2_pos p) + e)))
    as [He' Hm'].
  destruct (shl_align p e _) as [mz ez]. cbn [fst snd] in He', Hm'.
  rewrite <- He' in Hm'.
  apply binary_round_aux_le_one; [|lia].
  split; [lia|]. rewrite Hm'.
  replace (- ez) with (- e + (e - ez)) by lia.
  rewrite Z.pow_add_r by lia.
  apply Zmult_lt_compat_r; [|assumption].
  apply Z.pow_pos_nonneg; lia.
Qed.

(** One minus a non-negative number is a number, and is at most one. *)
Lemma SFsub_one_nonneg (y : spec_float) :
  nonneg y ->
  SFleb (SF64sub SF_one y) SF_one = true /\ SF64sub SF_one y <> S754_nan.
Proof.
  destruct y as [s|s| |s my ey]; cbn [nonneg]; intros Hy.
  - split; [reflexivity|discriminate].
  - subst s. split; [reflexivity|discriminate].
  - contradiction.
  - subst s. unfold SF64sub, SF_one, SFsub, cond_Zopp.
    set (ez := Z.min (-52) ey).
    pose proof (shl_align_spec 4503599627370496 (-52) ez) as [_ H1].
    replace (Z.min (-52) ez) with ez in H1 by (unfold ez; lia).
    set (M1 := Zpos (fst (shl_align 4503599627370496 (-52) ez))) in *.
    set (MY := Zpos (fst (shl_align my ey ez))) in *.
    assert (HM1 : M1 = 2 ^ (- ez)).
    { rewrite H1. change (Zpos 4503599627370496) with (2 ^ 52).
      rewrite <- Z.pow_add_r by (unfold ez; lia). f_equal. lia. }
    assert (HMY : 0 < MY) by (unfold MY; lia).
    unfold binary_normalize.
    destruct (M1 - MY) as [|p|p] eqn:HD.
  + split; [reflexivity|discriminate].
  + split.
    * apply binary_round_le_one; [lia | unfold ez; lia].
    * pose proof (binary_round_sign prec emax false p ez) as Hs.
      intros Hn. rewrite Hn in Hs. exact Hs.
  + pose proof (binary_round_sign prec emax true p ez) as Hs. split.
    * now apply has_sign_neg_le_one.
    * intros Hn. rewrite Hn in Hs. exact Hs.
Qed.

Lemma SFsqrt_nonneg (x : spec_float) :
  SF64sqrt x = S754_nan \/ nonneg (SF64sqrt x).
Proof.
  destruct x as [s|[]| |[] m e]; simpl; auto.
  right. apply has_sign_nonneg.
  unfold SFsqrt_core_binary.
  set (m' := match _ with Z0 => _ | Zpos _ => _ | Zneg _ => _ end).
  pose proof (Z.sqrtrem_sqrt m') as Hq.
  destruct (Z.sqrtrem m') as [q r]. cbn [fst] in Hq.
  apply binary_round_aux_sign.
  rewrite Hq. apply Z.sqrt_nonneg.
Qed.

Lemma SFmul_nonneg (x : spec_float) (m : positive) (e : Z) :
  nonneg x -> nonneg (SF64mul x (S754_finite false m e)).
Proof.
  destruct x as [s|s| |s mx ex]; cbn [nonneg]; intros Hx; try subst s;
    try exact I; try reflexivity; try contradiction.
  apply has_sign_nonneg. apply binary_round_aux_sign. lia.
Qed.

Lemma SFcompare_swap (x y : spec_float) :
  SFcompare y x = option_map CompOpp (SFcompare x y).
Proof.
  destruct x as [s1|s1| |s1 m1 e1], y as [s2|s2| |s2 m2 e2];
    try destruct s1; try destruct s2; try reflexivity;
    cbn [SFcompare option_map]; rewrite (Z.compare_antisym e1 e2);
    destruct (e1 ?= e2); cbn [CompOpp]; try reflexivity;
    pose proof (Pos.compare_cont_antisym m1 m2 Eq) as H; cbn [CompOpp] in H;
    rewrite <- H; destruct (Pos.compare_cont Eq m1 m2); reflexivity.
Qed.

Lemma SFcompare_refl (x : spec_float) :
  x <> S754_nan -> SFcompare x x = Some Eq.
Proof.
  destruct x as [s|s| |s m e]; intros Hx; try contradiction;
    try (destruct s; reflexivity).
  cbn [SFcompare]. rewrite Z.compare_refl, Pos.compare_cont_refl.
  destruct s; reflexivity.
Qed.

End Binary64Facts.

(** ** JavaScript numbers *)

Module FloatFacts.
Import JS Binary64 Binary64Facts.
Local Open Scope float_scope.

Lemma is_nan_spec (a : float) : is_nan a = true <-> Prim2SF a = S754_nan.
Proof.
  unfold is_nan. rewrite FloatAxioms.eqb_spec. unfold SFeqb.
  destruct (Prim2SF a) as [s|s| |s m e] eqn:Ha.
  1,2,4: rewrite SFcompare_refl by discriminate; split; discriminate.
  split; reflexivity.
Qed.

Lemma is_nan_false (a : float) : is_nan a = false <-> Prim2SF a <> S754_nan.
Proof.
  rewrite <- is_nan_spec. destruct (is_nan a); split; congruence.
Qed.

Lemma nan_eq (a : float) : is_nan a = true -> a = nan.
Proof.
  intros H. apply Prim2SF_inj. apply is_nan_spec in H. rewrite H. reflexivity.
Qed.

(** NaN is absorbing. *)
Lemma mul_nan_l (a : float) : nan * a = nan.
Proof. apply Prim2SF_inj. rewrite mul_spec. reflexivity. Qed.

Lemma mul_nan_r (a : float) : a * nan = nan.
Proof.
  apply Prim2SF_inj. rewrite mul_spec.
  change (Prim2SF nan) with S754_nan. now destruct (Prim2SF a).
Qed.

Lemma add_nan_r (a : float) : a + nan = nan.
Proof.
  apply Prim2SF_inj. rewrite add_spec.
  change (Prim2SF nan) with S754_nan. now destruct (Prim2SF a).
Qed.

Lemma add_nan_l (a : float) : nan + a = nan.
Proof. apply Prim2SF_inj. rewrite add_spec. reflexivity. Qed.

Lemma mul_comm (a b : float) : a * b = b * a.
Proof.
  apply Prim2SF_inj. rewrite !mul_spec.
  destruct (Prim2SF a) as [s1|s1| |s1 m1 e1], (Prim2SF b) as [s2|s2| |s2 m2 e2];
    cbn [SF64mul SFmul]; rewrite ?(xorb_comm s1 s2); try reflexivity.
  now rewrite (Pos.mul_comm m1 m2), (Z.add_comm e1 e2).
Qed.

Lemma ltb_compare (a b : float) :
  (a <? b) = true <-> SFcompare (Prim2SF a) (Prim2SF b) = Some Lt.
Proof.
  rewrite FloatAxioms.ltb_spec. unfold SFltb.
  destruct (SFcompare _ _) as [[]|]; split; congruence.
Qed.

Lemma ltb_not_nan (a b : float) :
  (a <? b) = true -> is_nan a = false /\ is_nan b = false.
Proof.
  rewrite ltb_compare, !is_nan_false. intros H.
  split; intros Hn; rewrite Hn in H;
    [|destruct (Prim2SF a)]; discriminate.
Qed.

Lemma ltb_leb (a b : float) : (a <? b) = true -> (a <=? b) = true.
Proof.
  rewrite ltb_compare, FloatAxioms.leb_spec. unfold SFleb. now intros ->.
Qed.

Lemma ltb_asym (a b : float) : (a <? b) = true -> (b <? a) = false.
Proof.
  rewrite ltb_compare, (FloatAxioms.ltb_spec b a). unfold SFltb.
  rewrite (SFcompare_swap (Prim2SF a) (Prim2SF b)). now intros ->.
Qed.

Lemma leb_not_gt (a b : float) : (a <=? b) = true -> (b <? a) = false.
Proof.
  rewrite FloatAxioms.leb_spec, FloatAxioms.ltb_spec. unfold SFleb, SFltb.
  rewrite (SFcompare_swap (Prim2SF a) (Prim2SF b)).
  now destruct (SFcompare _ _) as [[]|].
Qed.

Lemma not_gt_leb (a b : float) :
  is_nan a = false -> is_nan b = false -> (b <? a) = false ->
  (a <=? b) = true.
Proof.
  rewrite !is_nan_false, FloatAxioms.leb_spec, FloatAxioms.ltb_spec. unfold SFleb, SFltb.
  rewrite (SFcompare_swap (Prim2SF a) (Prim2SF b)).
  intros Ha Hb.
  destruct (Prim2SF a) as [s1|s1| |s1 m1 e1] eqn:Ea; try contradiction;
    destruct (Prim2SF b) as [s2|s2| |s2 m2 e2] eqn:Eb; try contradiction;
    destruct (SFcompare _ _) as [[]|] eqn:Ec; try discriminate; try reflexivity;
    cbn in Ec; try destruct s1; try destruct s2; discriminate.
Qed.


Lemma SFcompare_eq_finite (x : spec_float) (s : bool) (m : positive) (e : Z) :
  SFcompare x (S754_finite s m e) = Some Eq -> x = S754_finite s m e.
Proof.
  destruct x as [s1|s1| |s1 m1 e1]; cbn [SFcompare];
    try (destruct s; discriminate); try (destruct s1; discriminate).
  destruct s1, s; try discriminate;
    destruct (Z.compare_spec e1 e) as [He|He|He]; try discriminate;
    intros H; injection H as H.
  - apply (f_equal CompOpp) in H. rewrite CompOpp_involutive in H.
    apply Pos.compare_eq in H. now subst.
  - apply Pos.compare_eq in H. now subst.
Qed.

Lemma leb_one_eq (v : float) :
  (v <=? 1) = true -> (v <? 1) = false -> v = 1.
Proof.
  rewrite FloatAxioms.leb_spec, FloatAxioms.ltb_spec. unfold SFleb, SFltb.
  change (Prim2SF 1) with SF_one.
  destruct (SFcompare (Prim2SF v) SF_one) as [[]|] eqn:Hc; try discriminate.
  intros _ _. apply Prim2SF_inj.
  now apply SFcompare_eq_finite in Hc.
Qed.

Lemma sqrt_nonneg (a : float) :
  is_nan (sqrt a) = false -> nonneg (Prim2SF (sqrt a)).
Proof.
  rewrite is_nan_false, sqrt_spec.
  destruct (SFsqrt_nonneg (Prim2SF a)) as [H|H]; [contradiction|auto].
Qed.

(** The strength [Math.max(0, 1 - d * 20)] of a pinch at a non-negative
    distance [d] lies between 0 and 1, so clamping it above changes
    nothing. *)
Lemma pinch_strength_bounds (d : float) :
  nonneg (Prim2SF d) ->
  let s := Math_max 0 (1 - d * 20) in
  (0 <=? s) = true /\ (s <=? 1) = true /\
  ClassifierSpec.clamp (1 - d * 20) 0 1 = s.
Proof.
  intros Hd.
  assert (Hy : nonneg (Prim2SF (d * 20))).
  { rewrite mul_spec.
    change (Prim2SF 20) with (S754_finite false 5629499534213120 (-48)).
    now apply SFmul_nonneg. }
  destruct (SFsub_one_nonneg _ Hy) as [Hle Hnn].
  set (x := 1 - d * 20).
  assert (Hx1 : (x <=? 1) = true).
  { rewrite FloatAxioms.leb_spec. unfold x. rewrite sub_spec. exact Hle. }
  assert (Hxn : is_nan x = false).
  { apply is_nan_false. unfold x. rewrite sub_spec. exact Hnn. }
  assert (Hmax : Math_max 0 x = if 0 <? x then x else 0).
  { unfold Math_max. change (is_nan 0) with false. rewrite Hxn.
    change (is_neg_zero 0) with false. now rewrite andb_false_r. }
  unfold ClassifierSpec.clamp. cbv zeta. rewrite Hmax.
  destruct (0 <? x) eqn:H0.
  - split; [now apply ltb_leb|]. split; [assumption|].
    unfold Math_min. change (is_nan 1) with false. rewrite Hxn.
    change (is_pos_zero 1) with false. rewrite andb_false_r. cbn [orb].
    destruct (x <? 1) eqn:H1; [reflexivity|].
    symmetry. now apply leb_one_eq.
  - repeat split; reflexivity.
Qed.

Lemma positive_not_zero (t : float) : (t >? 0) = true -> (t =? 0) = false.
Proof.
  rewrite FloatAxioms.ltb_spec, FloatAxioms.eqb_spec. unfold SFltb, SFeqb.
  rewrite (SFcompare_swap (Prim2SF 0) (Prim2SF t)).
  now destruct (SFcompare (Prim2SF 0) (Prim2SF t)) as [[]|].
Qed.

(** [Math.min(a, 0.1)] is at most 0.1 unless [a] is NaN. *)
Lemma Math_min_le (a : float) :
  is_nan a = false -> (Math_min a 0.1 <=? 0.1) = true.
Proof.
  intros Ha. unfold Math_min. rewrite Ha.
  change (is_nan 0.1) with false. change (is_neg_zero 0.1) with false.
  cbn [orb andb].
  destruct (0.1 <? a) eqn:Hlt; [reflexivity|].
  now apply not_gt_leb.
Qed.

Lemma is_finite_spec (a : float) :
  is_finite a = true ->
  match Prim2SF a with
  | S754_zero _ | S754_finite _ _ _ => True
  | _ => False
  end.
Proof.
  unfold is_finite, is_infinity. rewrite negb_true_iff, orb_false_iff.
  rewrite is_nan_false, FloatAxioms.eqb_spec, abs_spec.
  intros [Hn Hi]. destruct (Prim2SF a) as [s|s| |s m e]; auto.
  discriminate Hi.
Qed.

(** The difference of two equal finite numbers is a zero. *)
Lemma sub_eq_zero (a b : float) :
  is_finite b = true -> (a =? b) = true ->
  exists s : bool, Prim2SF (a - b) = S754_zero s.
Proof.
  intros Hb Hab. apply is_finite_spec in Hb.
  rewrite FloatAxioms.eqb_spec in Hab. unfold SFeqb in Hab.
  rewrite sub_spec.
  destruct (Prim2SF b) as [sb|sb| |sb mb eb] eqn:Eb; try contradiction.
  - destruct (Prim2SF a) as [sa|sa| |sa ma ea]; cbn [SFcompare] in Hab;
      try discriminate Hab; try (destruct sa; discriminate Hab).
    destruct sa, sb; eauto.
  - destruct (SFcompare (Prim2SF a) _) as [[]|] eqn:Hc; try discriminate Hab.
    apply SFcompare_eq_finite in Hc. rewrite Hc.
    cbn [SF64sub SFsub]. rewrite Z.min_id, Z.sub_diag. eauto.
Qed.

Lemma zero_square (d : float) (s : bool) :
  Prim2SF d = S754_zero s -> d * d = 0.
Proof.
  intros Hd. apply Prim2SF_inj. rewrite mul_spec, Hd. now destruct s.
Qed.

Lemma zero_div_zero (d : float) (s : bool) :
  Prim2SF d = S754_zero s -> d / 0 = nan.
Proof. intros Hd. apply Prim2SF_inj. now rewrite div_spec, Hd. Qed.

Lemma zero_mul_finite (z a : float) (s : bool) :
  Prim2SF z = S754_zero s -> is_finite a = true ->
  exists s' : bool, Prim2SF (z * a) = S754_zero s'.
Proof.
  intros Hz Ha. apply is_finite_spec in Ha. rewrite mul_spec, Hz.
  destruct (Prim2SF a) as [sa|sa| |sa ma ea]; try contradiction;
    cbn [SF64mul SFmul]; eauto.
Qed.

Lemma zero_eqb (z : float) (s : bool) :
  Prim2SF z = S754_zero s -> (z =? 0) = true.
Proof. intros Hz. rewrite FloatAxioms.eqb_spec, Hz. reflexivity. Qed.

Lemma Math_fround_zero (z : float) (s : bool) :
  Prim2SF z = S754_zero s -> Math_fround z = z.
Proof. intros Hz. unfold Math_fround. now rewrite Hz. Qed.

End FloatFacts.

(** ** The classifier *)

Module ClassifierFacts.
Import JS GestureLogic ClassifierSpec Binary64 Binary64Facts FloatFacts.
Local Open Scope float_scope.

Lemma at_index_joint (pose : list HandLandmark.t) (i : nat) :
  (i < length pose)%nat -> at_index pose i = Normal (joint pose i).
Proof.
  intros Hi. unfold at_index, joint. rewrite nth_lookup.
  destruct (lookup_lt_is_Some_2 pose i Hi) as [p ->]. reflexivity.
Qed.

Lemma joint_lookup (pose : list HandLandmark.t) (i : nat) (p : HandLandmark.t) :
  pose !! i = Some p -> joint pose i = p.
Proof. intros H. unfold joint. rewrite nth_lookup, H. reflexivity. Qed.

Lemma isFingerExtended_isExtended (pose : list HandLandmark.t) (tip pip : nat) :
  (21 <= length pose)%nat -> (tip <= 20)%nat -> (pip <= 20)%nat ->
  isFingerExtended pose tip pip = Normal (isExtended pose tip pip).
Proof.
  intros Hl Ht Hp. unfold isFingerExtended.
  rewrite !at_index_joint by lia. reflexivity.
Qed.

(** What [detectGesture] returns on a complete pose, in the terms of the
    specification. *)
Lemma detectGesture_complete (pose : list HandLandmark.t) :
  (21 <= length pose)%nat ->
  detectGesture pose =
  Normal
    (if pinchDistance pose <? 0.05 then
       mkGesture PINCH (Math_max 0 (1 - pinchDistance pose * 20))
     else
       mkGesture (classify pose)
         (match classify pose with NONE => 0 | _ => 1 end)).
Proof.
  intros Hl. unfold detectGesture.
  replace (length pose <? 21)%nat with false
    by (symmetry; apply Nat.ltb_ge; lia).
  rewrite !at_index_joint by lia. cbn [bind].
  fold (pinchDistance pose).
  unfold classify, rules.
  destruct (pinchDistance pose <? 0.05) eqn:Hp; [reflexivity|].
  rewrite !isFingerExtended_isExtended by lia. cbn [bind firstMatch].
  unfold extendedCount.
  fold (thumb pose) (index pose) (middle pose) (ring pose) (pinky pose).
  destruct (thumb pose), (index pose), (middle pose), (ring pose),
    (pinky pose); reflexivity.
Qed.

Lemma detectGesture_short (pose : list HandLandmark.t) :
  (length pose < 21)%nat -> detectGesture pose = Normal (mkGesture NONE 0).
Proof.
  intros Hl. unfold detectGesture.
  now replace (length pose <? 21)%nat with true
    by (symmetry; apply Nat.ltb_lt; lia).
Qed.

Lemma classify_not_pinch (pose : list HandLandmark.t) :
  (pinchDistance pose <? 0.05) = false ->
  classify pose <> PINCH /\ classify pose <> DOUBLE_PALM.
Proof.
  intros Hp. unfold classify, rules. rewrite Hp. cbn [firstMatch].
  destruct (extendedCount pose =? 0)%nat; [split; discriminate|].
  destruct (index pose), (middle pose), (ring pose), (pinky pose),
    (thumb pose); cbn [andb negb firstMatch];
    try (split; discriminate);
    destruct (4 <=? extendedCount pose)%nat; split; discriminate.
Qed.

Lemma pinchDistance_nonneg (pose : list HandLandmark.t) :
  (pinchDistance pose <? 0.05) = true -> nonneg (Prim2SF (pinchDistance pose)).
Proof.
  intros H. apply ltb_not_nan in H as [H _].
  unfold pinchDistance, distance, Math_sqrt in *. now apply sqrt_nonneg.
Qed.

Lemma detectGesture_returns (landmarks : list HandLandmark.t) :
  exists g : Gesture, detectGesture landmarks = Normal g.
Proof.
  destruct (Nat.lt_ge_cases (length landmarks) 21) as [Hl|Hl].
  - rewrite (detectGesture_short _ Hl). eauto.
  - rewrite (detectGesture_complete _ Hl). eauto.
Qed.

Lemma detectGesture_open_complete (h : list HandLandmark.t) (s : float) :
  detectGesture h = Normal (mkGesture OPEN_HAND s) -> (21 <= length h)%nat.
Proof.
  intros H. destruct (Nat.lt_ge_cases (length h) 21) as [Hl|Hl]; [|assumption].
  rewrite (detectGesture_short _ Hl) in H. discriminate H.
Qed.

End ClassifierFacts.

Module ClassifierTheorems.
Import JS GestureLogic ClassifierSpec Binary64 FloatFacts ClassifierFacts.
Import Examples.
Local Open Scope float_scope.

(** C1. Classifier precedence. On every pose of at least 21 joints the
    category [detectGesture] returns is the first matching rule of the
    ordered list PINCH, CLOSED_FIST, ROCK_ON, VICTORY, THUMBS_UP, OPEN_HAND
    (NONE when none matches); in particular a thumb-tip-to-index-tip
    distance below 0.05 gives PINCH whatever the digits' extension is. *)
Theorem detectGesture_precedence (pose : list HandLandmark.t)
    (thumbTip indexTip : HandLandmark.t) :
  (21 <= length pose)%nat ->
  pose !! 4%nat = Some thumbTip ->
  pose !! 8%nat = Some indexTip ->
  (exists s, detectGesture pose = Normal (mkGesture (firstMatch (rules pose)) s))
  /\ ((distance thumbTip indexTip <? 0.05) = true ->
      detectGesture pose =
      Normal (mkGesture PINCH
                (Math_max 0 (1 - distance thumbTip indexTip * 20)))).
Proof.
  intros Hl H4 H8. rewrite (detectGesture_complete pose Hl).
  unfold pinchDistance. rewrite (joint_lookup _ _ _ H4), (joint_lookup _ _ _ H8).
  split.
  - destruct (distance thumbTip indexTip <? 0.05) eqn:Hp.
    + eexists. f_equal. f_equal. unfold rules, pinchDistance.
      rewrite (joint_lookup _ _ _ H4), (joint_lookup _ _ _ H8), Hp.
      reflexivity.
    + eexists. reflexivity.
  - intros ->. reflexivity.
Qed.

Lemma detectGesture_precedence_witness :
  extendedCount (pinchAt 0.01) = 5%nat /\
  detectGesture (pinchAt 0.01) = Normal (mkGesture PINCH 0.80000000000000004).
Proof.
  split; [reflexivity|].
  refine (proj2 (detectGesture_precedence (pinchAt 0.01) (P 0.01 0.2 0)
                   (P 0 0.2 0) _ _ _) _).
  - vm_compute. lia.
  - reflexivity.
  - reflexivity.
  - reflexivity.
Defined.

(** C4. Output contract and totality. [detectGesture] returns a result on
    every landmark list, (NONE, 0) on fewer than 21 joints; the strength
    is between 0 and 1, exactly 1 for every category other than NONE and
    PINCH, exactly 0 for NONE; DOUBLE_PALM is never returned. *)
Theorem detectGesture_total (landmarks : list HandLandmark.t) :
  exists g : Gesture,
    detectGesture landmarks = Normal g /\
    ((length landmarks < 21)%nat -> g = mkGesture NONE 0) /\
    (0 <=? strength g) = true /\ (strength g <=? 1) = true /\
    (type g <> NONE -> type g <> PINCH -> strength g = 1) /\
    (type g = NONE -> strength g = 0) /\
    type g <> DOUBLE_PALM.
Proof.
  destruct (Nat.lt_ge_cases (length landmarks) 21) as [Hl|Hl].
  - rewrite (detectGesture_short _ Hl). eexists. split; [reflexivity|].
    cbn [type strength]. repeat split; try reflexivity; congruence.
  - rewrite (detectGesture_complete _ Hl).
    destruct (pinchDistance landmarks <? 0.05) eqn:Hp.
    + eexists. split; [reflexivity|]. cbn [type strength].
      destruct (pinch_strength_bounds _ (pinchDistance_nonneg _ Hp))
        as (H0 & H1 & _).
      repeat split; try assumption; try congruence; lia.
    + eexists. split; [reflexivity|]. cbn [type strength].
      destruct (classify_not_pinch _ Hp) as [_ Hdp].
      split; [lia|].
      destruct (classify landmarks); repeat split;
        try reflexivity; congruence.
Qed.

(** C5, as the code has it. PINCH is returned exactly when the
    thumb-tip-to-index-tip distance is strictly below 0.05 (so not at
    0.05), its strength is clamp(1 - distance * 20, 0, 1), and at distance
    0.0499 that strength is 0.002 (to rounding), not a value near 1; the
    strength is 1 at distance 0. *)
Theorem pinch_threshold (pose : list HandLandmark.t)
    (thumbTip indexTip : HandLandmark.t) :
  (21 <= length pose)%nat ->
  pose !! 4%nat = Some thumbTip ->
  pose !! 8%nat = Some indexTip ->
  let d := distance thumbTip indexTip in
  exists g : Gesture,
    detectGesture pose = Normal g /\
    (type g = PINCH <-> (d <? 0.05) = true) /\
    (d = 0.05 -> type g <> PINCH) /\
    (type g = PINCH -> strength g = clamp (1 - d * 20) 0 1) /\
    (d = 0.0499 -> g = mkGesture PINCH 0.0020000000000000018) /\
    (d = 0 -> g = mkGesture PINCH 1).
Proof.
  intros Hl H4 H8 d. rewrite (detectGesture_complete pose Hl).
  assert (Hd : pinchDistance pose = d).
  { unfold pinchDistance.
    now rewrite (joint_lookup _ _ _ H4), (joint_lookup _ _ _ H8). }
  pose proof (pinchDistance_nonneg pose) as Hnn.
  pose proof (classify_not_pinch pose) as Hnp.
  rewrite Hd in *. clearbody d.
  destruct (d <? 0.05) eqn:Hp.
  - eexists. split; [reflexivity|]. cbn [type strength].
    split; [tauto|]. split; [intros ->; discriminate Hp|].
    split; [|split; intros ->; reflexivity].
    intros _. symmetry. apply (pinch_strength_bounds d (Hnn eq_refl)).
  - eexists. split; [reflexivity|]. cbn [type strength].
    destruct (Hnp eq_refl) as [Hn _].
    split; [split; [contradiction|discriminate]|].
    split; [now intros _|]. split; [contradiction|].
    split; intros ->; discriminate Hp.
Qed.

Lemma pinch_threshold_witness :
  detectGesture (pinchAt 0.0499)
  = Normal (mkGesture PINCH 0.0020000000000000018).
Proof.
  destruct (pinch_threshold (pinchAt 0.0499) (P 0.0499 0.2 0) (P 0 0.2 0))
    as (g & Hg & _ & _ & _ & H & _).
  - vm_compute. lia.
  - reflexivity.
  - reflexivity.
  - rewrite Hg. f_equal. apply H. reflexivity.
Defined.

(** C5 as stated fails: at distance 0.0499 the pose is a PINCH of strength
    0.002, which is 0.998 away from 1. *)
Lemma pinch_0499_strength_not_near_one :
  distance (P 0.0499 0.2 0) (P 0 0.2 0) = 0.0499 /\
  detectGesture (pinchAt 0.0499)
  = Normal (mkGesture PINCH 0.0020000000000000018) /\
  abs (0.0020000000000000018 - 1) = 0.998.
Proof. repeat split; reflexivity. Qed.

(** C9, as the code has it. A digit counts as extended iff
    distance(wrist, tip) > distance(wrist, proximal joint); a pose whose
    five tips are all closer to the wrist than their proximal joints (MCP
    for the thumb, PIP for the others) is a CLOSED_FIST unless its
    thumb tip is within 0.05 of its index tip, when it is a PINCH. *)
Theorem curled_hand (pose : list HandLandmark.t) :
  (21 <= length pose)%nat ->
  let wrist := joint pose 0 in
  let curled tip proximal :=
    distance wrist (joint pose tip) <? distance wrist (joint pose proximal) in
  (forall tip proximal : nat,
     (tip <= 20)%nat -> (proximal <= 20)%nat ->
     isFingerExtended pose tip proximal
     = Normal (distance wrist (joint pose tip)
               >? distance wrist (joint pose proximal))) /\
  (curled 4%nat 2%nat = true -> curled 8%nat 6%nat = true ->
   curled 12%nat 10%nat = true -> curled 16%nat 14%nat = true ->
   curled 20%nat 18%nat = true ->
   extendedCount pose = 0%nat /\
   detectGesture pose =
   Normal (if pinchDistance pose <? 0.05 then
             mkGesture PINCH (Math_max 0 (1 - pinchDistance pose * 20))
           else mkGesture CLOSED_FIST 1)).
Proof.
  intros Hl wrist curled. split.
  - intros tip proximal Ht Hp. now apply isFingerExtended_isExtended.
  - intros H1 H2 H3 H4 H5.
    apply ltb_asym in H1, H2, H3, H4, H5.
    assert (Hc : extendedCount pose = 0%nat).
    { unfold extendedCount, thumb, index, middle, ring, pinky, isExtended.
      fold wrist. now rewrite H1, H2, H3, H4, H5. }
    split; [assumption|].
    rewrite (detectGesture_complete pose Hl).
    destruct (pinchDistance pose <? 0.05) eqn:Hp; [reflexivity|].
    unfold classify, rules. rewrite Hp, Hc. reflexivity.
Qed.

Lemma curled_hand_witness :
  detectGesture (fistAt 0.06) = Normal (mkGesture CLOSED_FIST 1).
Proof.
  refine (proj2 (proj2 (curled_hand (fistAt 0.06) _) _ _ _ _ _));
    first [reflexivity | vm_compute; lia].
Defined.

(** C9 as stated fails: a hand with all five digits curled whose thumb tip
    is 0.01 from its index tip is a PINCH, not a CLOSED_FIST. *)
Lemma curled_pinch_is_not_fist :
  extendedCount (fistAt 0.01) = 0%nat /\
  Forall (fun '(tip, proximal) =>
            (distance (joint (fistAt 0.01) 0) (joint (fistAt 0.01) tip)
             <? distance (joint (fistAt 0.01) 0) (joint (fistAt 0.01) proximal))
            = true)
    [(4, 2); (8, 6); (12, 10); (16, 14); (20, 18)]%nat /\
  detectGesture (fistAt 0.01) = Normal (mkGesture PINCH 0.80000000000000004).
Proof.
  split; [reflexivity|]. split; [|reflexivity].
  repeat constructor.
Qed.

End ClassifierTheorems.

(** ** The particle engine *)

Module SceneFacts.
Import JS GestureLogic HandParticlesScene Observations FloatFacts.
Local Open Scope float_scope.

(** *** Typed-array reads and writes *)

Lemma length_set (a : list float) (i : nat) (v : float) :
  length (set a i v) = length a.
Proof. apply length_insert. Qed.

Lemma get_set_eq (a : list float) (i : nat) (v : float) :
  (i < length a)%nat -> get (set a i v) i = Math_fround v.
Proof.
  intros Hi. unfold get, set. now rewrite list_lookup_insert_eq.
Qed.

Lemma get_set_ne (a : list float) (i j : nat) (v : float) :
  i <> j -> get (set a i v) j = get a j.
Proof.
  intros Hij. unfold get, set. now rewrite list_lookup_insert_ne.
Qed.

(** Reading one of three consecutive cells just written. *)
Lemma get_set3 (a : list float) (i3 : nat) (v0 v1 v2 : float) :
  (i3 + 2 < length a)%nat ->
  get (set (set (set a i3 v0) (i3 + 1) v1) (i3 + 2) v2) i3 = Math_fround v0 /\
  get (set (set (set a i3 v0) (i3 + 1) v1) (i3 + 2) v2) (i3 + 1)
  = Math_fround v1 /\
  get (set (set (set a i3 v0) (i3 + 1) v1) (i3 + 2) v2) (i3 + 2)
  = Math_fround v2.
Proof.
  intros Hl. repeat split.
  - rewrite !get_set_ne by lia. apply get_set_eq. lia.
  - rewrite get_set_ne by lia. apply get_set_eq. rewrite length_set. lia.
  - apply get_set_eq. rewrite !length_set. lia.
Qed.

Lemma get_set3_other (a : list float) (i3 j : nat) (v0 v1 v2 : float) :
  (j < i3 \/ i3 + 2 < j)%nat ->
  get (set (set (set a i3 v0) (i3 + 1) v1) (i3 + 2) v2) j = get a j.
Proof. intros Hj. rewrite !get_set_ne by lia. reflexivity. Qed.

Lemma length_set3 (a : list float) (i3 : nat) (v0 v1 v2 : float) :
  length (set (set (set a i3 v0) (i3 + 1) v1) (i3 + 2) v2) = length a.
Proof. now rewrite !length_set. Qed.

Lemma same_shape_refl (b : Buffers) : same_shape b b.
Proof. repeat split. Qed.

Lemma same_shape_trans (b1 b2 b3 : Buffers) :
  same_shape b1 b2 -> same_shape b2 b3 -> same_shape b1 b3.
Proof. unfold same_shape. intuition congruence. Qed.

Section WithHost.
Context {host : Host}.

(** *** The loop body *)

Lemma colorUpdates_length (s : SceneState) (i3 : nat) (px dist : float)
    (home colors : list float) (draws : nat) (c : list float) (d : nat) :
  colorUpdates s i3 px dist home colors draws = (c, d) ->
  length c = length colors.
Proof.
  unfold colorUpdates.
  destruct (gesture s); try destruct (Color_setHSL _ _ _) as [[r g] b];
    try destruct (Math_random draws <? 0.05);
    intros [= <- <-]; rewrite ?length_set3; reflexivity.
Qed.

Lemma colorUpdates_other (s : SceneState) (i3 j : nat) (px dist : float)
    (home colors : list float) (draws : nat) (c : list float) (d : nat) :
  colorUpdates s i3 px dist home colors draws = (c, d) ->
  (j < i3 \/ i3 + 2 < j)%nat ->
  get c j = get colors j.
Proof.
  unfold colorUpdates. intros H Hj. revert H.
  destruct (gesture s); try destruct (Color_setHSL _ _ _) as [[r g] b];
    try destruct (Math_random draws <? 0.05);
    intros [= <- <-]; rewrite ?get_set3_other by assumption; reflexivity.
Qed.

(** A step keeps the lengths and never writes the home positions. *)
Lemma particleStep_shape (s : SceneState) (dt : float) (acc : Buffers * nat)
    (i : nat) :
  same_shape (fst acc) (fst (particleStep s dt acc i)).
Proof.
  destruct acc as [b draws]. unfold particleStep.
  destruct (isHandPresent s).
  - destruct (handInteraction _ _ _ _ _ _ _ _ _ _ _ _) as [[[vx vy] vz] d1].
    destruct (colorUpdates _ _ _ _ _ _ _) as [c d2] eqn:Hc.
    apply colorUpdates_length in Hc.
    repeat split; cbn [fst positions velocities colors homePositions];
      rewrite ?length_set3; auto.
  - repeat split; cbn [fst positions velocities colors homePositions];
      rewrite ?length_set3; auto.
Qed.

(** A step only writes the three cells of its own particle. *)
Lemma particleStep_other (s : SceneState) (dt : float) (acc : Buffers * nat)
    (i j : nat) :
  (j < i * 3 \/ i * 3 + 2 < j)%nat ->
  same_cell j (fst acc) (fst (particleStep s dt acc i)).
Proof.
  intros Hj. destruct acc as [b draws]. unfold particleStep.
  destruct (isHandPresent s).
  - destruct (handInteraction _ _ _ _ _ _ _ _ _ _ _ _) as [[[vx vy] vz] d1].
    destruct (colorUpdates _ _ _ _ _ _ _) as [c d2] eqn:Hc.
    apply colorUpdates_other with (j := j) in Hc; [|assumption].
    repeat split; cbn [fst positions velocities colors homePositions];
      rewrite ?get_set3_other by assumption; auto.
  - repeat split; cbn [fst positions velocities colors homePositions];
      rewrite ?get_set3_other by assumption; auto.
Qed.

(** Whatever the hand does, the velocity a step stores is some number
    times the friction 0.92 (rounded by the store). *)
Lemma particleStep_friction (s : SceneState) (dt : float)
    (acc : Buffers * nat) (i k : nat) :
  (k < 3)%nat -> (i * 3 + 2 < length (velocities (fst acc)))%nat ->
  exists u : float,
    get (velocities (fst (particleStep s dt acc i))) (i * 3 + k)
    = Math_fround (u * 0.92).
Proof.
  intros Hk Hl. destruct acc as [b draws]. cbn [fst] in Hl.
  unfold particleStep.
  destruct (if isHandPresent s then _ else _) as [[[[vx vy] vz] c] d].
  cbn [fst velocities].
  match goal with
  | |- context [set (set (set ?a ?i3 ?v0) _ ?v1) _ ?v2] =>
      destruct (get_set3 a i3 v0 v1 v2 Hl) as (H0 & H1 & H2)
  end.
  destruct k as [|[|[|k]]]; [| | |lia].
  - rewrite Nat.add_0_r, H0. eauto.
  - rewrite H1. eauto.
  - rewrite H2. eauto.
Qed.

(** With no hand present a step applies the home force, the friction and
    the integration, and nothing else. *)
Lemma particleStep_no_hand (s : SceneState) (dt : float) (b : Buffers)
    (draws i : nat) :
  isHandPresent s = false ->
  let i3 := (i * 3)%nat in
  let v j :=
    (get (velocities b) j
     + (get (homePositions b) j - get (positions b) j) * 1.5 * dt) * 0.92 in
  particleStep s dt (b, draws) i =
  (mkBuffers
     (set (set (set (positions b) i3 (get (positions b) i3 + v i3 * dt))
             (i3 + 1) (get (positions b) (i3 + 1) + v (i3 + 1)%nat * dt))
        (i3 + 2) (get (positions b) (i3 + 2) + v (i3 + 2)%nat * dt))
     (set (set (set (velocities b) i3 (v i3)) (i3 + 1) (v (i3 + 1)%nat))
        (i3 + 2) (v (i3 + 2)%nat))
     (homePositions b) (colors b), draws).
Proof. intros Hh. unfold particleStep. rewrite Hh. reflexivity. Qed.

(** *** The loop *)

Lemma loop_shape (s : SceneState) (dt : float) (l : list nat) :
  forall acc : Buffers * nat,
    same_shape (fst acc) (fst (fold_left (particleStep s dt) l acc)).
Proof.
  induction l as [|i l IH]; intros acc; cbn [fold_left].
  - apply same_shape_refl.
  - eapply same_shape_trans; [apply particleStep_shape|apply IH].
Qed.

Lemma loop_other (s : SceneState) (dt : float) (j : nat) (l : list nat) :
  (forall i, In i l -> j < i * 3 \/ i * 3 + 2 < j)%nat ->
  forall acc : Buffers * nat,
    same_cell j (fst acc) (fst (fold_left (particleStep s dt) l acc)).
Proof.
  induction l as [|i l IH]; intros Hl acc; cbn [fold_left].
  - repeat split.
  - destruct (particleStep_other s dt acc i j) as (H1 & H2 & H3);
      [apply Hl; now left|].
    destruct (IH (fun i' Hi' => Hl i' (or_intror Hi'))
                (particleStep s dt acc i)) as (H4 & H5 & H6).
    repeat split; congruence.
Qed.

Lemma loop_no_hand (s : SceneState) (dt : float) (l : list nat) :
  isHandPresent s = false ->
  forall acc : Buffers * nat,
    colors (fst (fold_left (particleStep s dt) l acc)) = colors (fst acc) /\
    snd (fold_left (particleStep s dt) l acc) = snd acc.
Proof.
  intros Hh. induction l as [|i l IH]; intros [b d]; cbn [fold_left].
  - split; reflexivity.
  - rewrite (particleStep_no_hand s dt b d i Hh). cbv zeta.
    match goal with
    | |- context [fold_left _ l ?a] => destruct (IH a) as [H1 H2]
    end.
    split; [exact H1|exact H2].
Qed.

(** The loop, seen from particle [i]: the steps before it leave its cells
    alone, and so do the steps after it. *)
Lemma particleLoop_at (s : SceneState) (dt : float) (n i : nat)
    (acc : Buffers * nat) :
  (i < n)%nat ->
  let mid := particleLoop s dt i acc in
  same_shape (fst acc) (fst mid) /\
  forall k, (k < 3)%nat ->
    same_cell (i * 3 + k) (fst acc) (fst mid) /\
    same_cell (i * 3 + k) (fst (particleStep s dt mid i))
      (fst (particleLoop s dt n acc)).
Proof.
  intros Hi mid. split; [apply loop_shape|]. intros k Hk. split.
  - apply loop_other. intros i' Hi'. apply in_seq in Hi'. lia.
  - unfold particleLoop.
    replace n with (i + (1 + (n - i - 1)))%nat by lia.
    rewrite !seq_app, !fold_left_app. cbn [seq fold_left].
    fold (particleLoop s dt i acc). fold mid.
    apply loop_other. intros i' Hi'. apply in_seq in Hi'. lia.
Qed.

(** *** [animate] *)

Lemma animate_running (now : float) (app : App) (cam : Vector3.t)
    (b : Buffers) :
  camera app = Some cam ->
  arrays (sceneState app) = Some b ->
  let dt := Math_min ((now - lastTime app) / 1000) 0.1 in
  let s := set_time (time (sceneState app) + dt) (sceneState app) in
  let r := particleLoop s dt PARTICLE_COUNT (b, randomCalls app) in
  animate now app =
  mkApp (Some (orbitCamera s now dt cam)) now (set_arrays (Some (fst r)) s)
    (snd r).
Proof.
  intros Hc Ha. unfold animate. rewrite Hc. cbn [arrays set_time].
  rewrite Ha. cbv zeta. now destruct (particleLoop _ _ _ _).
Qed.

End WithHost.

End SceneFacts.

Module EngineTheorems.
Import JS GestureLogic HandParticlesScene Observations FloatFacts SceneFacts.
Import Examples.
Local Open Scope float_scope.

Section WithHost.
Context {host : Host}.

(** One step, seen from its own particle: the velocity stored is 0.92
    times the velocity the forces left, the position moves by it. *)
Lemma particleStep_cells (s : SceneState) (dt : float) (b : Buffers)
    (draws i : nat) :
  (i * 3 + 2 < length (positions b))%nat ->
  (i * 3 + 2 < length (velocities b))%nat ->
  let i3 := (i * 3)%nat in
  let px := get (positions b) i3 in
  let py := get (positions b) (i3 + 1) in
  let pz := get (positions b) (i3 + 2) in
  let wx := get (velocities b) i3 + (get (homePositions b) i3 - px) * 1.5 * dt in
  let wy := get (velocities b) (i3 + 1)
            + (get (homePositions b) (i3 + 1) - py) * 1.5 * dt in
  let wz := get (velocities b) (i3 + 2)
            + (get (homePositions b) (i3 + 2) - pz) * 1.5 * dt in
  let '(ux, uy, uz) :=
    if isHandPresent s then
      let dx := px - Vector3.x (handPosition s) in
      let dy := py - Vector3.y (handPosition s) in
      let dz := pz - Vector3.z (handPosition s) in
      let dist := Math_sqrt (dx * dx + dy * dy + dz * dz) in
      fst (handInteraction s dt i px py pz dx dy dz dist (wx, wy, wz) draws)
    else (wx, wy, wz) in
  let b' := fst (particleStep s dt (b, draws) i) in
  (get (velocities b') i3 = Math_fround (0.92 * ux) /\
   get (positions b') i3 = Math_fround (px + 0.92 * ux * dt)) /\
  (get (velocities b') (i3 + 1) = Math_fround (0.92 * uy) /\
   get (positions b') (i3 + 1) = Math_fround (py + 0.92 * uy * dt)) /\
  (get (velocities b') (i3 + 2) = Math_fround (0.92 * uz) /\
   get (positions b') (i3 + 2) = Math_fround (pz + 0.92 * uz * dt)).
Proof.
  intros Hlp Hlv. cbv zeta. unfold particleStep.
  destruct (isHandPresent s).
  - destruct (handInteraction _ _ _ _ _ _ _ _ _ _ _ _) as [[[ux uy] uz] d1].
    destruct (colorUpdates _ _ _ _ _ _ _) as [c d2].
    cbn [fst positions velocities].
    match goal with
    | |- context [set (set (set (velocities b) ?i3 ?v0) _ ?v1) _ ?v2] =>
        destruct (get_set3 (velocities b) i3 v0 v1 v2 Hlv) as (V0 & V1 & V2)
    end.
    match goal with
    | |- context [set (set (set (positions b) ?i3 ?v0) _ ?v1) _ ?v2] =>
        destruct (get_set3 (positions b) i3 v0 v1 v2 Hlp) as (P0 & P1 & P2)
    end.
    rewrite V0, V1, V2, P0, P1, P2, !(mul_comm 0.92). repeat split.
  - cbn [fst positions velocities].
    match goal with
    | |- context [set (set (set (velocities b) ?i3 ?v0) _ ?v1) _ ?v2] =>
        destruct (get_set3 (velocities b) i3 v0 v1 v2 Hlv) as (V0 & V1 & V2)
    end.
    match goal with
    | |- context [set (set (set (positions b) ?i3 ?v0) _ ?v1) _ ?v2] =>
        destruct (get_set3 (positions b) i3 v0 v1 v2 Hlp) as (P0 & P1 & P2)
    end.
    rewrite V0, V1, V2, P0, P1, P2, !(mul_comm 0.92). repeat split.
Qed.

(** C2. One tick. The elapsed time used is at most 0.1 s.  With no hand
    present every component of every particle gets the velocity
    v' = 0.92 * (v + (h - p) * 1.5 * dt) and the position p' = p + v' * dt
    (each rounded to binary32 by the store into its [Float32Array]); the
    colors are unchanged and no random number is drawn.  On every tick,
    hand or not, the friction is applied: the velocity stored is 0.92
    times the velocity the home force, and with a hand the gesture force
    after it, have left, and the position moves by that velocity times
    dt. *)
Theorem animate_no_hand (now : float) (app : App) (cam : Vector3.t)
    (b : Buffers) :
  camera app = Some cam ->
  arrays (sceneState app) = Some b ->
  length (positions b) = (PARTICLE_COUNT * 3)%nat ->
  length (velocities b) = (PARTICLE_COUNT * 3)%nat ->
  let elapsed := (now - lastTime app) / 1000 in
  let dt := Math_min elapsed 0.1 in
  let s := set_time (time (sceneState app) + dt) (sceneState app) in
  (is_nan elapsed = false -> (dt <=? 0.1) = true) /\
  exists b' : Buffers,
    arrays (sceneState (animate now app)) = Some b' /\
    (forall i, (i < PARTICLE_COUNT)%nat ->
       let i3 := (i * 3)%nat in
       let px := get (positions b) i3 in
       let py := get (positions b) (i3 + 1) in
       let pz := get (positions b) (i3 + 2) in
       (* the home force *)
       let wx :=
         get (velocities b) i3 + (get (homePositions b) i3 - px) * 1.5 * dt in
       let wy :=
         get (velocities b) (i3 + 1)
         + (get (homePositions b) (i3 + 1) - py) * 1.5 * dt in
       let wz :=
         get (velocities b) (i3 + 2)
         + (get (homePositions b) (i3 + 2) - pz) * 1.5 * dt in
       (* the gesture force, with the random numbers drawn so far *)
       let draws := snd (particleLoop s dt i (b, randomCalls app)) in
       let '(ux, uy, uz) :=
         if isHandPresent s then
           let dx := px - Vector3.x (handPosition s) in
           let dy := py - Vector3.y (handPosition s) in
           let dz := pz - Vector3.z (handPosition s) in
           let dist := Math_sqrt (dx * dx + dy * dy + dz * dz) in
           fst (handInteraction s dt i px py pz dx dy dz dist (wx, wy, wz)
                  draws)
         else (wx, wy, wz) in
       (* the friction and the integration *)
       (get (velocities b') i3 = Math_fround (0.92 * ux) /\
        get (positions b') i3 = Math_fround (px + 0.92 * ux * dt)) /\
       (get (velocities b') (i3 + 1) = Math_fround (0.92 * uy) /\
        get (positions b') (i3 + 1) = Math_fround (py + 0.92 * uy * dt)) /\
       (get (velocities b') (i3 + 2) = Math_fround (0.92 * uz) /\
        get (positions b') (i3 + 2) = Math_fround (pz + 0.92 * uz * dt))) /\
    (isHandPresent (sceneState app) = false ->
     colors b' = colors b /\
     randomCalls (animate now app) = randomCalls app /\
     forall i k, (i < PARTICLE_COUNT)%nat -> (k < 3)%nat ->
       let j := (i * 3 + k)%nat in
       let p := get (positions b) j in
       let v := get (velocities b) j in
       let h := get (homePositions b) j in
       let v' := 0.92 * (v + (h - p) * 1.5 * dt) in
       get (velocities b') j = Math_fround v' /\
       get (positions b') j = Math_fround (p + v' * dt)).
Proof.
  intros Hc Ha Hlp Hlv elapsed dt s. split; [apply Math_min_le|].
  rewrite (animate_running now app cam b Hc Ha). cbv zeta. fold elapsed dt s.
  set (acc := (b, randomCalls app)).
  exists (fst (particleLoop s dt PARTICLE_COUNT acc)).
  cbn [sceneState arrays set_arrays randomCalls].
  split; [reflexivity|]. split.
  - intros i Hi.
    destruct (particleLoop_at s dt PARTICLE_COUNT i acc Hi) as [Hsh Hcell].
    destruct (Hcell 0%nat) as [(P0 & V0 & _) (Q0 & W0 & _)]; [lia|].
    destruct (Hcell 1%nat) as [(P1 & V1 & _) (Q1 & W1 & _)]; [lia|].
    destruct (Hcell 2%nat) as [(P2 & V2 & _) (Q2 & W2 & _)]; [lia|].
    destruct Hsh as (Hhome & Hl1 & Hl2 & _).
    destruct (particleLoop s dt i acc) as [bm dm].
    cbn [fst snd acc] in *. rewrite Nat.add_0_r in P0, V0, Q0, W0.
    rewrite Q0, W0, Q1, W1, Q2, W2.
    pose proof (particleStep_cells s dt bm dm i ltac:(lia) ltac:(lia)) as H.
    cbv zeta in H. rewrite Hhome, P0, P1, P2, V0, V1, V2 in H. exact H.
  - intros Hh.
    assert (Hs : isHandPresent s = false) by exact Hh.
    destruct (loop_no_hand s dt (seq 0 PARTICLE_COUNT) Hs acc) as [Hcol Hd].
    split; [exact Hcol|]. split; [exact Hd|].
    intros i k Hi Hk.
    destruct (particleLoop_at s dt PARTICLE_COUNT i acc Hi) as [Hsh Hcell].
    destruct (Hcell k Hk) as [Hmid (-> & -> & _)].
    destruct Hsh as (Hhome & Hl1 & Hl2 & _).
    destruct Hmid as (Hp & Hv & _).
    destruct (particleLoop s dt i acc) as [bm dm].
    cbn [fst acc] in Hhome, Hl1, Hl2, Hp, Hv.
    rewrite (particleStep_no_hand s dt bm dm i Hs). cbv zeta.
    cbn [fst positions velocities].
    match goal with
    | |- context [set (set (set (velocities bm) ?i3 ?v0) _ ?v1) _ ?v2] =>
        destruct (get_set3 (velocities bm) i3 v0 v1 v2) as (V0 & V1 & V2);
        [lia|]
    end.
    match goal with
    | |- context [set (set (set (positions bm) ?i3 ?v0) _ ?v1) _ ?v2] =>
        destruct (get_set3 (positions bm) i3 v0 v1 v2) as (P0 & P1 & P2);
        [lia|]
    end.
    rewrite <- Hhome, <- Hp, <- Hv.
    rewrite (mul_comm 0.92).
    destruct k as [|[|[|k]]]; [| | |lia].
    + rewrite Nat.add_0_r. rewrite V0, P0. split; reflexivity.
    + rewrite V1, P1. split; reflexivity.
    + rewrite V2, P2. split; reflexivity.
Qed.


(** A repelling gesture at distance zero: the direction is 0/0. *)
Lemma handInteraction_at_hand (s : SceneState) (dt : float) (i : nat)
    (px py pz dx dy dz : float) (sx sy sz : bool)
    (v : float * float * float) (draws : nat) :
  gesture s = CLOSED_FIST \/ gesture s = NONE ->
  Prim2SF dx = S754_zero sx -> Prim2SF dy = S754_zero sy ->
  Prim2SF dz = S754_zero sz ->
  handInteraction s dt i px py pz dx dy dz 0 v draws = (nan, nan, nan, draws).
Proof.
  destruct v as [[vx vy] vz]. unfold handInteraction.
  intros [-> | ->] Hx Hy Hz.
  - change (0 <? 50) with true. cbv iota zeta.
    rewrite (zero_div_zero _ _ Hx), (zero_div_zero _ _ Hy),
      (zero_div_zero _ _ Hz).
    now rewrite !mul_nan_l, !add_nan_r.
  - change (0 <? 15) with true. cbv iota zeta.
    rewrite (zero_div_zero _ _ Hx), (zero_div_zero _ _ Hy),
      (zero_div_zero _ _ Hz).
    now rewrite !mul_nan_l, !add_nan_r.
Qed.

(** One step on a particle whose position equals the hand position, under
    a repelling gesture. *)
Lemma particleStep_at_hand (s : SceneState) (dt : float) (b : Buffers)
    (draws i : nat) :
  isHandPresent s = true ->
  gesture s = CLOSED_FIST \/ gesture s = NONE ->
  is_finite (Vector3.x (handPosition s)) = true ->
  is_finite (Vector3.y (handPosition s)) = true ->
  is_finite (Vector3.z (handPosition s)) = true ->
  (get (positions b) (i * 3) =? Vector3.x (handPosition s)) = true ->
  (get (positions b) (i * 3 + 1) =? Vector3.y (handPosition s)) = true ->
  (get (positions b) (i * 3 + 2) =? Vector3.z (handPosition s)) = true ->
  (i * 3 + 2 < length (positions b))%nat ->
  (i * 3 + 2 < length (velocities b))%nat ->
  forall k, (k < 3)%nat ->
    get (velocities (fst (particleStep s dt (b, draws) i))) (i * 3 + k) = nan /\
    get (positions (fst (particleStep s dt (b, draws) i))) (i * 3 + k) = nan.
Proof.
  intros Hh Hg Fx Fy Fz Px Py Pz Hlp Hlv.
  unfold particleStep. rewrite Hh.
  destruct (sub_eq_zero _ _ Fx Px) as [sx Hx].
  destruct (sub_eq_zero _ _ Fy Py) as [sy Hy].
  destruct (sub_eq_zero _ _ Fz Pz) as [sz Hz].
  rewrite (zero_square _ _ Hx), (zero_square _ _ Hy), (zero_square _ _ Hz).
  change (Math_sqrt (0 + 0 + 0)) with 0.
  rewrite (handInteraction_at_hand s dt i _ _ _ _ _ _ sx sy sz _ _ Hg Hx Hy Hz).
  destruct (colorUpdates _ _ _ _ _ _ _) as [c d].
  cbn [fst positions velocities]. rewrite !mul_nan_l, !add_nan_r.
  destruct (get_set3 (velocities b) (i * 3) nan nan nan Hlv) as (V0 & V1 & V2).
  destruct (get_set3 (positions b) (i * 3) nan nan nan Hlp) as (Q0 & Q1 & Q2).
  intros [|[|[|k]]] Hk; [| | |lia].
  - rewrite Nat.add_0_r, V0, Q0. split; reflexivity.
  - rewrite V1, Q1. split; reflexivity.
  - rewrite V2, Q2. split; reflexivity.
Qed.

(** C7 fails on the code. When the position of a particle equals the
    (finite) hand position while the gesture is CLOSED_FIST, or NONE with
    a hand present, the tick divides zero by the zero distance: all three
    components of the particle's velocity, and of its position, are NaN
    after it. *)
Theorem velocity_nan_at_hand (now : float) (app : App) (cam : Vector3.t)
    (b : Buffers) (i : nat) :
  camera app = Some cam ->
  arrays (sceneState app) = Some b ->
  length (positions b) = (PARTICLE_COUNT * 3)%nat ->
  length (velocities b) = (PARTICLE_COUNT * 3)%nat ->
  (i < PARTICLE_COUNT)%nat ->
  isHandPresent (sceneState app) = true ->
  gesture (sceneState app) = CLOSED_FIST \/ gesture (sceneState app) = NONE ->
  let hand := handPosition (sceneState app) in
  is_finite (Vector3.x hand) = true ->
  is_finite (Vector3.y hand) = true ->
  is_finite (Vector3.z hand) = true ->
  (get (positions b) (i * 3) =? Vector3.x hand) = true ->
  (get (positions b) (i * 3 + 1) =? Vector3.y hand) = true ->
  (get (positions b) (i * 3 + 2) =? Vector3.z hand) = true ->
  exists b' : Buffers,
    arrays (sceneState (animate now app)) = Some b' /\
    forall k, (k < 3)%nat ->
      get (velocities b') (i * 3 + k) = nan /\
      get (positions b') (i * 3 + k) = nan.
Proof.
  intros Hc Ha Hlp Hlv Hi Hh Hg hand Fx Fy Fz Px Py Pz.
  rewrite (animate_running now app cam b Hc Ha). cbv zeta.
  set (dt := Math_min ((now - lastTime app) / 1000) 0.1).
  set (s := set_time (time (sceneState app) + dt) (sceneState app)).
  set (acc := (b, randomCalls app)).
  exists (fst (particleLoop s dt PARTICLE_COUNT acc)).
  cbn [sceneState arrays set_arrays]. split; [reflexivity|].
  destruct (particleLoop_at s dt PARTICLE_COUNT i acc Hi) as [Hsh Hcell].
  destruct (Hcell 0%nat) as [(P0 & _) _]; [lia|].
  destruct (Hcell 1%nat) as [(P1 & _) _]; [lia|].
  destruct (Hcell 2%nat) as [(P2 & _) _]; [lia|].
  destruct Hsh as (_ & Hl1 & Hl2 & _).
  intros k Hk. destruct (Hcell k Hk) as [_ (-> & -> & _)].
  destruct (particleLoop s dt i acc) as [bm dm].
  cbn [fst acc] in Hl1, Hl2, P0, P1, P2. rewrite Nat.add_0_r in P0.
  apply particleStep_at_hand; try assumption;
    rewrite ?P0, ?P1, ?P2, ?Hl1, ?Hl2; try assumption; lia.
Qed.

End WithHost.

Lemma buffers_length (b : Buffers) :
  b = restingBuffers \/ b = displacedBuffers ->
  length (positions b) = (PARTICLE_COUNT * 3)%nat /\
  length (velocities b) = (PARTICLE_COUNT * 3)%nat.
Proof.
  intros [-> | ->]; cbn [restingBuffers displacedBuffers positions velocities];
    unfold set, new_Float32Array;
    rewrite ?length_insert, !length_replicate; split; reflexivity.
Qed.

Lemma animate_no_hand_witness :
  (exists b' : Buffers,
     arrays (sceneState (animate (host := constantHost) 16
                           (runningApp displacedBuffers false NONE)))
     = Some b' /\
     get (velocities b') 0 = (-0.02208000048995018) /\
     get (positions b') 0 = 0.99964672327041626 /\
     colors b' = colors displacedBuffers) /\
  (exists b' : Buffers,
     arrays (sceneState (animate (host := constantHost) 16
                           (runningApp displacedBuffers true PINCH)))
     = Some b' /\
     get (velocities b') 0 = Math_fround (0.92 * (-2.424))).
Proof.
  assert (H0 : (0 < PARTICLE_COUNT)%nat) by (unfold PARTICLE_COUNT; lia).
  split.
  - destruct (animate_no_hand (host := constantHost) 16
                (runningApp displacedBuffers false NONE)
                (Vector3.mk 0 0 CAMERA_Z) displacedBuffers eq_refl eq_refl
                (proj1 (buffers_length _ (or_intror eq_refl)))
                (proj2 (buffers_length _ (or_intror eq_refl))))
      as (_ & b' & Hb & _ & Hnh).
    destruct (Hnh eq_refl) as (Hc & _ & Hcell).
    destruct (Hcell 0%nat 0%nat H0 ltac:(lia)) as [Hv Hp].
    exists b'. split; [exact Hb|].
    split; [etransitivity; [exact Hv|vm_compute; reflexivity]|].
    split; [etransitivity; [exact Hp|vm_compute; reflexivity]|exact Hc].
  - destruct (animate_no_hand (host := constantHost) 16
                (runningApp displacedBuffers true PINCH)
                (Vector3.mk 0 0 CAMERA_Z) displacedBuffers eq_refl eq_refl
                (proj1 (buffers_length _ (or_intror eq_refl)))
                (proj2 (buffers_length _ (or_intror eq_refl))))
      as (_ & b' & Hb & Hall & _).
    exists b'. split; [exact Hb|].
    pose proof (Hall 0%nat H0) as Hcell. cbv zeta in Hcell.
    match type of Hcell with
    | context [if ?c then _ else _] => change c with true in Hcell
    end.
    cbv iota in Hcell.
    match type of Hcell with
    | context [handInteraction ?s ?dt ?i ?px ?py ?pz ?dx ?dy ?dz ?d ?v ?n] =>
        destruct (handInteraction s dt i px py pz dx dy dz d v n)
          as [[[ux uy] uz] d'] eqn:E
    end.
    vm_compute in E. injection E as <- <- <- <-.
    cbn [fst] in Hcell. destruct Hcell as ((Hv & _) & _).
    etransitivity; [exact Hv|]. vm_compute. reflexivity.
Defined.

Lemma velocity_nan_at_hand_witness :
  exists b' : Buffers,
    arrays (sceneState (animate (host := constantHost) 16
                          (runningApp restingBuffers true CLOSED_FIST)))
    = Some b' /\
    get (velocities b') 0 = nan /\ get (positions b') 0 = nan.
Proof.
  assert (H0 : (0 < PARTICLE_COUNT)%nat) by (unfold PARTICLE_COUNT; lia).
  destruct (velocity_nan_at_hand (host := constantHost) 16
              (runningApp restingBuffers true CLOSED_FIST)
              (Vector3.mk 0 0 CAMERA_Z) restingBuffers 0 eq_refl eq_refl
              (proj1 (buffers_length _ (or_introl eq_refl)))
              (proj2 (buffers_length _ (or_introl eq_refl)))
              H0 eq_refl (or_introl eq_refl) eq_refl eq_refl eq_refl
              ltac:(vm_compute; reflexivity) ltac:(vm_compute; reflexivity)
              ltac:(vm_compute; reflexivity))
    as (b' & Hb & Hcell).
  exists b'. split; [exact Hb|]. exact (Hcell 0%nat ltac:(lia)).
Defined.

End EngineTheorems.

(** ** The tick: [predict], [animate], and runs of them *)

Module TickFacts.
Import JS GestureLogic HandParticlesScene Observations.
Import Binary64Facts FloatFacts ClassifierFacts SceneFacts.
Local Open Scope float_scope.

(** Case analysis on whatever the goal matches on. *)
Ltac break_match :=
  match goal with
  | |- context [match ?x with _ => _ end] => destruct x eqn:?
  end.

(** The pose part of a tick leaves the buffers, the clock and the stream
    flag alone. *)
Lemma detectHands_keeps (f : Frame) (s : SceneState) :
  arrays (fst (detectHands f s)) = arrays s /\
  time (fst (detectHands f s)) = time s /\
  isStreamReady (fst (detectHands f s)) = isStreamReady s.
Proof.
  unfold detectHands. repeat break_match; repeat split; reflexivity.
Qed.

(** The pose part of a tick on two open hands. *)
Lemma detectHands_both_open (f : Frame) (s : SceneState) :
  bothOpenHands f ->
  exists s1 s2 : float,
    let r := doublePalm f (mkGesture OPEN_HAND s1) (mkGesture OPEN_HAND s2)
               (doublePalmTimer s) in
    snd (detectHands f s) = snd r /\
    doublePalmTimer (fst (detectHands f s)) = fst r /\
    gesture (fst (detectHands f s)) = OPEN_HAND.
Proof.
  intros (_ & h1 & h2 & s1 & s2 & Hd & H1 & H2).
  exists s1, s2. unfold detectHands. rewrite Hd.
  pose proof (detectGesture_open_complete _ _ H1) as Hl.
  destruct (lookup_lt_is_Some_2 h1 9 ltac:(lia)) as [l9 ->].
  rewrite H1, H2. cbn [type strength].
  destruct (doublePalm _ _ _ _) as [timer fx]. repeat split.
Qed.

Section WithHost.
Context {host : Host}.

Lemma animate_shape (now : float) (app : App) (b : Buffers) :
  arrays (sceneState app) = Some b ->
  exists b' : Buffers,
    arrays (sceneState (animate now app)) = Some b' /\ same_shape b b'.
Proof.
  intros Ha. destruct (camera app) as [cam|] eqn:Hc.
  - rewrite (animate_running now app cam b Hc Ha). cbv zeta.
    eexists. split; [reflexivity|].
    apply (loop_shape _ _ _ (b, randomCalls app)).
  - unfold animate. rewrite Hc. exists b. split; [assumption|].
    apply same_shape_refl.
Qed.

(** [animate] does not touch the interaction state that [predict] wrote. *)
Lemma animate_keeps (now : float) (app : App) :
  let s := sceneState app in
  let s' := sceneState (animate now app) in
  handPosition s' = handPosition s /\ isHandPresent s' = isHandPresent s /\
  gesture s' = gesture s /\ gestureStrength s' = gestureStrength s /\
  doublePalmTimer s' = doublePalmTimer s /\
  isStreamReady s' = isStreamReady s.
Proof.
  unfold animate. destruct (camera app); [|repeat split].
  cbn [arrays set_time]. destruct (arrays (sceneState app)).
  - destruct (particleLoop _ _ _ _). repeat split.
  - repeat split.
Qed.

Lemma predict_shape (f : Frame) (app : App) (b : Buffers) :
  arrays (sceneState app) = Some b ->
  exists b' : Buffers,
    arrays (sceneState (fst (predict f app))) = Some b' /\ same_shape b b'.
Proof.
  intros Ha. unfold predict.
  destruct (videoReady f && isStreamReady (sceneState app)).
  - destruct (detectHands_keeps f (sceneState app)) as (Hk & _).
    destruct (detectHands f (sceneState app)) as [s fx]. cbn [fst] in *.
    apply animate_shape. cbn [sceneState]. congruence.
  - cbn [fst]. apply animate_shape. exact Ha.
Qed.

Lemma run_shape (frames : list Frame) :
  forall (app : App) (b : Buffers),
    arrays (sceneState app) = Some b ->
    exists b' : Buffers,
      arrays (sceneState (fst (run frames app))) = Some b' /\ same_shape b b'.
Proof.
  induction frames as [|f frames IH]; intros app b Ha; cbn [run].
  - exists b. split; [assumption|apply same_shape_refl].
  - destruct (predict_shape f app b Ha) as (b1 & H1 & S1).
    destruct (predict f app) as [app1 fx1]. cbn [fst] in H1.
    destruct (IH app1 b1 H1) as (b2 & H2 & S2).
    destruct (run frames app1) as [app2 fx2]. cbn [fst] in *.
    exists b2. split; [assumption|]. eapply same_shape_trans; eassumption.
Qed.

Lemma initParticle_lengths (acc : Buffers * nat) (i : nat) :
  let b := fst acc in
  let b' := fst (initParticle acc i) in
  length (positions b') = length (positions b) /\
  length (velocities b') = length (velocities b) /\
  length (homePositions b') = length (homePositions b) /\
  length (colors b') = length (colors b).
Proof.
  destruct acc as [b d]. unfold initParticle.
  destruct (Color_gradient _) as [[cr cg] cb].
  cbn [fst positions velocities homePositions colors].
  rewrite !length_set3. repeat split.
Qed.

Lemma initThree_lengths (app : App) :
  camera app = None ->
  exists b0 : Buffers,
    arrays (sceneState (initThree true app)) = Some b0 /\
    length (positions b0) = (PARTICLE_COUNT * 3)%nat /\
    length (velocities b0) = (PARTICLE_COUNT * 3)%nat /\
    length (homePositions b0) = (PARTICLE_COUNT * 3)%nat /\
    length (colors b0) = (PARTICLE_COUNT * 3)%nat.
Proof.
  intros Hc. unfold initThree. cbn [negb]. rewrite Hc.
  set (fresh := new_Float32Array (PARTICLE_COUNT * 3)).
  assert (Hf : length fresh = (PARTICLE_COUNT * 3)%nat)
    by apply length_replicate.
  assert (H : forall l acc,
             let b := fst acc in
             let b' := fst (fold_left initParticle l acc) in
             length (positions b') = length (positions b) /\
             length (velocities b') = length (velocities b) /\
             length (homePositions b') = length (homePositions b) /\
             length (colors b') = length (colors b)).
  { induction l as [|i l IH]; intros acc; cbn [fold_left]; [repeat split|].
    destruct (IH (initParticle acc i)) as (H1 & H2 & H3 & H4).
    destruct (initParticle_lengths acc i) as (G1 & G2 & G3 & G4).
    cbv zeta in *. repeat split; congruence. }
  specialize (H (seq 0 PARTICLE_COUNT)
                (mkBuffers fresh fresh fresh fresh, randomCalls app)).
  destruct (fold_left _ _ _) as [b d]. cbn [fst positions velocities
    homePositions colors] in H.
  exists b. cbn [sceneState arrays set_arrays].
  split; [reflexivity|]. rewrite <- Hf. exact H.
Qed.

Lemma initParticle_other (acc : Buffers * nat) (i j : nat) :
  (j < i * 3 \/ i * 3 + 2 < j)%nat ->
  get (positions (fst (initParticle acc i))) j = get (positions (fst acc)) j.
Proof.
  intros Hj. destruct acc as [b d]. unfold initParticle.
  destruct (Color_gradient _) as [[cr cg] cb]. cbn [fst positions].
  now apply get_set3_other.
Qed.

Lemma initLoop_other (j : nat) (l : list nat) :
  (forall i, In i l -> j < i * 3 \/ i * 3 + 2 < j)%nat ->
  forall acc : Buffers * nat,
    get (positions (fst (fold_left initParticle l acc))) j
    = get (positions (fst acc)) j.
Proof.
  induction l as [|i l IH]; intros Hl acc; cbn [fold_left]; [reflexivity|].
  rewrite IH by (intros i' Hi'; apply Hl; now right).
  apply initParticle_other. apply Hl. now left.
Qed.

(** Where the seeding loop puts the first particle. *)
Lemma initLoop_first_particle (b : Buffers) (d : nat) (l : list nat) :
  (2 < length (positions b))%nat ->
  (forall i, In i l -> 1 <= i)%nat ->
  let r := BOUNDS * Math_cbrt (Math_random d) in
  let theta := Math_random (d + 1) * 2 * Math_PI in
  let phi := Math_acos (2 * Math_random (d + 2) - 1) in
  let b0 := fst (fold_left initParticle (0%nat :: l) (b, d)) in
  get (positions b0) 0 = Math_fround (r * Math_sin phi * Math_cos theta) /\
  get (positions b0) 1 = Math_fround (r * Math_sin phi * Math_sin theta) /\
  get (positions b0) 2 = Math_fround (r * Math_cos phi).
Proof.
  intros Hb Hl r theta phi b0. unfold b0. cbn [fold_left].
  rewrite !initLoop_other by (intros i Hi; apply Hl in Hi; lia).
  unfold initParticle.
  destruct (Color_gradient _) as [[cr cg] cb]. cbn [fst positions].
  fold r theta phi.
  match goal with
  | |- context [set (set (set _ ?i3 ?v0) _ ?v1) _ ?v2] =>
      destruct (get_set3 (positions b) i3 v0 v1 v2 Hb) as (G0 & G1 & G2)
  end.
  cbn [Nat.mul Nat.add] in G0, G1, G2 |- *.
  rewrite G0, G1, G2. repeat split.
Qed.

Lemma seq_first (n : nat) :
  (0 < n)%nat -> seq 0 n = 0%nat :: seq 1 (n - 1).
Proof.
  intros Hn. destruct n as [|n]; [lia|]. cbn [seq]. do 2 f_equal. lia.
Qed.

(** Where [initThree] puts the first particle. *)
Lemma initThree_first_particle (app : App) :
  camera app = None ->
  let d := randomCalls app in
  let r := BOUNDS * Math_cbrt (Math_random d) in
  let theta := Math_random (d + 1) * 2 * Math_PI in
  let phi := Math_acos (2 * Math_random (d + 2) - 1) in
  exists (b0 : Buffers) (d' : nat),
    initThree true app
    = mkApp (Some (Vector3.mk 0 0 CAMERA_Z)) (lastTime app)
        (set_arrays (Some b0) (sceneState app)) d' /\
    get (positions b0) 0 = Math_fround (r * Math_sin phi * Math_cos theta) /\
    get (positions b0) 1 = Math_fround (r * Math_sin phi * Math_sin theta) /\
    get (positions b0) 2 = Math_fround (r * Math_cos phi).
Proof.
  intros Hc d r theta phi. unfold initThree. cbn [negb]. rewrite Hc.
  rewrite seq_first by (unfold PARTICLE_COUNT; lia).
  match goal with
  | |- context [fold_left initParticle (_ :: ?l) (?b, _)] =>
      assert (Hb : (2 < length (positions b))%nat)
        by (cbn [positions]; unfold new_Float32Array;
            rewrite length_replicate; unfold PARTICLE_COUNT; lia);
      assert (Hl : (forall i, In i l -> 1 <= i)%nat)
        by (intros i Hi; apply in_seq in Hi; lia);
      pose proof (initLoop_first_particle b d l Hb Hl) as H
  end.
  cbv zeta in H. fold d r theta phi in H. fold d.
  destruct (fold_left initParticle _ _) as [b0 d'].
  exists b0, d'. split; [reflexivity | exact H].
Qed.

(** The pose part of a tick on one complete hand. *)
Lemma detectHands_one_hand (f : Frame) (s : SceneState)
    (hand : list HandLandmark.t) (l9 : HandLandmark.t) (g : Gesture) :
  detectForVideo f = Normal [hand] ->
  hand !! 9%nat = Some l9 ->
  detectGesture hand = Normal g ->
  let targetPos :=
    Vector3.mk ((0.5 - HandLandmark.x l9) * BOUNDS * 2.5)
      ((0.5 - HandLandmark.y l9) * BOUNDS * 2.5)
      (- HandLandmark.z l9 * BOUNDS * 2) in
  detectHands f s =
  (set_gestureStrength (strength g)
     (set_gesture (type g)
        (set_handPosition (Vector3.lerp (handPosition s) targetPos 0.2)
           (set_isHandPresent true s))), []).
Proof.
  intros Hd H9 Hg. unfold detectHands. rewrite Hd, H9, Hg. reflexivity.
Qed.

Lemma predict_both_open (f : Frame) (app : App) :
  bothOpenHands f ->
  isStreamReady (sceneState app) = true ->
  exists s1 s2 : float,
    let r := doublePalm f (mkGesture OPEN_HAND s1) (mkGesture OPEN_HAND s2)
               (doublePalmTimer (sceneState app)) in
    snd (predict f app) = snd r ++ [onGestureChange OPEN_HAND] /\
    doublePalmTimer (sceneState (fst (predict f app))) = fst r /\
    isStreamReady (sceneState (fst (predict f app))) = true.
Proof.
  intros Hb Hs.
  destruct (detectHands_both_open f (sceneState app) Hb)
    as (s1 & s2 & Hfx & Ht & Hg).
  destruct (detectHands_keeps f (sceneState app)) as (_ & _ & Hr).
  exists s1, s2. cbv zeta in *. unfold predict.
  destruct Hb as [-> _]. rewrite Hs. cbn [andb].
  destruct (detectHands f (sceneState app)) as [s' fx]. cbn [fst snd] in *.
  match goal with
  | |- context [animate ?n ?a] =>
      destruct (animate_keeps n a) as (_ & _ & _ & _ & Hk1 & Hk2)
  end.
  cbn [sceneState] in Hk1, Hk2. rewrite Hk1, Hk2.
  repeat split; congruence.
Qed.

Lemma particleStep_timer (timer : float) (s : SceneState) (dt : float)
    (acc : Buffers * nat) (i : nat) :
  particleStep (set_doublePalmTimer timer s) dt acc i = particleStep s dt acc i.
Proof. reflexivity. Qed.

Lemma particleLoop_timer (timer : float) (s : SceneState) (dt : float)
    (n : nat) (acc : Buffers * nat) :
  particleLoop (set_doublePalmTimer timer s) dt n acc = particleLoop s dt n acc.
Proof.
  unfold particleLoop. generalize (seq 0 n) as l. intros l. revert acc.
  induction l as [|i l IH]; intros acc; cbn [fold_left]; [reflexivity|].
  now rewrite particleStep_timer, IH.
Qed.

(** The double-palm timer passes through [animate] untouched and unread. *)
Lemma animate_withTimer (timer now : float) (app : App) :
  animate now (withTimer timer app) = withTimer timer (animate now app).
Proof.
  destruct app as [[cam|] lt s rc]; [|reflexivity].
  unfold animate, withTimer. cbn [camera lastTime sceneState randomCalls].
  cbn [arrays set_time set_doublePalmTimer time].
  destruct (arrays s) as [b|]; [|reflexivity].
  change (set_time ?v (set_doublePalmTimer timer ?s))
    with (set_doublePalmTimer timer (set_time v s)).
  rewrite particleLoop_timer.
  destruct (particleLoop _ _ _ _) as [b' d]. reflexivity.
Qed.

(** The pose part of a tick that shows two hands, the first with a joint
    9: the first hand gives the hand position, the gesture and the
    strength, the pair of classifications goes to the double-palm check. *)
Lemma detectHands_two_hands (f : Frame) (s : SceneState)
    (first second : list HandLandmark.t) (l9 : HandLandmark.t)
    (g g2 : Gesture) :
  detectForVideo f = Normal [first; second] ->
  first !! 9%nat = Some l9 ->
  detectGesture first = Normal g ->
  detectGesture second = Normal g2 ->
  let targetPos :=
    Vector3.mk ((0.5 - HandLandmark.x l9) * BOUNDS * 2.5)
      ((0.5 - HandLandmark.y l9) * BOUNDS * 2.5)
      (- HandLandmark.z l9 * BOUNDS * 2) in
  let s1 :=
    set_gestureStrength (strength g)
      (set_gesture (type g)
         (set_handPosition (Vector3.lerp (handPosition s) targetPos 0.2)
            (set_isHandPresent true s))) in
  let r := doublePalm f g g2 (doublePalmTimer s) in
  detectHands f s = (set_doublePalmTimer (fst r) s1, snd r).
Proof.
  intros Hd H9 Hg Hg2. cbv zeta. unfold detectHands.
  rewrite Hd, H9, Hg, Hg2.
  cbn [doublePalmTimer set_gestureStrength set_gesture set_handPosition
         set_isHandPresent].
  now destruct (doublePalm f g g2 (doublePalmTimer s)).
Qed.

Lemma doublePalm_reports_nothing (f : Frame) (g1 g2 : Gesture)
    (timer : float) :
  reported (snd (doublePalm f g1 g2 timer)) = [].
Proof. unfold doublePalm. repeat break_match; reflexivity. Qed.

End WithHost.

End TickFacts.

Module TickTheorems.
Import JS GestureLogic HandParticlesScene Observations.
Import FloatFacts ClassifierFacts SceneFacts TickFacts Examples.
Local Open Scope float_scope.

Section WithHost.
Context {host : Host}.

(** C6. Particle-buffer conservation. [initThree] builds four arrays of
    3 * 25,000 numbers; after any sequence of ticks, whatever the frames
    bring, the arrays still have that length and the home positions are
    the ones [initThree] wrote. *)
Theorem home_positions_conserved (app : App) (frames : list Frame) :
  camera app = None ->
  Z.of_nat PARTICLE_COUNT = 25000%Z /\
  exists b0 : Buffers,
    arrays (sceneState (initThree true app)) = Some b0 /\
    length (positions b0) = (PARTICLE_COUNT * 3)%nat /\
    length (homePositions b0) = (PARTICLE_COUNT * 3)%nat /\
    exists b : Buffers,
      arrays (sceneState (fst (run frames (initThree true app)))) = Some b /\
      homePositions b = homePositions b0 /\
      length (positions b) = (PARTICLE_COUNT * 3)%nat /\
      length (velocities b) = (PARTICLE_COUNT * 3)%nat /\
      length (homePositions b) = (PARTICLE_COUNT * 3)%nat /\
      length (colors b) = (PARTICLE_COUNT * 3)%nat.
Proof.
  intros Hc. split; [reflexivity|].
  destruct (initThree_lengths app Hc) as (b0 & H0 & L1 & L2 & L3 & L4).
  exists b0. repeat (split; [assumption|]).
  destruct (run_shape frames _ _ H0) as (b & Hb & Hh & S1 & S2 & S3).
  exists b. repeat split; congruence.
Qed.

(** C3 fails on the code. On a tick where both hands classify as
    OPEN_HAND, the timer is set and now - timer >= 1000 ms, the trigger
    does not fire, but the window is not restarted either: the timer keeps
    its old value, for the branch that starts the window tests
    [doublePalmTimer === 0], and a set, stale timer passes neither test. *)
Theorem stale_window_left_alone (f : Frame) (app : App) :
  bothOpenHands f ->
  isStreamReady (sceneState app) = true ->
  let timer := doublePalmTimer (sceneState app) in
  (timer =? 0) = false ->
  (1000 <=? performance_now f - timer) = true ->
  triggers (snd (predict f app)) = 0%nat /\
  doublePalmTimer (sceneState (fst (predict f app))) = timer.
Proof.
  intros Hb Hs timer Hset Hstale.
  destruct (predict_both_open f app Hb Hs) as (s1 & s2 & Hfx & Ht & _).
  cbv zeta in Hfx, Ht. rewrite Hfx, Ht.
  unfold doublePalm. cbn [type GestureType_eqb andb]. fold timer.
  rewrite (leb_not_gt _ _ Hstale), Hset. cbn [andb fst snd List.app].
  split; reflexivity.
Qed.

(** What the stale window of C3 leads to: the timer is written by no later
    tick that shows two open hands a second or more after it, so palms
    that are held open past the window never fire the trigger again. *)
Lemma stale_window_stays_stale (frames : list Frame) (app : App) :
  isStreamReady (sceneState app) = true ->
  let timer := doublePalmTimer (sceneState app) in
  (timer =? 0) = false ->
  Forall (fun f => bothOpenHands f /\
                   (1000 <=? performance_now f - timer) = true) frames ->
  triggers (snd (run frames app)) = 0%nat /\
  doublePalmTimer (sceneState (fst (run frames app))) = timer.
Proof.
  revert app. induction frames as [|f frames IH]; intros app Hs timer Hset Hall.
  - split; reflexivity.
  - apply Forall_cons in Hall as [[Hb Hstale] Hall].
    destruct (predict_both_open f app Hb Hs) as (s1 & s2 & Hfx & Ht & Hs1).
    cbv zeta in Hfx, Ht. unfold doublePalm in Hfx, Ht.
    cbn [type GestureType_eqb andb] in Hfx, Ht. fold timer in Hfx, Ht.
    rewrite (leb_not_gt _ _ Hstale), Hset in Hfx, Ht.
    cbn [andb fst snd List.app] in Hfx, Ht.
    cbn [run]. destruct (predict f app) as [app1 fx1]. cbn [fst snd] in *.
    destruct (IH app1 Hs1) as [IH1 IH2]; [now rewrite Ht|now rewrite Ht|].
    destruct (run frames app1) as [app2 fx2]. cbn [fst snd] in *.
    subst fx1. split; [exact IH1|now rewrite IH2].
Qed.

(** The branch beside it does expire a stale window: on a tick that shows
    two hands not both open, more than a second after the timer, the
    timer is unset. *)
Lemma stale_window_expires_otherwise (f : Frame) (app : App)
    (first second : list HandLandmark.t) (l9 : HandLandmark.t)
    (g g2 : Gesture) :
  videoReady f = true -> isStreamReady (sceneState app) = true ->
  detectForVideo f = Normal [first; second] ->
  first !! 9%nat = Some l9 ->
  detectGesture first = Normal g ->
  detectGesture second = Normal g2 ->
  type g <> OPEN_HAND \/ type g2 <> OPEN_HAND ->
  (performance_now f - doublePalmTimer (sceneState app) >? 1000) = true ->
  triggers (snd (predict f app)) = 0%nat /\
  doublePalmTimer (sceneState (fst (predict f app))) = 0.
Proof.
  intros Hv Hs Hd H9 Hg Hg2 Hno Hold.
  pose proof (detectHands_two_hands f (sceneState app) first second l9 g g2
                Hd H9 Hg Hg2) as Hdh. cbv zeta in Hdh.
  unfold predict. rewrite Hv, Hs. cbn [andb]. rewrite Hdh. clear Hdh.
  assert (Hr : doublePalm f g g2 (doublePalmTimer (sceneState app)) = (0, [])).
  { unfold doublePalm.
    assert (Hb : GestureType_eqb (type g) OPEN_HAND
                 && GestureType_eqb (type g2) OPEN_HAND = false).
    { destruct Hno as [Hno|Hno].
      - destruct (type g); try reflexivity. now contradiction Hno.
      - destruct (type g2); try (now rewrite andb_false_r).
        now contradiction Hno. }
    rewrite Hb, Hold. reflexivity. }
  rewrite Hr. cbn [fst snd List.app]. split; [reflexivity|].
  match goal with
  | |- context [animate ?n ?a] =>
      destruct (animate_keeps n a) as (_ & _ & _ & _ & K & _)
  end.
  cbv zeta in K. rewrite K. reflexivity.
Qed.

(** C8. Double-palm debounce, the times of the scenario counted from the
    first tick.  From an unset timer, a tick at t0 with both hands
    OPEN_HAND only starts the window.  [performance.now()] is positive by
    the time [predict] runs (t0 > 0): a second such tick at t1 with
    t1 - t0 < 1000 ms then fires the trigger exactly once and unsets the
    timer, and one with t1 - t0 >= 1000 ms fires nothing.  (A timestamp of
    exactly 0 is the unset value of the timer, so a first tick at it would
    start no window.) *)
Theorem double_palm_debounce (f0 f1 : Frame) (app : App) :
  bothOpenHands f0 -> bothOpenHands f1 ->
  isStreamReady (sceneState app) = true ->
  doublePalmTimer (sceneState app) = 0 ->
  let t0 := performance_now f0 in
  let t1 := performance_now f1 in
  let app1 := fst (predict f0 app) in
  let app2 := fst (predict f1 app1) in
  triggers (snd (predict f0 app)) = 0%nat /\
  doublePalmTimer (sceneState app1) = t0 /\
  ((t0 >? 0) = true -> (t1 - t0 <? 1000) = true ->
   triggers (snd (predict f1 app1)) = 1%nat /\
   triggers (snd (run [f0; f1] app)) = 1%nat /\
   doublePalmTimer (sceneState app2) = 0) /\
  ((t0 >? 0) = true -> (1000 <=? t1 - t0) = true ->
   triggers (snd (run [f0; f1] app)) = 0%nat) /\
  (t0 = 0 ->
   triggers (snd (run [f0; f1] app)) = 0%nat /\
   doublePalmTimer (sceneState app2) = t1).
Proof.
  intros Hb0 Hb1 Hs Hu t0 t1 app1 app2.
  destruct (predict_both_open f0 app Hb0 Hs) as (s1 & s2 & Hfx0 & Ht0 & Hs1).
  cbv zeta in Hfx0, Ht0. rewrite Hu in Hfx0, Ht0.
  unfold doublePalm in Hfx0, Ht0.
  cbn [type GestureType_eqb andb] in Hfx0, Ht0.
  change (0 >? 0) with false in Hfx0, Ht0.
  change (0 =? 0) with true in Hfx0, Ht0.
  rewrite andb_false_r in Hfx0, Ht0. cbn [fst snd List.app] in Hfx0, Ht0.
  fold app1 in Ht0, Hs1. fold t0 in Ht0.
  destruct (predict_both_open f1 app1 Hb1 Hs1) as (s3 & s4 & Hfx1 & Ht1 & _).
  cbv zeta in Hfx1, Ht1. rewrite Ht0 in Hfx1, Ht1.
  unfold doublePalm in Hfx1, Ht1.
  cbn [type GestureType_eqb andb] in Hfx1, Ht1.
  fold t1 in Hfx1, Ht1. fold app2 in Ht1.
  assert (Hrun : snd (run [f0; f1] app)
                 = snd (predict f0 app) ++ snd (predict f1 app1)).
  { cbn [run]. unfold app1.
    destruct (predict f0 app) as [a1 fx1]. cbn [fst snd].
    destruct (predict f1 a1) as [a2 fx2]. cbn [fst snd].
    now rewrite app_nil_r. }
  rewrite Hrun, Hfx0. split; [reflexivity|]. split; [exact Ht0|].
  split; [|split].
  - intros Hpos Hlt. rewrite Hpos, Hlt in Hfx1, Ht1. rewrite Hfx1.
    cbn [andb fst snd List.app] in Ht1 |- *.
    repeat split; try assumption; now destruct (fullscreenElement f1).
  - intros Hpos Hge.
    rewrite (leb_not_gt _ _ Hge), (positive_not_zero _ Hpos) in Hfx1.
    rewrite Hfx1. reflexivity.
  - intros H0. rewrite H0 in Hfx1, Ht1.
    change (0 >? 0) with false in Hfx1, Ht1.
    change (0 =? 0) with true in Hfx1, Ht1.
    rewrite andb_false_r in Hfx1, Ht1. rewrite Hfx1.
    split; [reflexivity|exact Ht1].
Qed.

(** C10. With two hands detected, the interaction state is computed from
    the first hand: on a tick that runs its pose part, the hand is present,
    the hand position moves a fifth of the way to where joint 9 of the
    first hand points, the gesture and the strength are the classification
    of the first hand, that gesture is the one reported, and the particle
    simulation of the tick runs on that state.  The second hand goes into
    the double-palm check only: apart from the double-palm timer, the
    state after the tick (particle buffers, camera, hand position,
    gesture, strength, clocks) and the gestures reported are those of the
    same tick with the first hand alone, and so the same for every second
    hand. *)
Theorem second_hand_only_double_palm (f : Frame) (app : App)
    (first second : list HandLandmark.t) :
  detectForVideo f = Normal [first; second] ->
  let alone := predict (withDetection f (Normal [first])) app in
  (forall l9 : HandLandmark.t,
     videoReady f = true -> isStreamReady (sceneState app) = true ->
     first !! 9%nat = Some l9 ->
     let s := sceneState app in
     let s' := sceneState (fst (predict f app)) in
     let targetPos :=
       Vector3.mk ((0.5 - HandLandmark.x l9) * BOUNDS * 2.5)
         ((0.5 - HandLandmark.y l9) * BOUNDS * 2.5)
         (- HandLandmark.z l9 * BOUNDS * 2) in
     exists g g2 : Gesture,
       detectGesture first = Normal g /\
       detectGesture second = Normal g2 /\
       isHandPresent s' = true /\
       handPosition s' = Vector3.lerp (handPosition s) targetPos 0.2 /\
       gesture s' = type g /\
       gestureStrength s' = strength g /\
       reported (snd (predict f app)) = [type g] /\
       (let s1 :=
          set_gestureStrength (strength g)
            (set_gesture (type g)
               (set_handPosition (Vector3.lerp (handPosition s) targetPos 0.2)
                  (set_isHandPresent true s))) in
        withTimer 0 (fst (predict f app))
        = withTimer 0
            (animate (animate_now f)
               (mkApp (camera app) (lastTime app) s1 (randomCalls app)))) /\
       doublePalmTimer s' = fst (doublePalm f g g2 (doublePalmTimer s)) /\
       snd (predict f app)
       = snd (doublePalm f g g2 (doublePalmTimer s))
         ++ [onGestureChange (type g)]) /\
  (withTimer 0 (fst (predict f app)) = withTimer 0 (fst alone) /\
   reported (snd (predict f app)) = reported (snd alone)) /\
  forall other : list HandLandmark.t,
    let others := predict (withDetection f (Normal [first; other])) app in
    withTimer 0 (fst others) = withTimer 0 (fst (predict f app)) /\
    reported (snd others) = reported (snd (predict f app)).
Proof.
  intros Hd alone.
  assert (Hone : forall (g : Frame) (h2 : list HandLandmark.t),
            videoReady g = videoReady f -> animate_now g = animate_now f ->
            detectForVideo g = Normal [first; h2] ->
            withTimer 0 (fst (predict g app)) = withTimer 0 (fst alone) /\
            reported (snd (predict g app)) = reported (snd alone)).
  { intros g h2 Hv Hn Hg. unfold alone, predict.
    cbn [withDetection videoReady animate_now]. rewrite Hv, Hn.
    destruct (videoReady f && isStreamReady (sceneState app));
      [|split; reflexivity].
    unfold detectHands. rewrite Hg. cbn [withDetection detectForVideo].
    destruct (first !! 9%nat) as [l9|]; [|split; reflexivity].
    destruct (detectGesture first) as [g1|]; [|split; reflexivity].
    destruct (detectGesture_returns h2) as [g2 ->].
    match goal with
    | |- context [doublePalm ?a ?b ?c ?d] =>
        assert (Hfx : reported (snd (doublePalm a b c d)) = [])
          by apply doublePalm_reports_nothing;
        destruct (doublePalm a b c d) as [timer fx]
    end.
    cbn [fst snd] in *. split.
    - match goal with
      | |- withTimer 0 (animate ?n (mkApp ?c ?l (set_doublePalmTimer ?t ?s) ?r))
           = _ =>
          change (mkApp c l (set_doublePalmTimer t s) r)
            with (withTimer t (mkApp c l s r))
      end.
      rewrite animate_withTimer. reflexivity.
    - unfold reported in *. rewrite flat_map_app, Hfx. reflexivity. }
  split; [|split].
  - intros l9 Hv Hs H9 s s' targetPos.
    destruct (detectGesture_returns first) as [g Hg].
    destruct (detectGesture_returns second) as [g2 Hg2].
    exists g, g2. split; [exact Hg|]. split; [exact Hg2|].
    pose proof (detectHands_two_hands f s first second l9 g g2 Hd H9 Hg Hg2)
      as Hdh. cbv zeta in Hdh. fold targetPos in Hdh.
    set (s1 := set_gestureStrength (strength g)
                 (set_gesture (type g)
                    (set_handPosition
                       (Vector3.lerp (handPosition s) targetPos 0.2)
                       (set_isHandPresent true s)))) in *.
    set (r := doublePalm f g g2 (doublePalmTimer s)) in *.
    assert (Hp : predict f app
                 = (animate (animate_now f)
                      (withTimer (fst r)
                         (mkApp (camera app) (lastTime app) s1
                            (randomCalls app))),
                    snd r ++ [onGestureChange (type g)])).
    { unfold predict. rewrite Hv, Hs. cbn [andb]. fold s. rewrite Hdh.
      reflexivity. }
    unfold s'. rewrite Hp. cbn [fst snd]. rewrite animate_withTimer.
    set (a := animate (animate_now f)
                (mkApp (camera app) (lastTime app) s1 (randomCalls app))).
    destruct (animate_keeps (animate_now f)
                (mkApp (camera app) (lastTime app) s1 (randomCalls app)))
      as (K1 & K2 & K3 & K4 & _). cbv zeta in K1, K2, K3, K4.
    fold a in K1, K2, K3, K4. cbn [sceneState] in K1, K2, K3, K4.
    cbn [withTimer sceneState set_doublePalmTimer handPosition isHandPresent
           gesture gestureStrength doublePalmTimer].
    rewrite K1, K2, K3, K4.
    repeat split.
    unfold reported. rewrite flat_map_app.
    fold (reported (snd r)). unfold r.
    rewrite doublePalm_reports_nothing. reflexivity.
  - exact (Hone f second eq_refl eq_refl Hd).
  - intros other others.
    destruct (Hone f second eq_refl eq_refl Hd) as [E1 E2].
    destruct (Hone (withDetection f (Normal [first; other])) other
                eq_refl eq_refl eq_refl) as [E3 E4].
    fold others in E3, E4. split; congruence.
Qed.

(** The state in which C7 fails is one tick away from [initThree]: when
    the first [Math.random()] of the seeding is 0 the first particle lies
    at the origin, and a first frame with a fist whose joint 9 is in the
    middle of the picture leaves the hand at the origin too. *)
Lemma nan_velocity_reachable (app : App) (f : Frame)
    (hand : list HandLandmark.t) (strength : float) :
  camera app = None ->
  isStreamReady (sceneState app) = true ->
  handPosition (sceneState app) = Vector3.mk 0 0 0 ->
  let d := randomCalls app in
  let theta := Math_random (d + 1) * 2 * Math_PI in
  let phi := Math_acos (2 * Math_random (d + 2) - 1) in
  Math_random d = 0 -> Math_cbrt 0 = 0 ->
  is_finite (Math_sin phi) = true -> is_finite (Math_cos phi) = true ->
  is_finite (Math_sin theta) = true -> is_finite (Math_cos theta) = true ->
  videoReady f = true ->
  detectForVideo f = Normal [hand] ->
  hand !! 9%nat = Some (HandLandmark.mk 0.5 0.5 0) ->
  detectGesture hand = Normal (mkGesture CLOSED_FIST strength) ->
  exists b' : Buffers,
    arrays (sceneState (fst (predict f (initThree true app)))) = Some b' /\
    forall k, (k < 3)%nat -> get (velocities b') k = nan.
Proof.
  intros Hc Hs Hp d theta phi Hr Hcb Fsp Fcp Fst Fct Hv Hd H9 Hg.
  destruct (initThree_lengths app Hc) as (b1 & Hb1 & L1 & L2 & _).
  destruct (initThree_first_particle app Hc) as (b0 & d' & Hi & X & Y & Z).
  cbv zeta in X, Y, Z. fold d theta phi in X, Y, Z.
  rewrite Hi in Hb1. cbn [sceneState arrays set_arrays] in Hb1.
  injection Hb1 as <-. rewrite Hi. clear Hi.
  rewrite Hr, Hcb in X, Y, Z.
  change (BOUNDS * 0) with 0 in X, Y, Z.
  assert (Z0 : Prim2SF 0 = S754_zero false) by reflexivity.
  destruct (zero_mul_finite 0 _ _ Z0 Fsp) as [s1 Hs1].
  destruct (zero_mul_finite _ _ _ Hs1 Fct) as [sx Hx].
  destruct (zero_mul_finite _ _ _ Hs1 Fst) as [sy Hy].
  destruct (zero_mul_finite 0 _ _ Z0 Fcp) as [sz Hz].
  rewrite (Math_fround_zero _ _ Hx) in X.
  rewrite (Math_fround_zero _ _ Hy) in Y.
  rewrite (Math_fround_zero _ _ Hz) in Z.
  unfold predict. cbn [sceneState isStreamReady set_arrays camera lastTime
                         randomCalls].
  rewrite Hv, Hs. cbn [andb].
  rewrite (detectHands_one_hand f _ hand _ _ Hd H9 Hg). cbv zeta.
  cbn [handPosition set_isHandPresent set_arrays HandLandmark.x
         HandLandmark.y HandLandmark.z fst]. rewrite Hp.
  match goal with
  | |- context [set_handPosition ?v _] =>
      change v with (Vector3.mk 0 0 0)
  end.
  match goal with
  | |- context [animate ?n ?a] =>
      rewrite (animate_running n a (Vector3.mk 0 0 CAMERA_Z) b0
                 eq_refl eq_refl)
  end.
  cbv zeta. cbn [sceneState arrays set_arrays randomCalls lastTime time
                   set_time set_gestureStrength set_gesture set_handPosition
                   set_isHandPresent handPosition isHandPresent gesture
                   gestureStrength doublePalmTimer isStreamReady type
                   GestureLogic.strength].
  eexists. split; [reflexivity|]. intros k Hk.
  match goal with
  | |- context [particleLoop ?s ?dt PARTICLE_COUNT ?acc] =>
      destruct (particleLoop_at s dt PARTICLE_COUNT 0 acc
                  ltac:(unfold PARTICLE_COUNT; lia)) as [_ Hcell];
      destruct (Hcell k Hk) as [_ (_ & Hvel & _)];
      cbn [Nat.mul Nat.add] in Hvel; rewrite Hvel; clear Hvel Hcell;
      change (particleLoop s dt 0 acc) with acc;
      apply (EngineTheorems.particleStep_at_hand s dt b0 d' 0 eq_refl (or_introl eq_refl)
               eq_refl eq_refl eq_refl)
  end.
  - cbn [Nat.mul Nat.add]. rewrite X. exact (zero_eqb _ _ Hx).
  - cbn [Nat.mul Nat.add]. rewrite Y. exact (zero_eqb _ _ Hy).
  - cbn [Nat.mul Nat.add]. rewrite Z. exact (zero_eqb _ _ Hz).
  - rewrite L1. unfold PARTICLE_COUNT. lia.
  - rewrite L2. unfold PARTICLE_COUNT. lia.
  - exact Hk.
Qed.

End WithHost.

(** The same on a concrete run: a host whose [Math.random()] returns 0,
    the scene built from the idle component, and a first frame at 16 ms
    showing [centredFist]. *)
Example nan_velocity_reached :
  exists b' : Buffers,
    arrays (sceneState (fst (predict (host := constantHost)
                               (frameAt 16 [centredFist])
                               (initThree (host := constantHost) true
                                  (idleApp 0)))))
    = Some b' /\
    forall k, (k < 3)%nat -> get (velocities b') k = nan.
Proof.
  apply (nan_velocity_reachable (host := constantHost) (idleApp 0)
           (frameAt 16 [centredFist]) centredFist 1);
    solve [reflexivity | vm_compute; reflexivity].
Qed.

Lemma frameAt_both_open (now : float) :
  bothOpenHands (frameAt now [openHand; openHand]).
Proof.
  split; [reflexivity|]. exists openHand, openHand, 1, 1.
  repeat split; vm_compute; reflexivity.
Qed.

Lemma home_positions_conserved_witness :
  exists b : Buffers,
    arrays (sceneState
              (fst (run (host := constantHost)
                      [frameAt 16 [openHand]; frameAt 32 []]
                      (initThree (host := constantHost) true (idleApp 0)))))
    = Some b /\
    length (homePositions b) = (PARTICLE_COUNT * 3)%nat.
Proof.
  destruct (home_positions_conserved (host := constantHost) (idleApp 0)
              [frameAt 16 [openHand]; frameAt 32 []] eq_refl)
    as (_ & b0 & _ & _ & _ & b & Hb & _ & _ & _ & Hl & _).
  exists b. split; assumption.
Defined.

Lemma stale_window_left_alone_witness :
  triggers (snd (predict (host := constantHost)
                   (frameAt 2500 [openHand; openHand]) (idleApp 1000)))
  = 0%nat /\
  doublePalmTimer
    (sceneState (fst (predict (host := constantHost)
                        (frameAt 2500 [openHand; openHand]) (idleApp 1000))))
  = 1000.
Proof.
  exact (stale_window_left_alone (host := constantHost)
           (frameAt 2500 [openHand; openHand]) (idleApp 1000)
           (frameAt_both_open 2500) eq_refl eq_refl eq_refl).
Defined.

(** The failing input of C3: with the timer set at 1000 ms and both hands
    open at 2500 ms, the timer after the tick is still 1000, not 2500. *)
Example stale_window_not_restarted :
  bothOpenHands (frameAt 2500 [openHand; openHand]) /\
  (doublePalmTimer (sceneState (idleApp 1000)) =? 0) = false /\
  (1000 <=? 2500 - 1000) = true /\
  doublePalmTimer
    (sceneState (fst (predict (host := constantHost)
                        (frameAt 2500 [openHand; openHand]) (idleApp 1000))))
  = 1000 /\
  (1000 =? 2500) = false.
Proof.
  split; [apply frameAt_both_open|]. repeat split; vm_compute; reflexivity.
Qed.

(** The failing input of C3 and what follows it: with the timer set at
    1000 ms, two open hands shown at 2500 ms, 3000 ms and 3400 ms fire
    nothing and leave the timer at 1000, although the last two ticks are
    less than a second apart; from an unset timer the last two fire. *)
Example stale_window_blocks_held_palms :
  let held := [frameAt 2500 [openHand; openHand];
               frameAt 3000 [openHand; openHand];
               frameAt 3400 [openHand; openHand]] in
  triggers (snd (run (host := constantHost) held (idleApp 1000))) = 0%nat /\
  doublePalmTimer
    (sceneState (fst (run (host := constantHost) held (idleApp 1000))))
  = 1000 /\
  triggers (snd (run (host := constantHost) (tl held) (idleApp 0))) = 1%nat.
Proof.
  cbv zeta.
  destruct (stale_window_stays_stale (host := constantHost)
              [frameAt 2500 [openHand; openHand];
               frameAt 3000 [openHand; openHand];
               frameAt 3400 [openHand; openHand]] (idleApp 1000) eq_refl
              eq_refl) as [H1 H2].
  { repeat (apply List.Forall_cons;
              [split; [apply frameAt_both_open|vm_compute; reflexivity]|]).
    apply List.Forall_nil. }
  split; [exact H1|]. split; [exact H2|]. vm_compute. reflexivity.
Qed.

Lemma double_palm_debounce_witness :
  triggers (snd (run (host := constantHost)
                   [frameAt 1000 [openHand; openHand];
                    frameAt 1500 [openHand; openHand]] (idleApp 0)))
  = 1%nat /\
  triggers (snd (run (host := constantHost)
                   [frameAt 1000 [openHand; openHand];
                    frameAt 2500 [openHand; openHand]] (idleApp 0)))
  = 0%nat.
Proof.
  destruct (double_palm_debounce (host := constantHost)
              (frameAt 1000 [openHand; openHand])
              (frameAt 1500 [openHand; openHand]) (idleApp 0)
              (frameAt_both_open 1000) (frameAt_both_open 1500)
              eq_refl eq_refl) as (_ & _ & H & _).
  destruct (double_palm_debounce (host := constantHost)
              (frameAt 1000 [openHand; openHand])
              (frameAt 2500 [openHand; openHand]) (idleApp 0)
              (frameAt_both_open 1000) (frameAt_both_open 2500)
              eq_refl eq_refl) as (_ & _ & _ & H' & _).
  split.
  - destruct (H eq_refl eq_refl) as (_ & E & _). exact E.
  - exact (H' eq_refl eq_refl).
Defined.

Lemma second_hand_only_double_palm_witness :
  gesture (sceneState (fst (predict (host := constantHost)
                              (frameAt 16 [openHand; fistAt 0.06])
                              (idleApp 0))))
  = OPEN_HAND /\
  reported (snd (predict (host := constantHost)
                   (frameAt 16 [openHand; fistAt 0.06]) (idleApp 0)))
  = [OPEN_HAND] /\
  reported (snd (predict (host := constantHost)
                   (frameAt 16 [openHand; fistAt 0.06]) (idleApp 0)))
  = reported (snd (predict (host := constantHost)
                     (withDetection (frameAt 16 [openHand; fistAt 0.06])
                        (Normal [openHand])) (idleApp 0))).
Proof.
  destruct (second_hand_only_double_palm (host := constantHost)
              (frameAt 16 [openHand; fistAt 0.06]) (idleApp 0)
              openHand (fistAt 0.06) eq_refl) as (H & (_ & E) & _).
  destruct (H (P 0 0.05 0) eq_refl eq_refl eq_refl)
    as (g & g2 & Hg & _ & _ & _ & G & _ & R & _).
  assert (Eg : g = mkGesture OPEN_HAND 1).
  { assert (Ho : detectGesture openHand = Normal (mkGesture OPEN_HAND 1))
      by (vm_compute; reflexivity).
    rewrite Ho in Hg. now injection Hg. }
  rewrite Eg in G, R. split; [exact G|]. split; [exact R|exact E].
Defined.

End TickTheorems.

(* ================================================================== *)
(** * Further properties of the code *)
(* ================================================================== *)

(** ** More on binary64 arithmetic: signs, bounds and zeros *)

Module SignFacts.
Import Binary64 Binary64Facts.
Local Open Scope Z_scope.

(** Rounding does not look at the sign. *)
Lemma binary_round_aux_opp (s : bool) (m e : Z) (l : location) :
  binary_round_aux prec emax (negb s) m e l
  = SFopp (binary_round_aux prec emax s m e l).
Proof.
  unfold binary_round_aux.
  destruct (shr_fexp prec emax m e l) as [mrs' e'].
  destruct (shr_fexp prec emax _ e' loc_Exact) as [mrs'' e''].
  destruct (shr_m mrs'') as [|p|p]; cbn [SFopp]; try reflexivity.
  destruct (e'' <=? emax - prec); reflexivity.
Qed.

Lemma binary_round_opp (s : bool) (m : positive) (e : Z) :
  binary_round prec emax (negb s) m e = SFopp (binary_round prec emax s m e).
Proof.
  unfold binary_round. destruct (shl_align _ _ _) as [mz ez].
  apply binary_round_aux_opp.
Qed.

(** Two values that differ at most in their sign. *)
Definition same_magnitude (x y : spec_float) : Prop :=
  y = x \/ y = SFopp x.

Lemma binary_normalize_opp (m e : Z) :
  same_magnitude (binary_normalize prec emax m e false)
    (binary_normalize prec emax (- m) e false).
Proof.
  destruct m as [|p|p]; cbn [binary_normalize Z.opp].
  - now left.
  - right. apply (binary_round_opp false).
  - right. apply (binary_round_opp true).
Qed.

Lemma SFsub_swap (x y : spec_float) :
  same_magnitude (SF64sub x y) (SF64sub y x).
Proof.
  unfold SF64sub.
  destruct x as [sx|sx| |sx mx ex], y as [sy|sy| |sy my ey];
    cbn [SFsub SFopp]; unfold same_magnitude; cbn [SFopp];
    try (destruct sx, sy; cbn; auto; fail);
    try (destruct sx; cbn; auto; fail);
    try (destruct sy; cbn; auto; fail); auto.
  cbv zeta. rewrite (Z.min_comm ey ex).
  match goal with
  | |- context [binary_normalize _ _ (?a - ?b) ?e false] =>
      replace (b - a) with (- (a - b)) by lia;
      apply (binary_normalize_opp (a - b) e)
  end.
Qed.

Lemma SFmul_square_opp (x : spec_float) :
  SF64mul (SFopp x) (SFopp x) = SF64mul x x.
Proof.
  unfold SF64mul. destruct x as [s|s| |s m e]; cbn [SFopp SFmul];
    try reflexivity; now destruct s.
Qed.

Lemma SFmul_square_swap (x y : spec_float) :
  same_magnitude x y -> SF64mul y y = SF64mul x x.
Proof. intros [->| ->]; [reflexivity | apply SFmul_square_opp]. Qed.

End SignFacts.

Module OrderFacts.
Import JS Binary64 Binary64Facts FloatFacts SignFacts.
Local Open Scope float_scope.

Lemma sub_square_swap (a b : float) : (a - b) * (a - b) = (b - a) * (b - a).
Proof.
  apply Prim2SF_inj. rewrite !mul_spec, !sub_spec.
  symmetry. apply SFmul_square_swap, SFsub_swap.
Qed.

Lemma sub_nan_l (a : float) : nan - a = nan.
Proof. apply Prim2SF_inj. now rewrite sub_spec. Qed.

Lemma sub_nan_r (a : float) : a - nan = nan.
Proof.
  apply Prim2SF_inj. rewrite sub_spec. change (Prim2SF nan) with S754_nan.
  now destruct (Prim2SF a).
Qed.

Lemma ltb_nan_l (a : float) : (nan <? a) = false.
Proof. now rewrite FloatAxioms.ltb_spec. Qed.

Lemma ltb_nan_r (a : float) : (a <? nan) = false.
Proof.
  rewrite FloatAxioms.ltb_spec. change (Prim2SF nan) with S754_nan.
  unfold SFltb. now destruct (Prim2SF a).
Qed.

(** A bound below another positive bound of the same binade or a lower
    one. *)
Lemma ltb_below (d a b : float) (ma mb : positive) (ea eb : Z) :
  Prim2SF a = S754_finite false ma ea ->
  Prim2SF b = S754_finite false mb eb ->
  (ea < eb \/ ea = eb /\ (ma < mb)%positive)%Z ->
  (d <? a) = true -> (d <? b) = true.
Proof.
  intros Ha Hb Hab. rewrite !ltb_compare, Ha, Hb.
  destruct (Prim2SF d) as [s|s| |s m e]; cbn [SFcompare]; try easy.
  destruct s; [easy|].
  destruct (Z.compare_spec e ea) as [->|He|He]; try easy.
  - intros [= Hm]. apply (proj1 (Pos.compare_lt_iff m ma)) in Hm.
    destruct Hab as [Hab|[<- Hab]].
    + now apply Z.compare_lt_iff in Hab as ->.
    + rewrite Z.compare_refl. f_equal.
      apply (proj2 (Pos.compare_lt_iff m mb)). lia.
  - intros _. assert (He' : (e < eb)%Z) by lia.
    now apply Z.compare_lt_iff in He' as ->.
Qed.

End OrderFacts.

Module ZeroFacts.
Import JS Binary64 Binary64Facts FloatFacts.
Local Open Scope float_scope.

Lemma eqb_zero_inv (v : float) :
  (v =? 0) = true -> exists s : bool, Prim2SF v = S754_zero s.
Proof.
  rewrite FloatAxioms.eqb_spec. unfold SFeqb.
  change (Prim2SF 0) with (S754_zero false).
  destruct (Prim2SF v) as [s|s| |s m e]; cbn [SFcompare]; eauto;
    try discriminate; destruct s; discriminate.
Qed.

Lemma is_finite_zero (z : float) (s : bool) :
  Prim2SF z = S754_zero s -> is_finite z = true.
Proof.
  intros Hz. unfold is_finite, is_infinity.
  rewrite negb_true_iff, orb_false_iff, is_nan_false,
    FloatAxioms.eqb_spec, abs_spec, Hz.
  split; [discriminate | reflexivity].
Qed.

Lemma add_zero_zero (a b : float) (sa sb : bool) :
  Prim2SF a = S754_zero sa -> Prim2SF b = S754_zero sb ->
  exists s : bool, Prim2SF (a + b) = S754_zero s.
Proof.
  intros Ha Hb. rewrite add_spec, Ha, Hb. destruct sa, sb; cbn; eauto.
Qed.

Lemma add_zero_r (p z : float) (s sz : bool) (m : positive) (e : Z) :
  Prim2SF p = S754_finite s m e -> Prim2SF z = S754_zero sz -> p + z = p.
Proof.
  intros Hp Hz. apply Prim2SF_inj. now rewrite add_spec, Hp, Hz.
Qed.

Lemma eqb_zeros (a b : float) (sa sb : bool) :
  Prim2SF a = S754_zero sa -> Prim2SF b = S754_zero sb -> (a =? b) = true.
Proof. intros Ha Hb. now rewrite FloatAxioms.eqb_spec, Ha, Hb. Qed.

Lemma eqb_refl_finite (p : float) : is_finite p = true -> (p =? p) = true.
Proof.
  intros Hp. apply is_finite_spec in Hp.
  rewrite FloatAxioms.eqb_spec. unfold SFeqb.
  rewrite SFcompare_refl; [reflexivity|].
  intros H. now rewrite H in Hp.
Qed.

(** A number equal to a zero is a zero. *)
Lemma eqb_zero_l (h p : float) (s : bool) :
  Prim2SF p = S754_zero s -> (h =? p) = true ->
  exists s' : bool, Prim2SF h = S754_zero s'.
Proof.
  intros Hp. rewrite FloatAxioms.eqb_spec, Hp. unfold SFeqb.
  destruct (Prim2SF h) as [sh|sh| |sh m e]; cbn [SFcompare]; eauto;
    try discriminate; destruct sh; discriminate.
Qed.

Lemma eqb_trans (a b c : float) :
  (a =? b) = true -> (b =? c) = true -> (a =? c) = true.
Proof.
  rewrite !FloatAxioms.eqb_spec. unfold SFeqb.
  destruct (SFcompare (Prim2SF b) (Prim2SF c)) as [[]|] eqn:Hbc;
    try discriminate.
  intros Hab _.
  destruct (Prim2SF c) as [sc|sc| |sc mc ec].
  - destruct (Prim2SF b) as [sb|sb| |sb mb eb]; cbn [SFcompare] in Hbc;
      try discriminate Hbc; try (destruct sb; discriminate Hbc).
    destruct (Prim2SF a) as [sa|sa| |sa ma ea]; cbn [SFcompare] in Hab |- *;
      try discriminate Hab; try reflexivity; destruct sa; discriminate Hab.
  - destruct (Prim2SF b) as [sb|sb| |sb mb eb]; cbn [SFcompare] in Hbc;
      try discriminate Hbc; try (destruct sb; discriminate Hbc);
      try (destruct sc; discriminate Hbc).
    assert (sb = sc) as -> by (destruct sb, sc; congruence).
    exact Hab.
  - destruct (Prim2SF b); discriminate Hbc.
  - apply SFcompare_eq_finite in Hbc. now rewrite Hbc in Hab.
Qed.

End ZeroFacts.

(** ** The classifier *)

Module ClassifierProperties.
Import JS GestureLogic ClassifierSpec ClassifierObservations.
Import FloatFacts OrderFacts ClassifierFacts Examples.
Local Open Scope float_scope.

(** X1. [distance] is symmetric on all numbers, NaN and the infinities
    included: the rounded square of a difference does not depend on its
    sign. *)
Theorem distance_symmetric (p1 p2 : HandLandmark.t) :
  distance p1 p2 = distance p2 p1.
Proof.
  unfold distance, Math_pow2.
  now rewrite (sub_square_swap (HandLandmark.x p1)),
    (sub_square_swap (HandLandmark.y p1)),
    (sub_square_swap (HandLandmark.z p1)).
Qed.

Lemma joint_eq (l l' : list HandLandmark.t) (i : nat) :
  l !! i = l' !! i -> joint l i = joint l' i.
Proof. intros H. unfold joint. now rewrite !nth_lookup, H. Qed.

(** X2. The classifier reads eleven joints only: two poses of at least 21
    joints that agree on the wrist, the five proximal joints and the five
    tips classify the same, whatever their other joints are. *)
Theorem detectGesture_reads_eleven_joints (l l' : list HandLandmark.t) :
  (21 <= length l)%nat -> (21 <= length l')%nat ->
  (forall i, In i jointsRead -> l !! i = l' !! i) ->
  detectGesture l = detectGesture l'.
Proof.
  intros Hl Hl' H.
  assert (J : forall i, In i jointsRead -> joint l i = joint l' i)
    by (intros i Hi; apply joint_eq, H, Hi).
  rewrite !detectGesture_complete by assumption.
  unfold classify, rules, extendedCount, thumb, index, middle, ring, pinky,
    isExtended, pinchDistance.
  rewrite !(J 0%nat), !(J 2%nat), !(J 4%nat), !(J 6%nat), !(J 8%nat),
    !(J 10%nat), !(J 12%nat), !(J 14%nat), !(J 16%nat), !(J 18%nat),
    !(J 20%nat) by (cbn; tauto).
  reflexivity.
Qed.

Lemma detectGesture_reads_eleven_joints_witness :
  detectGesture (<[9%nat := P 1 1 1]> openHand) = detectGesture openHand.
Proof.
  apply detectGesture_reads_eleven_joints.
  - cbn. lia.
  - cbn. lia.
  - intros i Hi. cbn in Hi.
    repeat (destruct Hi as [<-|Hi]; [reflexivity|]). destruct Hi.
Defined.

(** X3. Once PINCH is ruled out the rules exclude one another, so each
    category is returned exactly when its own condition holds and their
    order plays no part. *)
Theorem rules_exclusive (landmarks : list HandLandmark.t) (g : Gesture)
    (thumbExt indexExt middleExt ringExt pinkyExt : bool) :
  detectGesture landmarks = Normal g ->
  type g <> PINCH ->
  isFingerExtended landmarks 4 2 = Normal thumbExt ->
  isFingerExtended landmarks 8 6 = Normal indexExt ->
  isFingerExtended landmarks 12 10 = Normal middleExt ->
  isFingerExtended landmarks 16 14 = Normal ringExt ->
  isFingerExtended landmarks 20 18 = Normal pinkyExt ->
  let extendedCount :=
    length (List.filter (fun b : bool => b)
              [thumbExt; indexExt; middleExt; ringExt; pinkyExt]) in
  (type g = CLOSED_FIST <-> extendedCount = 0%nat) /\
  (type g = ROCK_ON <->
   indexExt && pinkyExt && negb middleExt && negb ringExt = true) /\
  (type g = VICTORY <->
   indexExt && middleExt && negb ringExt && negb pinkyExt = true) /\
  (type g = THUMBS_UP <->
   thumbExt && negb indexExt && negb middleExt && negb ringExt
   && negb pinkyExt = true) /\
  (type g = OPEN_HAND <-> (4 <= extendedCount)%nat) /\
  (type g = NONE <->
   (1 <= extendedCount <= 3)%nat /\
   indexExt && pinkyExt && negb middleExt && negb ringExt = false /\
   indexExt && middleExt && negb ringExt && negb pinkyExt = false /\
   thumbExt && negb indexExt && negb middleExt && negb ringExt
   && negb pinkyExt = false).
Proof.
  intros Hg Hp Ht Hi Hm Hr Hk.
  assert (Hlen : (21 <= length landmarks)%nat).
  { destruct (Nat.lt_ge_cases (length landmarks) 21) as [Hs|]; [|assumption].
    unfold isFingerExtended in Hk.
    destruct (at_index landmarks 0) as [w|]; [|discriminate].
    cbn [bind] in Hk. unfold at_index in Hk.
    rewrite (lookup_ge_None_2 landmarks 20) in Hk by lia. discriminate. }
  revert Hg. unfold detectGesture.
  apply Nat.ltb_ge in Hlen as ->.
  destruct (at_index landmarks 4) as [thumbTip|]; [|discriminate].
  destruct (at_index landmarks 8) as [indexTip|]; [|discriminate].
  cbn [bind]. destruct (_ <? 0.05).
  { intros [= <-]. now contradiction Hp. }
  rewrite Ht, Hi, Hm, Hr, Hk. cbn [bind].
  destruct thumbExt, indexExt, middleExt, ringExt, pinkyExt;
    cbn; intros [= <-]; cbn; repeat split; intros; try lia;
    try discriminate; try tauto; try (intuition (lia || discriminate)).
Qed.

Lemma rules_exclusive_witness :
  type (mkGesture OPEN_HAND 1) = OPEN_HAND <-> (4 <= 5)%nat.
Proof.
  refine (proj1 (proj2 (proj2 (proj2 (proj2
    (rules_exclusive openHand (mkGesture OPEN_HAND 1) true true true true true
       _ _ _ _ _ _ _)))))); (reflexivity || discriminate).
Defined.

Lemma distance_nan_wrist (w p : HandLandmark.t) :
  HandLandmark.x w = nan \/ HandLandmark.y w = nan \/ HandLandmark.z w = nan ->
  distance w p = nan.
Proof.
  unfold distance, Math_pow2, Math_sqrt.
  intros [-> | [-> | ->]]; rewrite sub_nan_l, mul_nan_l;
    repeat (rewrite add_nan_l || rewrite add_nan_r); reflexivity.
Qed.

(** X4. A wrist with a NaN coordinate makes every digit count as curled:
    the pose classifies as CLOSED_FIST with strength 1, unless its thumb
    and index tips are in pinch range. *)
Theorem nan_wrist_is_fist (landmarks : list HandLandmark.t)
    (wrist thumbTip indexTip : HandLandmark.t) :
  (21 <= length landmarks)%nat ->
  landmarks !! 0%nat = Some wrist ->
  landmarks !! 4%nat = Some thumbTip ->
  landmarks !! 8%nat = Some indexTip ->
  HandLandmark.x wrist = nan \/ HandLandmark.y wrist = nan
  \/ HandLandmark.z wrist = nan ->
  detectGesture landmarks =
  Normal (if distance thumbTip indexTip <? 0.05
          then mkGesture PINCH (Math_max 0 (1 - distance thumbTip indexTip * 20))
          else mkGesture CLOSED_FIST 1).
Proof.
  intros Hlen Hw H4 H8 Hnan.
  rewrite detectGesture_complete by assumption.
  unfold pinchDistance. rewrite (joint_lookup _ _ _ H4), (joint_lookup _ _ _ H8).
  destruct (_ <? 0.05) eqn:Hd; [reflexivity|].
  unfold classify, rules, extendedCount, thumb, index, middle, ring, pinky,
    isExtended, pinchDistance.
  rewrite (joint_lookup _ _ _ Hw), (joint_lookup _ _ _ H4),
    (joint_lookup _ _ _ H8), Hd.
  rewrite !(distance_nan_wrist wrist) by assumption.
  reflexivity.
Qed.

Lemma nan_wrist_is_fist_witness :
  detectGesture (<[0%nat := P nan 0 0]> openHand)
  = Normal (mkGesture CLOSED_FIST 1).
Proof.
  refine (eq_trans (nan_wrist_is_fist (<[0%nat := P nan 0 0]> openHand)
            (P nan 0 0) (P 0.2 0 0) (P 0 0.2 0) _ eq_refl eq_refl eq_refl
            (or_introl eq_refl)) _).
  - cbn. lia.
  - reflexivity.
Defined.

End ClassifierProperties.

(** ** The particle engine *)

Module EngineFacts.
Import JS GestureLogic HandParticlesScene Observations EngineObservations.
Import FloatFacts OrderFacts SceneFacts.
Local Open Scope float_scope.

Lemma reach_within_60 (dist : float) (g : GestureType) :
  (dist <? 60) = false -> (dist <? reach g) = false.
Proof.
  intros H. destruct (dist <? reach g) eqn:Hr; [|reflexivity].
  rewrite <- H. symmetry.
  destruct g; cbn [reach] in Hr; try exact Hr;
    match type of Hr with
    | (_ <? ?a) = true =>
        eapply (ltb_below dist a 60); [reflexivity | reflexivity | | exact Hr]
    end;
    (right; split; reflexivity) || (left; reflexivity).
Qed.

Lemma Math_fround_nan : Math_fround nan = nan.
Proof. reflexivity. Qed.

Section WithHost.
Context {host : Host}.

Lemma handInteraction_out_of_reach (s : SceneState) (dt : float) (i : nat)
    (px py pz dx dy dz dist : float) (v : float * float * float)
    (draws : nat) :
  (dist <? reach (gesture s)) = false ->
  handInteraction s dt i px py pz dx dy dz dist v draws = (v, draws).
Proof.
  destruct v as [[vx vy] vz]. unfold handInteraction, reach.
  destruct (gesture s); intros ->; reflexivity.
Qed.

(** A NaN component of the velocity stays NaN through the gesture
    force. *)
Lemma handInteraction_nan (s : SceneState) (dt : float) (i : nat)
    (px py pz dx dy dz dist vx vy vz : float) (draws : nat) :
  let r := handInteraction s dt i px py pz dx dy dz dist (vx, vy, vz) draws in
  (vx = nan -> fst (fst (fst r)) = nan) /\
  (vy = nan -> snd (fst (fst r)) = nan) /\
  (vz = nan -> snd (fst r) = nan).
Proof.
  unfold handInteraction.
  destruct (gesture s); destruct (dist <? _); cbn [fst snd];
    repeat split; intros ->;
    rewrite ?add_nan_l, ?sub_nan_l, ?add_nan_l, ?sub_nan_l; reflexivity.
Qed.

Lemma handInteraction_draws (s : SceneState) (dt : float) (i : nat)
    (px py pz dx dy dz dist : float) (v : float * float * float)
    (draws : nat) :
  let d := snd (handInteraction s dt i px py pz dx dy dz dist v draws) in
  (gesture s <> ROCK_ON -> d = draws) /\ (draws <= d <= draws + 3)%nat.
Proof.
  destruct v as [[vx vy] vz]. unfold handInteraction.
  destruct (gesture s); destruct (dist <? _); cbn [snd];
    split; try reflexivity; try lia; intros H; now contradiction H.
Qed.

Lemma colorUpdates_draws (s : SceneState) (i3 : nat) (px dist : float)
    (home colors : list float) (draws : nat) :
  isHandPresent s = true ->
  snd (colorUpdates s i3 px dist home colors draws)
  = (draws + colorDraws s)%nat.
Proof.
  intros Hh. unfold colorUpdates, colorDraws. rewrite Hh.
  destruct (gesture s); try destruct (Color_setHSL _ _ _) as [[r g] b];
    try destruct (Math_random draws <? 0.05); cbn [snd]; lia.
Qed.

Lemma particleStep_draws (s : SceneState) (dt : float) (acc : Buffers * nat)
    (i : nat) :
  let d := snd (particleStep s dt acc i) in
  (gesture s <> ROCK_ON -> d = (snd acc + colorDraws s)%nat) /\
  (snd acc + colorDraws s <= d <= snd acc + colorDraws s + 3)%nat.
Proof.
  destruct acc as [b draws]. unfold particleStep. cbn [snd].
  destruct (isHandPresent s) eqn:Hh.
  - match goal with
    | |- context [handInteraction s dt i ?px ?py ?pz ?dx ?dy ?dz ?dist ?v draws] =>
        pose proof (handInteraction_draws s dt i px py pz dx dy dz dist v draws)
          as Hd;
        destruct (handInteraction s dt i px py pz dx dy dz dist v draws)
          as [[[vx vy] vz] d1]
    end.
    cbn [snd] in Hd.
    match goal with
    | |- context [colorUpdates s ?i3 ?px ?dist ?h ?c d1] =>
        pose proof (colorUpdates_draws s i3 px dist h c d1 Hh) as Hc;
        destruct (colorUpdates s i3 px dist h c d1) as [c' d2]
    end.
    cbn [snd] in Hc |- *. subst d2. destruct Hd as [Hd1 Hd2].
    split; [intros Hg; rewrite (Hd1 Hg); reflexivity | lia].
  - unfold colorDraws. rewrite Hh. cbn [snd]. split; [intros _|]; lia.
Qed.

Lemma loop_draws (s : SceneState) (dt : float) (l : list nat) :
  forall acc : Buffers * nat,
    let d := snd (fold_left (particleStep s dt) l acc) in
    (gesture s <> ROCK_ON -> d = (snd acc + length l * colorDraws s)%nat) /\
    (snd acc + length l * colorDraws s <= d
     <= snd acc + length l * (colorDraws s + 3))%nat.
Proof.
  induction l as [|i l IH]; intros acc; cbn [fold_left length].
  - split; [intros _|]; lia.
  - destruct (IH (particleStep s dt acc i)) as [H1 H2].
    destruct (particleStep_draws s dt acc i) as [G1 G2].
    split; [intros Hg; rewrite (H1 Hg), (G1 Hg)|]; nia.
Qed.

(** A tick, seen from particle [i]: there is a state of the loop in which
    the particle's cells are still those of the start of the tick, and
    whose step writes the cells the tick ends with. *)
Lemma animate_at (now : float) (app : App) (cam : Vector3.t) (b : Buffers)
    (i : nat) :
  camera app = Some cam ->
  arrays (sceneState app) = Some b ->
  (i < PARTICLE_COUNT)%nat ->
  let dt := Math_min ((now - lastTime app) / 1000) 0.1 in
  let s := set_time (time (sceneState app) + dt) (sceneState app) in
  exists (mid b' : Buffers) (d : nat),
    arrays (sceneState (animate now app)) = Some b' /\
    same_shape b mid /\ same_shape b b' /\
    forall k, (k < 3)%nat ->
      same_cell (i * 3 + k) b mid /\
      same_cell (i * 3 + k) (fst (particleStep s dt (mid, d) i)) b'.
Proof.
  intros Hc Ha Hi dt s.
  rewrite (animate_running now app cam b Hc Ha). cbv zeta. fold dt s.
  set (acc := (b, randomCalls app)).
  destruct (particleLoop_at s dt PARTICLE_COUNT i acc Hi) as [Hsh Hcell].
  assert (Hsh' : same_shape (fst acc)
                   (fst (particleLoop s dt PARTICLE_COUNT acc)))
    by apply loop_shape.
  destruct (particleLoop s dt i acc) as [mid d].
  exists mid, (fst (particleLoop s dt PARTICLE_COUNT acc)), d.
  split; [reflexivity|]. split; [exact Hsh|]. split; [exact Hsh'|].
  exact Hcell.
Qed.

End WithHost.

Section WithHost.
Context {host : Host}.

Lemma particleStep_out_of_reach (s : SceneState) (dt : float) (b : Buffers)
    (d i : nat) :
  isHandPresent s = true ->
  (i * 3 + 2 < length (positions b))%nat ->
  (i * 3 + 2 < length (velocities b))%nat ->
  let mouse := handPosition s in
  let dx := get (positions b) (i * 3) - Vector3.x mouse in
  let dy := get (positions b) (i * 3 + 1) - Vector3.y mouse in
  let dz := get (positions b) (i * 3 + 2) - Vector3.z mouse in
  let dist := Math_sqrt (dx * dx + dy * dy + dz * dz) in
  (dist <? reach (gesture s)) = false ->
  forall k, (k < 3)%nat ->
    let j := (i * 3 + k)%nat in
    let p := get (positions b) j in
    let v' :=
      (get (velocities b) j + (get (homePositions b) j - p) * 1.5 * dt)
      * 0.92 in
    get (velocities (fst (particleStep s dt (b, d) i))) j = Math_fround v' /\
    get (positions (fst (particleStep s dt (b, d) i))) j
    = Math_fround (p + v' * dt).
Proof.
  intros Hh Hlp Hlv mouse dx dy dz dist Hr.
  unfold particleStep. rewrite Hh.
  fold mouse dx dy dz dist.
  rewrite (handInteraction_out_of_reach s dt i _ _ _ dx dy dz dist _ d Hr).
  destruct (colorUpdates _ _ _ _ _ _ _) as [c d2].
  cbn [fst positions velocities].
  match goal with
  | |- context [set (set (set (velocities b) ?i3 ?v0) _ ?v1) _ ?v2] =>
      destruct (get_set3 (velocities b) i3 v0 v1 v2 Hlv) as (V0 & V1 & V2)
  end.
  match goal with
  | |- context [set (set (set (positions b) ?i3 ?v0) _ ?v1) _ ?v2] =>
      destruct (get_set3 (positions b) i3 v0 v1 v2 Hlp) as (P0 & P1 & P2)
  end.
  intros [|[|[|k]]] Hk; [| | |lia]; cbv zeta.
  - rewrite Nat.add_0_r, V0, P0. split; reflexivity.
  - rewrite V1, P1. split; reflexivity.
  - rewrite V2, P2. split; reflexivity.
Qed.

Lemma particleStep_nan (s : SceneState) (dt : float) (b : Buffers)
    (d i k : nat) :
  (k < 3)%nat ->
  (i * 3 + 2 < length (positions b))%nat ->
  (i * 3 + 2 < length (velocities b))%nat ->
  get (velocities b) (i * 3 + k) = nan ->
  get (velocities (fst (particleStep s dt (b, d) i))) (i * 3 + k) = nan /\
  get (positions (fst (particleStep s dt (b, d) i))) (i * 3 + k) = nan.
Proof.
  intros Hk Hlp Hlv Hnan. unfold particleStep.
  set (vx := get (velocities b) (i * 3) + _).
  set (vy := get (velocities b) (i * 3 + 1) + _).
  set (vz := get (velocities b) (i * 3 + 2) + _).
  assert (Hin : match k with
                | 0%nat => vx = nan | 1%nat => vy = nan | _ => vz = nan
                end).
  { destruct k as [|[|[|k]]]; [| | |lia]; unfold vx, vy, vz;
      rewrite ?Nat.add_0_r in Hnan; rewrite Hnan; apply add_nan_l. }
  match goal with
  | |- context [if isHandPresent s then ?t else ?e] =>
      assert (Hout : exists ux uy uz c d',
                 (if isHandPresent s then t else e) = (ux, uy, uz, c, d') /\
                 match k with
                 | 0%nat => ux = nan | 1%nat => uy = nan | _ => uz = nan
                 end)
  end.
  { destruct (isHandPresent s).
    - match goal with
      | |- context [handInteraction s dt i ?px ?py ?pz ?dx ?dy ?dz ?dist _ d] =>
          pose proof (handInteraction_nan s dt i px py pz dx dy dz dist
                        vx vy vz d) as Hn;
          destruct (handInteraction s dt i px py pz dx dy dz dist
                      (vx, vy, vz) d) as [[[ux uy] uz] d1]
      end.
      cbn [fst snd] in Hn. destruct Hn as (Hx & Hy & Hz).
      destruct (colorUpdates _ _ _ _ _ _ _) as [c d2].
      exists ux, uy, uz, c, d2. split; [reflexivity|].
      destruct k as [|[|[|k]]]; auto.
    - exists vx, vy, vz, (colors b), d. split; [reflexivity | exact Hin]. }
  destruct Hout as (ux & uy & uz & c & d' & -> & Hu).
  cbn [fst positions velocities].
  match goal with
  | |- context [set (set (set (velocities b) ?i3 ?v0) _ ?v1) _ ?v2] =>
      destruct (get_set3 (velocities b) i3 v0 v1 v2 Hlv) as (V0 & V1 & V2)
  end.
  match goal with
  | |- context [set (set (set (positions b) ?i3 ?v0) _ ?v1) _ ?v2] =>
      destruct (get_set3 (positions b) i3 v0 v1 v2 Hlp) as (P0 & P1 & P2)
  end.
  destruct k as [|[|[|k]]]; [| | |lia]; rewrite Hu in *.
  - rewrite Nat.add_0_r, V0, P0, !mul_nan_l, add_nan_r. now split.
  - rewrite V1, P1, !mul_nan_l, add_nan_r. now split.
  - rewrite V2, P2, !mul_nan_l, add_nan_r. now split.
Qed.

Lemma animate_nan (now : float) (app : App) (b : Buffers) (j : nat) :
  arrays (sceneState app) = Some b ->
  length (positions b) = (PARTICLE_COUNT * 3)%nat ->
  length (velocities b) = (PARTICLE_COUNT * 3)%nat ->
  (j < PARTICLE_COUNT * 3)%nat ->
  get (velocities b) j = nan ->
  exists b' : Buffers,
    arrays (sceneState (animate now app)) = Some b' /\
    same_shape b b' /\
    get (velocities b') j = nan /\
    (camera app <> None -> get (positions b') j = nan).
Proof.
  intros Ha Hlp Hlv Hj Hnan.
  destruct (camera app) as [cam|] eqn:Hc.
  - assert (exists i k, (i < PARTICLE_COUNT)%nat /\ (k < 3)%nat /\
                        j = (i * 3 + k)%nat) as (i & k & Hi & Hk & ->).
    { exists (j / 3)%nat, (j mod 3)%nat. split; [|split].
      - apply Nat.Div0.div_lt_upper_bound. lia.
      - apply Nat.mod_upper_bound. lia.
      - rewrite (Nat.div_mod_eq j 3) at 1. lia. }
    destruct (animate_at now app cam b i Hc Ha Hi)
      as (mid & b' & d & Hb' & (_ & Lp & Lv & _) & Hsh & Hcell).
    destruct (Hcell _ Hk) as [(_ & Vm & _) (Pb & Vb & _)].
    exists b'. split; [exact Hb'|]. split; [exact Hsh|].
    rewrite Pb, Vb. rewrite <- Vm in Hnan.
    destruct (particleStep_nan
                (set_time (time (sceneState app)
                           + Math_min ((now - lastTime app) / 1000) 0.1)
                   (sceneState app))
                (Math_min ((now - lastTime app) / 1000) 0.1)
                mid d i k Hk) as [Hv Hp];
      try assumption; try lia.
    split; [exact Hv | intros _; exact Hp].
  - exists b. unfold animate. rewrite Hc.
    repeat split; try assumption; try reflexivity.
    intros H; now contradiction H.
Qed.

End WithHost.

Section WithHost.
Context {host : Host}.

Lemma colorUpdates_same (s : SceneState) (i3 : nat) (px dist : float)
    (home1 home2 c1 c2 : list float) (d : nat) :
  get home1 i3 = get home2 i3 ->
  (forall k, (k < 3)%nat -> get c1 (i3 + k) = get c2 (i3 + k)) ->
  (i3 + 2 < length c1)%nat -> (i3 + 2 < length c2)%nat ->
  forall k, (k < 3)%nat ->
    get (fst (colorUpdates s i3 px dist home1 c1 d)) (i3 + k)
    = get (fst (colorUpdates s i3 px dist home2 c2 d)) (i3 + k).
Proof.
  intros Hh Hc L1 L2 k Hk. unfold colorUpdates. rewrite Hh.
  assert (Hset : forall v0 v1 v2,
            get (set (set (set c1 i3 v0) (i3 + 1) v1) (i3 + 2) v2) (i3 + k)
            = get (set (set (set c2 i3 v0) (i3 + 1) v1) (i3 + 2) v2) (i3 + k)).
  { intros v0 v1 v2.
    destruct (get_set3 c1 i3 v0 v1 v2 L1) as (A0 & A1 & A2).
    destruct (get_set3 c2 i3 v0 v1 v2 L2) as (B0 & B1 & B2).
    destruct k as [|[|[|k]]]; [| | |lia]; rewrite ?Nat.add_0_r; congruence. }
  destruct (gesture s); try destruct (Color_setHSL _ _ _) as [[r g] b];
    try destruct (Math_random d <? 0.05); cbn [fst];
    first [apply Hset | now apply Hc].
Qed.

Lemma colorUpdates_snd (s : SceneState) (i3 : nat) (px dist : float)
    (home1 home2 c1 c2 : list float) (d : nat) :
  snd (colorUpdates s i3 px dist home1 c1 d)
  = snd (colorUpdates s i3 px dist home2 c2 d).
Proof.
  unfold colorUpdates.
  destruct (gesture s); try destruct (Color_setHSL _ _ _) as [[r g] b];
    try destruct (Math_random d <? 0.05); reflexivity.
Qed.

Lemma particleStep_same (s : SceneState) (dt : float) (b1 b2 : Buffers)
    (d i : nat) :
  sameParticle i b1 b2 ->
  (i * 3 + 2 < length (positions b1))%nat ->
  (i * 3 + 2 < length (positions b2))%nat ->
  (i * 3 + 2 < length (velocities b1))%nat ->
  (i * 3 + 2 < length (velocities b2))%nat ->
  (i * 3 + 2 < length (colors b1))%nat ->
  (i * 3 + 2 < length (colors b2))%nat ->
  sameParticle i (fst (particleStep s dt (b1, d) i))
    (fst (particleStep s dt (b2, d) i)).
Proof.
  intros Hs Lp1 Lp2 Lv1 Lv2 Lc1 Lc2.
  destruct (Hs 0%nat ltac:(lia)) as (P0 & V0 & H0 & C0).
  destruct (Hs 1%nat ltac:(lia)) as (P1 & V1 & H1 & C1).
  destruct (Hs 2%nat ltac:(lia)) as (P2 & V2 & H2 & C2).
  cbv zeta in *. rewrite Nat.add_0_r in P0, V0, H0, C0.
  unfold particleStep. rewrite P0, P1, P2, V0, V1, V2, H0, H1, H2.
  assert (Hcol : forall k, (k < 3)%nat ->
            get (colors b1) (i * 3 + k) = get (colors b2) (i * 3 + k)).
  { intros [|[|[|k]]] Hk; [| | |lia]; rewrite ?Nat.add_0_r; assumption. }
  destruct (isHandPresent s).
  - destruct (handInteraction _ _ _ _ _ _ _ _ _ _ _ _) as [[[vx vy] vz] d1].
    pose proof (colorUpdates_same s (i * 3)
                  (get (positions b2) (i * 3))
                  (Math_sqrt
                     ((get (positions b2) (i * 3)
                       - Vector3.x (handPosition s))
                      * (get (positions b2) (i * 3)
                         - Vector3.x (handPosition s))
                      + (get (positions b2) (i * 3 + 1)
                         - Vector3.y (handPosition s))
                        * (get (positions b2) (i * 3 + 1)
                           - Vector3.y (handPosition s))
                      + (get (positions b2) (i * 3 + 2)
                         - Vector3.z (handPosition s))
                        * (get (positions b2) (i * 3 + 2)
                           - Vector3.z (handPosition s))))
                  (homePositions b1) (homePositions b2)
                  (colors b1) (colors b2) d1 H0 Hcol Lc1 Lc2) as Hcu.
    destruct (colorUpdates _ _ _ _ (homePositions b1) _ _) as [c1 e1].
    destruct (colorUpdates _ _ _ _ (homePositions b2) _ _) as [c2 e2].
    cbn [fst] in Hcu |- *.
    intros k Hk. cbv zeta. cbn [positions velocities homePositions colors].
    match goal with
    | |- context [set (set (set (positions b1) ?i3 ?v0) _ ?v1) _ ?v2] =>
        destruct (get_set3 (positions b1) i3 v0 v1 v2 Lp1) as (A0 & A1 & A2);
        destruct (get_set3 (positions b2) i3 v0 v1 v2 Lp2) as (B0 & B1 & B2)
    end.
    match goal with
    | |- context [set (set (set (velocities b1) ?i3 ?v0) _ ?v1) _ ?v2] =>
        destruct (get_set3 (velocities b1) i3 v0 v1 v2 Lv1) as (D0 & D1 & D2);
        destruct (get_set3 (velocities b2) i3 v0 v1 v2 Lv2) as (E0 & E1 & E2)
    end.
    split; [|split; [|split]]; [| | |now apply Hcu];
      destruct k as [|[|[|k]]]; try lia; rewrite ?Nat.add_0_r; congruence.
  - intros k Hk. cbv zeta. cbn [fst positions velocities homePositions colors].
    match goal with
    | |- context [set (set (set (positions b1) ?i3 ?v0) _ ?v1) _ ?v2] =>
        destruct (get_set3 (positions b1) i3 v0 v1 v2 Lp1) as (A0 & A1 & A2);
        destruct (get_set3 (positions b2) i3 v0 v1 v2 Lp2) as (B0 & B1 & B2)
    end.
    match goal with
    | |- context [set (set (set (velocities b1) ?i3 ?v0) _ ?v1) _ ?v2] =>
        destruct (get_set3 (velocities b1) i3 v0 v1 v2 Lv1) as (D0 & D1 & D2);
        destruct (get_set3 (velocities b2) i3 v0 v1 v2 Lv2) as (E0 & E1 & E2)
    end.
    split; [|split; [|split]]; [| | |now apply Hcol];
      destruct k as [|[|[|k]]]; try lia; rewrite ?Nat.add_0_r; congruence.
Qed.

(** [animate_at], with the state of the loop named. *)
Lemma animate_at_loop (now : float) (app : App) (cam : Vector3.t)
    (b : Buffers) (i : nat) :
  camera app = Some cam ->
  arrays (sceneState app) = Some b ->
  (i < PARTICLE_COUNT)%nat ->
  let dt := Math_min ((now - lastTime app) / 1000) 0.1 in
  let s := set_time (time (sceneState app) + dt) (sceneState app) in
  let mid := particleLoop s dt i (b, randomCalls app) in
  exists b' : Buffers,
    arrays (sceneState (animate now app)) = Some b' /\
    same_shape b (fst mid) /\ same_shape b b' /\
    forall k, (k < 3)%nat ->
      same_cell (i * 3 + k) b (fst mid) /\
      same_cell (i * 3 + k) (fst (particleStep s dt mid i)) b'.
Proof.
  intros Hc Ha Hi dt s mid.
  rewrite (animate_running now app cam b Hc Ha). cbv zeta. fold dt s.
  set (acc := (b, randomCalls app)) in *.
  destruct (particleLoop_at s dt PARTICLE_COUNT i acc Hi) as [Hsh Hcell].
  assert (Hsh' : same_shape (fst acc)
                   (fst (particleLoop s dt PARTICLE_COUNT acc)))
    by apply loop_shape.
  exists (fst (particleLoop s dt PARTICLE_COUNT acc)).
  split; [reflexivity|]. split; [exact Hsh|]. split; [exact Hsh'|].
  exact Hcell.
Qed.

End WithHost.

End EngineFacts.

Module EngineProperties.
Import JS GestureLogic HandParticlesScene Observations EngineObservations.
Import FloatFacts OrderFacts ZeroFacts SceneFacts EngineFacts.
Import TickFacts Examples MoreExamples.
Local Open Scope float_scope.

Section WithHost.
Context {host : Host}.

(** X5. The hand has a reach: 40 for OPEN_HAND, VICTORY and THUMBS_UP, 50
    for CLOSED_FIST, 60 for PINCH and ROCK_ON, 15 with no gesture.  A
    particle that is not within the reach of the current gesture (in
    particular one that is not within 60) gets the velocity and the
    position of a tick with no hand. *)
Theorem hand_out_of_reach (now : float) (app : App) (cam : Vector3.t)
    (b : Buffers) (i : nat) :
  camera app = Some cam ->
  arrays (sceneState app) = Some b ->
  length (positions b) = (PARTICLE_COUNT * 3)%nat ->
  length (velocities b) = (PARTICLE_COUNT * 3)%nat ->
  (i < PARTICLE_COUNT)%nat ->
  isHandPresent (sceneState app) = true ->
  let mouse := handPosition (sceneState app) in
  let dx := get (positions b) (i * 3) - Vector3.x mouse in
  let dy := get (positions b) (i * 3 + 1) - Vector3.y mouse in
  let dz := get (positions b) (i * 3 + 2) - Vector3.z mouse in
  let dist := Math_sqrt (dx * dx + dy * dy + dz * dz) in
  (dist <? reach (gesture (sceneState app))) = false \/ (dist <? 60) = false ->
  let dt := Math_min ((now - lastTime app) / 1000) 0.1 in
  exists b' : Buffers,
    arrays (sceneState (animate now app)) = Some b' /\
    forall k, (k < 3)%nat ->
      let j := (i * 3 + k)%nat in
      let p := get (positions b) j in
      let v' :=
        (get (velocities b) j + (get (homePositions b) j - p) * 1.5 * dt)
        * 0.92 in
      get (velocities b') j = Math_fround v' /\
      get (positions b') j = Math_fround (p + v' * dt).
Proof.
  intros Hc Ha Hlp Hlv Hi Hh mouse dx dy dz dist Hr dt.
  assert (Hr' : (dist <? reach (gesture (sceneState app))) = false)
    by (destruct Hr as [Hr|Hr]; [exact Hr | now apply reach_within_60]).
  destruct (animate_at now app cam b i Hc Ha Hi)
    as (mid & b' & d & Hb' & (Hm & Lp & Lv & _) & _ & Hcell).
  exists b'. split; [exact Hb'|].
  destruct (Hcell 0%nat) as [(P0 & _) _]; [lia|].
  destruct (Hcell 1%nat) as [(P1 & _) _]; [lia|].
  destruct (Hcell 2%nat) as [(P2 & _) _]; [lia|].
  rewrite Nat.add_0_r in P0.
  intros k Hk. destruct (Hcell k Hk) as [(Pk & Vk & _) (Pb & Vb & _)].
  cbv zeta. rewrite Pb, Vb, <- Pk, <- Vk, <- Hm.
  apply particleStep_out_of_reach; try assumption; try lia.
  cbn [isHandPresent set_time handPosition gesture].
  rewrite P0, P1, P2. exact Hr'.
Qed.

(** X6. NaN is absorbing: a velocity component that is NaN stays NaN
    through every later tick, whatever the frames show; and one tick of a
    built scene makes the position component NaN as well. *)
Theorem nan_velocity_stays (frames : list Frame) (app : App) (b : Buffers)
    (j : nat) :
  arrays (sceneState app) = Some b ->
  length (positions b) = (PARTICLE_COUNT * 3)%nat ->
  length (velocities b) = (PARTICLE_COUNT * 3)%nat ->
  (j < PARTICLE_COUNT * 3)%nat ->
  get (velocities b) j = nan ->
  (exists b' : Buffers,
     arrays (sceneState (fst (run frames app))) = Some b' /\
     get (velocities b') j = nan) /\
  (forall now, camera app <> None ->
     exists b' : Buffers,
       arrays (sceneState (animate now app)) = Some b' /\
       get (positions b') j = nan).
Proof.
  intros Ha Hlp Hlv Hj Hnan. split.
  - revert app b Ha Hlp Hlv Hnan.
    induction frames as [|f frames IH]; intros app b Ha Hlp Hlv Hnan.
    + exists b. now split.
    + cbn [run].
      assert (exists b1, arrays (sceneState (fst (predict f app))) = Some b1 /\
                         same_shape b b1 /\ get (velocities b1) j = nan)
        as (b1 & Hb1 & (_ & L1 & L2 & _) & Hn1).
      { unfold predict.
        destruct (videoReady f && isStreamReady (sceneState app)).
        - destruct (detectHands_keeps f (sceneState app)) as (Hk & _).
          destruct (detectHands f (sceneState app)) as [s fx].
          cbn [fst] in Hk |- *.
          destruct (animate_nan (animate_now f)
                      (mkApp (camera app) (lastTime app) s (randomCalls app))
                      b j) as (b1 & H1 & H2 & H3 & _);
            try assumption; [cbn [sceneState]; congruence | eauto].
        - cbn [fst]. destruct app as [c lt s rc]. cbn [sceneState] in *.
          destruct (animate_nan (animate_now f) (mkApp c lt s rc) b j)
            as (b1 & H1 & H2 & H3 & _); try assumption; eauto. }
      destruct (predict f app) as [app1 fx1]. cbn [fst] in Hb1.
      destruct (IH app1 b1 Hb1) as (b' & Hb' & Hn'); try congruence.
      destruct (run frames app1) as [app2 fx2]. cbn [fst] in *. eauto.
  - intros now Hc.
    destruct (animate_nan now app b j Ha Hlp Hlv Hj Hnan)
      as (b' & Hb' & _ & _ & Hp). eauto.
Qed.

(** Rest is a fixed point of a tick: with no hand, a tick of finite
    length leaves a system at rest at rest, every position equal as a
    number to what it was (a zero may change its sign). *)
Lemma animate_rest (now : float) (app : App) (cam : Vector3.t)
    (b : Buffers) :
  camera app = Some cam ->
  arrays (sceneState app) = Some b ->
  length (positions b) = (PARTICLE_COUNT * 3)%nat ->
  length (velocities b) = (PARTICLE_COUNT * 3)%nat ->
  isHandPresent (sceneState app) = false ->
  is_finite (Math_min ((now - lastTime app) / 1000) 0.1) = true ->
  atRest b ->
  exists b' : Buffers,
    arrays (sceneState (animate now app)) = Some b' /\
    atRest b' /\
    forall j, (j < PARTICLE_COUNT * 3)%nat ->
      (get (positions b') j =? get (positions b) j) = true.
Proof.
  intros Hc Ha Hlp Hlv Hh Hdt Hrest.
  set (dt := Math_min ((now - lastTime app) / 1000) 0.1) in *.
  destruct (animate_shape now app b Ha) as (b' & Hb' & Hsh).
  exists b'. split; [exact Hb'|].
  assert (Hcell : forall j, (j < PARTICLE_COUNT * 3)%nat ->
            let p := get (positions b) j in
            let p' := get (positions b') j in
            (exists s, Prim2SF (get (velocities b') j) = S754_zero s) /\
            (p' = p \/ exists s s', Prim2SF p = S754_zero s /\
                                    Prim2SF p' = S754_zero s')).
  { intros j Hj.
    assert (exists i k, (i < PARTICLE_COUNT)%nat /\ (k < 3)%nat /\
                        j = (i * 3 + k)%nat) as (i & k & Hi & Hk & ->).
    { exists (j / 3)%nat, (j mod 3)%nat. split; [|split].
      - apply Nat.Div0.div_lt_upper_bound. lia.
      - apply Nat.mod_upper_bound. lia.
      - rewrite (Nat.div_mod_eq j 3) at 1. lia. }
    destruct (animate_at now app cam b i Hc Ha Hi)
      as (mid & b2 & d & Hb2 & (Hm & Lp & Lv & _) & _ & Hcell).
    rewrite Hb' in Hb2. injection Hb2 as <-.
    destruct (Hcell k Hk) as [(Pk & Vk & _) (Pb & Vb & _)].
    fold dt in Pb, Vb. cbv zeta. rewrite Pb, Vb.
    rewrite particleStep_no_hand by exact Hh. cbv zeta.
    cbn [fst positions velocities].
    match goal with
    | |- context [set (set (set (velocities mid) ?i3 ?v0) _ ?v1) _ ?v2] =>
        destruct (get_set3 (velocities mid) i3 v0 v1 v2 ltac:(lia))
          as (V0 & V1 & V2)
    end.
    match goal with
    | |- context [set (set (set (positions mid) ?i3 ?v0) _ ?v1) _ ?v2] =>
        destruct (get_set3 (positions mid) i3 v0 v1 v2 ltac:(lia))
          as (P0 & P1 & P2)
    end.
    assert (Hgoal : forall c, (c = i * 3 + k)%nat ->
              let v' := (get (velocities mid) c
                         + (get (homePositions mid) c - get (positions mid) c)
                           * 1.5 * dt) * 0.92 in
              (exists s, Prim2SF (Math_fround v') = S754_zero s) /\
              (Math_fround (get (positions mid) c + v' * dt)
               = get (positions b) (i * 3 + k) \/
               exists s s', Prim2SF (get (positions b) (i * 3 + k))
                            = S754_zero s /\
                 Prim2SF (Math_fround (get (positions mid) c + v' * dt))
                 = S754_zero s')).
    { intros c ->. rewrite Pk, Vk, Hm.
      destruct (Hrest (i * 3 + k)%nat ltac:(lia)) as (Fp & Rp & Ehp & Ev).
      cbv zeta in Fp, Rp, Ehp.
      set (p := get (positions b) (i * 3 + k)) in *.
      destruct (sub_eq_zero _ _ Fp Ehp) as [s1 Z1].
      destruct (zero_mul_finite _ 1.5 _ Z1 eq_refl) as [s2 Z2].
      destruct (zero_mul_finite _ dt _ Z2 Hdt) as [s3 Z3].
      destruct (eqb_zero_inv _ Ev) as [s4 Z4].
      destruct (add_zero_zero _ _ _ _ Z4 Z3) as [s5 Z5].
      destruct (zero_mul_finite _ 0.92 _ Z5 eq_refl) as [s6 Z6].
      destruct (zero_mul_finite _ dt _ Z6 Hdt) as [s7 Z7].
      cbv zeta. split.
      - exists s6. now rewrite (Math_fround_zero _ _ Z6).
      - pose proof (is_finite_spec p Fp) as Hp.
        destruct (Prim2SF p) as [sp|sp| |sp mp ep] eqn:Ep; try contradiction.
        + right. destruct (add_zero_zero _ _ _ _ Ep Z7) as [s8 Z8].
          exists sp, s8. split; [reflexivity|].
          now rewrite (Math_fround_zero _ _ Z8).
        + left. rewrite (add_zero_r _ _ _ _ _ _ Ep Z7). exact Rp. }
    destruct k as [|[|[|k]]]; [| | |lia].
    - rewrite Nat.add_0_r in *. rewrite V0, P0. apply (Hgoal (i * 3)%nat).
      reflexivity.
    - rewrite V1, P1. apply (Hgoal (i * 3 + 1)%nat). reflexivity.
    - rewrite V2, P2. apply (Hgoal (i * 3 + 2)%nat). reflexivity. }
  destruct Hsh as (Hhome & _).
  split.
  - intros j Hj. cbv zeta.
    destruct (Hcell j Hj) as [[sv Hv] Hp].
    destruct (Hrest j Hj) as (Fp & Rp & Ehp & _). cbv zeta in Fp, Rp, Ehp.
    rewrite Hhome.
    destruct Hp as [-> | (s & s' & Z & Z')].
    + repeat split; try assumption. exact (zero_eqb _ _ Hv).
    + split; [exact (is_finite_zero _ _ Z')|].
      split; [exact (Math_fround_zero _ _ Z')|].
      split; [|exact (zero_eqb _ _ Hv)].
      destruct (eqb_zero_l _ _ _ Z Ehp) as [sh Zh].
      exact (eqb_zeros _ _ _ _ Zh Z').
  - intros j Hj. destruct (Hcell j Hj) as [_ Hp].
    destruct (Hrest j Hj) as (Fp & _). cbv zeta in Fp.
    destruct Hp as [-> | (s & s' & Z & Z')].
    + now apply eqb_refl_finite.
    + exact (eqb_zeros _ _ _ _ Z' Z).
Qed.


(** X7. The random numbers a tick draws: none with no hand, and none for
    VICTORY and PINCH; one per particle (the color reset) for the other
    gestures, and for ROCK_ON up to three more per particle. *)
Theorem tick_random_draws (now : float) (app : App) (cam : Vector3.t)
    (b : Buffers) :
  camera app = Some cam ->
  arrays (sceneState app) = Some b ->
  let s := sceneState app in
  let n := randomCalls app in
  let n' := randomCalls (animate now app) in
  (gesture s <> ROCK_ON -> n' = (n + PARTICLE_COUNT * colorDraws s)%nat) /\
  (isHandPresent s = false -> n' = n) /\
  (n + PARTICLE_COUNT * colorDraws s <= n'
   <= n + PARTICLE_COUNT * (colorDraws s + 3))%nat.
Proof.
  intros Hc Ha s n n'. unfold n'.
  rewrite (animate_running now app cam b Hc Ha). cbv zeta.
  cbn [randomCalls]. unfold particleLoop.
  match goal with
  | |- context [fold_left (particleStep ?s' ?dt) ?l ?acc] =>
      destruct (loop_draws s' dt l acc) as [H1 H2];
      pose proof (loop_no_hand s' dt l) as H3
  end.
  rewrite length_seq in H1, H2. cbn [snd] in H1, H2.
  change (colorDraws (set_time _ (sceneState app))) with (colorDraws s)
    in H1, H2.
  split; [exact H1|]. split; [|exact H2].
  intros Hh. now destruct (H3 Hh (b, randomCalls app)) as [_ ->].
Qed.

Lemma animate_camera (now : float) (app : App) (cam : Vector3.t) :
  camera app = Some cam ->
  exists cam' : Vector3.t,
    camera (animate now app) = Some cam' /\ Vector3.z cam' = Vector3.z cam.
Proof.
  intros Hc. destruct (arrays (sceneState app)) as [b|] eqn:Ha.
  - rewrite (animate_running now app cam b Hc Ha). cbv zeta.
    cbn [camera]. eexists. split; [reflexivity|].
    unfold orbitCamera. cbn [isHandPresent set_time].
    destruct (isHandPresent _); [destruct (_ <? _)|]; reflexivity.
  - unfold animate. rewrite Hc. cbn [arrays set_time]. rewrite Ha.
    cbn [camera]. eauto.
Qed.

Lemma run_camera (frames : list Frame) :
  forall (app : App) (cam : Vector3.t),
    camera app = Some cam ->
    exists cam' : Vector3.t,
      camera (fst (run frames app)) = Some cam' /\
      Vector3.z cam' = Vector3.z cam.
Proof.
  induction frames as [|f frames IH]; intros app cam Hc.
  - exists cam. now split.
  - cbn [run].
    assert (exists cam1, camera (fst (predict f app)) = Some cam1 /\
                         Vector3.z cam1 = Vector3.z cam)
      as (cam1 & H1 & Hz1).
    { unfold predict.
      destruct (if videoReady f && isStreamReady (sceneState app) then _
                else _) as [s fx].
      cbn [fst]. now apply animate_camera. }
    destruct (predict f app) as [app1 fx1]. cbn [fst] in H1.
    destruct (IH app1 cam1 H1) as (cam' & H' & Hz').
    destruct (run frames app1) as [app2 fx2]. cbn [fst] in *.
    exists cam'. split; [exact H' | congruence].
Qed.

(** X8. The camera never leaves its depth: once [initThree] has placed it
    at z = CAMERA_Z, it is there after any number of frames, whatever
    they show. *)
Theorem camera_keeps_depth (frames : list Frame) (app : App) :
  camera app = None ->
  exists cam : Vector3.t,
    camera (fst (run frames (initThree true app))) = Some cam /\
    Vector3.z cam = CAMERA_Z.
Proof.
  intros Hc.
  destruct (initThree_first_particle app Hc) as (b0 & d' & Hi & _).
  rewrite Hi.
  apply (run_camera frames _ (Vector3.mk 0 0 CAMERA_Z)). reflexivity.
Qed.

Lemma particleStep_pinch_colors (s : SceneState) (dt : float) (b : Buffers)
    (d i : nat) :
  isHandPresent s = true -> gesture s = PINCH ->
  (i * 3 + 2 < length (colors b))%nat ->
  let mouse := handPosition s in
  let dx := get (positions b) (i * 3) - Vector3.x mouse in
  let dy := get (positions b) (i * 3 + 1) - Vector3.y mouse in
  let dz := get (positions b) (i * 3 + 2) - Vector3.z mouse in
  let dist := Math_sqrt (dx * dx + dy * dy + dz * dz) in
  let intensity := Math_min 1 (40 / (dist + 1)) in
  let b' := fst (particleStep s dt (b, d) i) in
  get (colors b') (i * 3) = 1 /\
  get (colors b') (i * 3 + 1) = Math_fround (1 - intensity) /\
  get (colors b') (i * 3 + 2) = Math_fround (1 - intensity).
Proof.
  intros Hh Hg Hl mouse dx dy dz dist intensity. unfold particleStep.
  rewrite Hh. fold mouse dx dy dz dist.
  destruct (handInteraction _ _ _ _ _ _ _ _ _ _ _ _) as [[[vx vy] vz] d1].
  unfold colorUpdates. rewrite Hg. fold intensity.
  cbn [fst colors].
  destruct (get_set3 (colors b) (i * 3) 1 (1 - intensity) (1 - intensity) Hl)
    as (C0 & C1 & C2).
  rewrite C0, C1, C2. repeat split.
Qed.

(** X9. A PINCH tick colors every particle by its distance to the hand:
    red is 1, green and blue are both 1 - min(1, 40 / (dist + 1)), rounded
    by the store. *)
Theorem pinch_colors (now : float) (app : App) (cam : Vector3.t)
    (b : Buffers) (i : nat) :
  camera app = Some cam ->
  arrays (sceneState app) = Some b ->
  length (colors b) = (PARTICLE_COUNT * 3)%nat ->
  (i < PARTICLE_COUNT)%nat ->
  isHandPresent (sceneState app) = true ->
  gesture (sceneState app) = PINCH ->
  let mouse := handPosition (sceneState app) in
  let dx := get (positions b) (i * 3) - Vector3.x mouse in
  let dy := get (positions b) (i * 3 + 1) - Vector3.y mouse in
  let dz := get (positions b) (i * 3 + 2) - Vector3.z mouse in
  let dist := Math_sqrt (dx * dx + dy * dy + dz * dz) in
  let intensity := Math_min 1 (40 / (dist + 1)) in
  exists b' : Buffers,
    arrays (sceneState (animate now app)) = Some b' /\
    get (colors b') (i * 3) = 1 /\
    get (colors b') (i * 3 + 1) = Math_fround (1 - intensity) /\
    get (colors b') (i * 3 + 2) = Math_fround (1 - intensity).
Proof.
  intros Hc Ha Hl Hi Hh Hg mouse dx dy dz dist intensity.
  destruct (animate_at now app cam b i Hc Ha Hi)
    as (mid & b' & d & Hb' & (_ & _ & _ & Lc) & _ & Hcell).
  exists b'. split; [exact Hb'|].
  destruct (Hcell 0%nat) as [(P0 & _) (_ & _ & C0)]; [lia|].
  destruct (Hcell 1%nat) as [(P1 & _) (_ & _ & C1)]; [lia|].
  destruct (Hcell 2%nat) as [(P2 & _) (_ & _ & C2)]; [lia|].
  rewrite Nat.add_0_r in P0, C0. rewrite C0, C1, C2.
  unfold intensity, dist, dx, dy, dz, mouse. rewrite <- P0, <- P1, <- P2.
  apply (particleStep_pinch_colors
           (set_time (time (sceneState app)
                      + Math_min ((now - lastTime app) / 1000) 0.1)
              (sceneState app))
           (Math_min ((now - lastTime app) / 1000) 0.1) mid d i);
    try assumption; lia.
Qed.

End WithHost.

Lemma example_lengths (b : Buffers) :
  b = restingBuffers \/ b = nanBuffers ->
  length (positions b) = (PARTICLE_COUNT * 3)%nat /\
  length (velocities b) = (PARTICLE_COUNT * 3)%nat /\
  length (colors b) = (PARTICLE_COUNT * 3)%nat.
Proof.
  intros [-> | ->];
    cbn [restingBuffers nanBuffers positions velocities colors];
    unfold set, new_Float32Array;
    rewrite ?length_insert, !length_replicate; repeat split; reflexivity.
Qed.

Lemma restingBuffers_atRest : atRest restingBuffers.
Proof.
  intros j Hj. cbv zeta.
  cbn [restingBuffers positions velocities homePositions].
  unfold get, new_Float32Array.
  rewrite (lookup_replicate_2 (PARTICLE_COUNT * 3) 0 j Hj).
  repeat split.
Qed.

Lemma hand_out_of_reach_witness :
  exists b' : Buffers,
    arrays (sceneState
              (animate (host := constantHost) 16
                 (runningAppAt (Vector3.mk 100 0 0) restingBuffers true
                    CLOSED_FIST)))
    = Some b' /\
    get (velocities b') 0 = 0 /\ get (positions b') 0 = 0.
Proof.
  assert (H0 : (0 < PARTICLE_COUNT)%nat) by (unfold PARTICLE_COUNT; lia).
  pose proof (hand_out_of_reach (host := constantHost) 16
                (runningAppAt (Vector3.mk 100 0 0) restingBuffers true
                   CLOSED_FIST)
                (Vector3.mk 0 0 CAMERA_Z) restingBuffers 0 eq_refl eq_refl
                (proj1 (example_lengths _ (or_introl eq_refl)))
                (proj1 (proj2 (example_lengths _ (or_introl eq_refl))))
                H0 eq_refl) as H.
  destruct (H ltac:(right; vm_compute; reflexivity)) as (b' & Hb & Hcell).
  destruct (Hcell 0%nat ltac:(lia)) as [Hv Hp].
  exists b'. split; [exact Hb|].
  split; (etransitivity; [eassumption | vm_compute; reflexivity]).
Defined.

Lemma nan_velocity_stays_witness :
  exists b' : Buffers,
    arrays (sceneState
              (fst (run (host := constantHost)
                      [frameAt 16 []; frameAt 32 [openHand]]
                      (runningApp nanBuffers false NONE))))
    = Some b' /\
    get (velocities b') 0 = nan.
Proof.
  assert (H0 : (0 < PARTICLE_COUNT * 3)%nat) by (unfold PARTICLE_COUNT; lia).
  assert (Hn : get (velocities nanBuffers) 0 = nan)
    by (vm_compute; reflexivity).
  exact (proj1 (nan_velocity_stays (host := constantHost)
                  [frameAt 16 []; frameAt 32 [openHand]]
                  (runningApp nanBuffers false NONE) nanBuffers 0 eq_refl
                  (proj1 (example_lengths _ (or_intror eq_refl)))
                  (proj1 (proj2 (example_lengths _ (or_intror eq_refl))))
                  H0 Hn)).
Defined.

Lemma tick_random_draws_witness :
  randomCalls (animate (host := constantHost) 16
                 (runningApp restingBuffers true OPEN_HAND))
  = (0 + PARTICLE_COUNT * 1)%nat /\
  randomCalls (animate (host := constantHost) 16
                 (runningApp restingBuffers false NONE))
  = 0%nat.
Proof.
  split.
  - apply (tick_random_draws (host := constantHost) 16
             (runningApp restingBuffers true OPEN_HAND)
             (Vector3.mk 0 0 CAMERA_Z) restingBuffers eq_refl eq_refl).
    discriminate.
  - apply (tick_random_draws (host := constantHost) 16
             (runningApp restingBuffers false NONE)
             (Vector3.mk 0 0 CAMERA_Z) restingBuffers eq_refl eq_refl).
    reflexivity.
Defined.

Lemma camera_keeps_depth_witness :
  exists cam : Vector3.t,
    camera (fst (run (host := constantHost) [frameAt 16 [openHand]]
                   (initThree (host := constantHost) true (idleApp 0))))
    = Some cam /\
    Vector3.z cam = CAMERA_Z.
Proof.
  apply (camera_keeps_depth (host := constantHost) [frameAt 16 [openHand]]
           (idleApp 0) eq_refl).
Defined.

Lemma pinch_colors_witness :
  exists b' : Buffers,
    arrays (sceneState (animate (host := constantHost) 16
                          (runningApp restingBuffers true PINCH)))
    = Some b' /\
    get (colors b') 0 = 1 /\ get (colors b') 1 = 0 /\ get (colors b') 2 = 0.
Proof.
  assert (H0 : (0 < PARTICLE_COUNT)%nat) by (unfold PARTICLE_COUNT; lia).
  destruct (pinch_colors (host := constantHost) 16
              (runningApp restingBuffers true PINCH)
              (Vector3.mk 0 0 CAMERA_Z) restingBuffers 0 eq_refl eq_refl
              (proj2 (proj2 (example_lengths _ (or_introl eq_refl))))
              H0 eq_refl eq_refl)
    as (b' & Hb & C0 & C1 & C2).
  exists b'. split; [exact Hb|]. split; [exact C0|].
  split; (etransitivity; [eassumption | vm_compute; reflexivity]).
Defined.

Section WithHost.
Context {host : Host}.

Lemma animate_lastTime (now : float) (app : App) (cam : Vector3.t) :
  camera app = Some cam -> lastTime (animate now app) = now.
Proof.
  intros Hc. unfold animate. rewrite Hc. cbn [arrays set_time].
  destruct (arrays (sceneState app)); [|reflexivity].
  now destruct (particleLoop _ _ _ _).
Qed.

(** X10. A cloud at rest stays at rest while no hand is seen: over frames
    that show no hand, with ticks of finite length, every particle stays
    at its home with a zero velocity, every position equal as a number to
    what it was (a zero may change its sign). *)
Theorem rest_is_kept_without_hand (frames : list Frame) (app : App)
    (cam : Vector3.t) (b : Buffers) :
  camera app = Some cam ->
  arrays (sceneState app) = Some b ->
  length (positions b) = (PARTICLE_COUNT * 3)%nat ->
  length (velocities b) = (PARTICLE_COUNT * 3)%nat ->
  isHandPresent (sceneState app) = false ->
  calm (lastTime app) frames ->
  atRest b ->
  exists b' : Buffers,
    arrays (sceneState (fst (run frames app))) = Some b' /\
    atRest b' /\
    forall j, (j < PARTICLE_COUNT * 3)%nat ->
      (get (positions b') j =? get (positions b) j) = true.
Proof.
  revert app cam b.
  induction frames as [|f frames IH];
    intros app cam b Hc Ha Lp Lv Hh Hcalm Hrest.
  - exists b. split; [exact Ha|]. split; [exact Hrest|].
    intros j Hj. destruct (Hrest j Hj) as (Fp & _). cbv zeta in Fp.
    now apply eqb_refl_finite.
  - destruct Hcalm as (Hd & Hdt & Hcalm). cbn [run].
    assert (Hpre : exists s1,
              predict f app
              = (animate (animate_now f)
                   (mkApp (camera app) (lastTime app) s1 (randomCalls app)),
                 snd (predict f app)) /\
              arrays s1 = Some b /\ isHandPresent s1 = false).
    { unfold predict, detectHands. rewrite Hd.
      destruct (videoReady f && isStreamReady (sceneState app)).
      - eexists. split; [reflexivity|]. cbn. auto.
      - eexists. split; [reflexivity|]. auto. }
    destruct Hpre as (s1 & Hp & Ha1 & Hh1). rewrite Hp.
    set (app1 := mkApp (camera app) (lastTime app) s1 (randomCalls app)) in *.
    destruct (animate_rest (animate_now f) app1 cam b Hc Ha1 Lp Lv Hh1
                Hdt Hrest) as (b1 & Hb1 & Hrest1 & Heq1).
    destruct (animate_shape (animate_now f) app1 b Ha1)
      as (b1' & Hb1' & (_ & Lp1 & Lv1 & _)).
    rewrite Hb1 in Hb1'. injection Hb1' as <-.
    destruct (animate_camera (animate_now f) app1 cam Hc) as (cam1 & Hc1 & _).
    destruct (animate_keeps (animate_now f) app1) as (_ & Hk & _).
    cbv zeta in Hk. unfold app1 in Hk at 2. cbn [sceneState] in Hk.
    pose proof (animate_lastTime (animate_now f) app1 cam Hc) as Hl.
    rewrite <- Hl in Hcalm.
    destruct (IH (animate (animate_now f) app1) cam1 b1 Hc1 Hb1
                ltac:(congruence) ltac:(congruence) ltac:(congruence)
                Hcalm Hrest1) as (b' & Hb' & Hrest' & Heq').
    destruct (run frames (animate (animate_now f) app1)) as [app2 fx2].
    cbn [fst] in *. exists b'. split; [exact Hb'|]. split; [exact Hrest'|].
    intros j Hj. exact (eqb_trans _ _ _ (Heq' j Hj) (Heq1 j Hj)).
Qed.

End WithHost.

Lemma rest_is_kept_without_hand_witness :
  exists b' : Buffers,
    arrays (sceneState
              (fst (run (host := constantHost)
                      [frameAt 16 []; frameAt 32 []]
                      (runningApp restingBuffers false NONE))))
    = Some b' /\
    atRest b' /\
    forall j, (j < PARTICLE_COUNT * 3)%nat ->
      (get (positions b') j =? get (positions restingBuffers) j) = true.
Proof.
  apply (rest_is_kept_without_hand (host := constantHost)
           [frameAt 16 []; frameAt 32 []]
           (runningApp restingBuffers false NONE)
           (Vector3.mk 0 0 CAMERA_Z) restingBuffers eq_refl eq_refl
           (proj1 (example_lengths _ (or_introl eq_refl)))
           (proj1 (proj2 (example_lengths _ (or_introl eq_refl))))
           eq_refl).
  - repeat split; vm_compute; reflexivity.
  - exact restingBuffers_atRest.
Defined.

Section WithHost.
Context {host : Host}.

(** X11. Particles do not interact: in a tick that is not a ROCK_ON one,
    what becomes of a particle (position, velocity, color) depends on its
    own cells only, whatever the other particles are. *)
Theorem particles_do_not_interact (now : float) (app : App)
    (cam : Vector3.t) (b1 b2 : Buffers) (i : nat) :
  camera app = Some cam ->
  arrays (sceneState app) = Some b1 ->
  wellSized b1 -> wellSized b2 ->
  (i < PARTICLE_COUNT)%nat ->
  gesture (sceneState app) <> ROCK_ON ->
  sameParticle i b1 b2 ->
  exists b1' b2' : Buffers,
    arrays (sceneState (animate now app)) = Some b1' /\
    arrays (sceneState (animate now (withArrays b2 app))) = Some b2' /\
    sameParticle i b1' b2'.
Proof.
  intros Hc Ha (Lp1 & Lv1 & Lh1 & Lc1) (Lp2 & Lv2 & Lh2 & Lc2) Hi Hg Hs.
  destruct (animate_at_loop now app cam b1 i Hc Ha Hi)
    as (b1' & Hb1 & (Hm1 & Mp1 & Mv1 & Mc1) & (Hh1 & _) & Hcell1).
  destruct (animate_at_loop now (withArrays b2 app) cam b2 i Hc eq_refl Hi)
    as (b2' & Hb2 & (Hm2 & Mp2 & Mv2 & Mc2) & (Hh2 & _) & Hcell2).
  cbn [withArrays lastTime sceneState randomCalls time set_arrays] in Hcell2,
    Hm2, Mp2, Mv2, Mc2.
  set (dt := Math_min ((now - lastTime app) / 1000) 0.1) in *.
  set (s := set_time (time (sceneState app) + dt) (sceneState app)) in *.
  assert (Es : forall acc n,
            particleLoop
              (set_time (time (sceneState app) + dt)
                 (set_arrays (Some b2) (sceneState app))) dt n acc
            = particleLoop (set_arrays (Some b2) s) dt n acc)
    by reflexivity.
  assert (Hloop : forall (arr : option Buffers) n acc,
            particleLoop (set_arrays arr s) dt n acc = particleLoop s dt n acc).
  { intros arr n acc. unfold particleLoop. revert acc.
    induction (seq 0 n) as [|a l IH]; intros acc; [reflexivity|].
    cbn [fold_left]. rewrite IH. reflexivity. }
  assert (Estep : forall acc,
            particleStep
              (set_time (time (sceneState app) + dt)
                 (set_arrays (Some b2) (sceneState app))) dt acc i
            = particleStep s dt acc i) by reflexivity.
  rewrite Es, Hloop in Hcell2, Hm2, Mp2, Mv2, Mc2.
  setoid_rewrite Estep in Hcell2.
  destruct (loop_draws s dt (seq 0 i) (b1, randomCalls app)) as [D1 _].
  destruct (loop_draws s dt (seq 0 i) (b2, randomCalls app)) as [D2 _].
  specialize (D1 Hg). specialize (D2 Hg). cbn [snd] in D1, D2.
  fold (particleLoop s dt i (b1, randomCalls app)) in D1.
  fold (particleLoop s dt i (b2, randomCalls app)) in D2.
  destruct (particleLoop s dt i (b1, randomCalls app)) as [m1 d1].
  destruct (particleLoop s dt i (b2, randomCalls app)) as [m2 d2].
  cbn [fst snd] in *. subst d1 d2.
  exists b1', b2'. split; [exact Hb1|]. split; [exact Hb2|].
  assert (Hmid : sameParticle i m1 m2).
  { intros k Hk. cbv zeta.
    destruct (Hcell1 k Hk) as [(A1 & A2 & A3) _].
    destruct (Hcell2 k Hk) as [(B1 & B2 & B3) _].
    destruct (Hs k Hk) as (S1 & S2 & S3 & S4). cbv zeta in S1, S2, S3, S4.
    rewrite A1, A2, A3, B1, B2, B3, Hm1, Hm2. auto. }
  pose proof (particleStep_same s dt m1 m2
                (randomCalls app + length (seq 0 i) * colorDraws s) i Hmid
                ltac:(lia) ltac:(lia) ltac:(lia) ltac:(lia) ltac:(lia)
                ltac:(lia)) as Hstep.
  intros k Hk. cbv zeta.
  destruct (Hcell1 k Hk) as [_ (A1 & A2 & A3)].
  destruct (Hcell2 k Hk) as [_ (B1 & B2 & B3)].
  destruct (Hstep k Hk) as (S1 & S2 & S3 & S4). cbv zeta in S1, S2, S3, S4.
  rewrite A1, A2, A3, B1, B2, B3, Hh1, Hh2.
  destruct (Hs k Hk) as (_ & _ & S3' & _).
  repeat split; assumption.
Qed.

End WithHost.

Lemma example_sizes (b : Buffers) :
  b = restingBuffers \/ b = displacedBuffers -> wellSized b.
Proof.
  intros [-> | ->]; unfold wellSized;
    cbn [restingBuffers displacedBuffers positions velocities homePositions
           colors];
    unfold set, new_Float32Array;
    rewrite ?length_insert, !length_replicate; repeat split; reflexivity.
Qed.

Lemma particles_do_not_interact_witness :
  exists b1' b2' : Buffers,
    arrays (sceneState (animate (host := constantHost) 16
                          (runningApp restingBuffers true OPEN_HAND)))
    = Some b1' /\
    arrays (sceneState
              (animate (host := constantHost) 16
                 (withArrays displacedBuffers
                    (runningApp restingBuffers true OPEN_HAND))))
    = Some b2' /\
    sameParticle 1 b1' b2'.
Proof.
  assert (H1 : (1 < PARTICLE_COUNT)%nat) by (unfold PARTICLE_COUNT; lia).
  assert (Hs : sameParticle 1 restingBuffers displacedBuffers).
  { intros [|[|[|k]]] Hk; [| | |lia]; vm_compute; repeat split. }
  apply (particles_do_not_interact (host := constantHost) 16
           (runningApp restingBuffers true OPEN_HAND)
           (Vector3.mk 0 0 CAMERA_Z) restingBuffers displacedBuffers 1
           eq_refl eq_refl (example_sizes _ (or_introl eq_refl))
           (example_sizes _ (or_intror eq_refl)) H1).
  - discriminate.
  - exact Hs.
Defined.

End EngineProperties.

(** ** The pose part of a tick and the double-palm detector *)

Module PoseFacts.
Import JS GestureLogic HandParticlesScene Observations TickObservations.
Import FloatFacts ClassifierFacts SceneFacts TickFacts.
Local Open Scope float_scope.

Lemma detectGesture_not_double_palm (l : list HandLandmark.t) (g : Gesture) :
  detectGesture l = Normal g -> type g <> DOUBLE_PALM.
Proof.
  destruct (Nat.lt_ge_cases (length l) 21) as [Hs|Hl].
  - rewrite (detectGesture_short l Hs). now intros [= <-].
  - rewrite (detectGesture_complete l Hl).
    destruct (_ <? 0.05) eqn:Hp; intros [= <-]; [discriminate|].
    cbn [type]. now apply classify_not_pinch.
Qed.

(** The double-palm check fires at most once, only on two open hands and
    a positive timer, and leaves the timer unset when it fires; the timer
    it leaves is the old one, zero, or the time of the frame. *)
Lemma doublePalm_cases (f : Frame) (g1 g2 : Gesture) (timer : float) :
  let r := doublePalm f g1 g2 timer in
  (triggers (snd r) <= 1)%nat /\
  reported (snd r) = [] /\
  (triggers (snd r) = 1%nat ->
   fst r = 0 /\ (timer >? 0) = true /\
   type g1 = OPEN_HAND /\ type g2 = OPEN_HAND) /\
  (fst r = timer \/ fst r = 0 \/
   fst r = performance_now f /\ type g1 = OPEN_HAND /\ type g2 = OPEN_HAND).
Proof.
  unfold doublePalm.
  destruct (type g1), (type g2); cbn [GestureType_eqb andb];
    repeat match goal with
           | |- context [if ?c then _ else _] => destruct c eqn:?
           end;
    cbn [fst snd triggers reported flat_map List.filter isTrigger length app
           negb andb] in *;
    repeat split; auto; try lia; try discriminate;
    try (intros; discriminate); try (intros; lia); auto 6;
    match goal with
    | H : _ && _ = true |- _ => apply andb_true_iff in H; apply H
    end.
Qed.


Lemma gesture_eta (g : Gesture) : g = mkGesture (type g) (strength g).
Proof. now destruct g. Qed.

(** What the pose part of a tick can do to the timer, the fullscreen
    state and the gesture. *)
Lemma detectHands_cases (f : Frame) (s : SceneState) :
  let r := detectHands f s in
  (triggers (snd r) <= 1)%nat /\
  reported (snd r) = [] /\
  (triggers (snd r) = 1%nat ->
   doublePalmTimer (fst r) = 0 /\ (doublePalmTimer s >? 0) = true /\
   openPair f) /\
  (doublePalmTimer (fst r) = doublePalmTimer s \/
   twoHands f /\
   (doublePalmTimer (fst r) = 0 \/
    doublePalmTimer (fst r) = performance_now f /\ openPair f)) /\
  (gesture s <> DOUBLE_PALM -> gesture (fst r) <> DOUBLE_PALM).
Proof.
  unfold detectHands.
  destruct (detectForVideo f) as [results|] eqn:Hd;
    [|cbn; repeat split; auto; lia].
  destruct results as [|landmarks rest];
    [cbn; repeat split; auto; try lia; discriminate|].
  destruct (landmarks !! 9%nat) as [l9|];
    [|cbn; repeat split; auto; lia].
  destruct (detectGesture landmarks) as [g|] eqn:Hg;
    [|cbn; repeat split; auto; lia].
  pose proof (detectGesture_not_double_palm _ _ Hg) as Hnd.
  destruct rest as [|second [|third rest]];
    try (cbn; repeat split; auto; lia).
  destruct (detectGesture second) as [g2|] eqn:Hg2;
    [|cbn; repeat split; auto; lia].
  match goal with
  | |- context [doublePalm f g g2 ?t] =>
      destruct (doublePalm_cases f g g2 t) as (H1 & H2 & H3 & H4)
  end.
  cbv zeta in *.
  destruct (doublePalm f g g2 _) as [timer fx].
  cbn [fst snd doublePalmTimer set_doublePalmTimer set_gestureStrength
         set_gesture set_handPosition set_isHandPresent gesture] in *.
  assert (Hop : type g = OPEN_HAND /\ type g2 = OPEN_HAND -> openPair f).
  { intros [T1 T2]. exists landmarks, second, (strength g), (strength g2).
    rewrite <- T1 at 1. rewrite <- T2. rewrite <- !gesture_eta. auto. }
  assert (Htwo : twoHands f) by (exists landmarks, second; exact Hd).
  split; [exact H1|]. split; [exact H2|]. split; [|split].
  - intros Ht. destruct (H3 Ht) as (E0 & Ep & T1 & T2). auto.
  - destruct H4 as [H4|[H4|(H4 & T1 & T2)]]; auto.
    right. split; [exact Htwo|]. right. split; [exact H4|]. now apply Hop.
  - intros _. exact Hnd.
Qed.

Section WithHost.
Context {host : Host}.

(** A tick is its pose part, when it runs, followed by the notification
    and by [animate], which leaves the interaction state alone. *)
Lemma predict_unfold (f : Frame) (app : App) :
  let r := if ready f app then detectHands f (sceneState app)
           else (sceneState app, []) in
  let s' := sceneState (fst (predict f app)) in
  snd (predict f app)
  = (if ready f app then snd r ++ [onGestureChange (gesture (fst r))]
     else []) /\
  handPosition s' = handPosition (fst r) /\
  isHandPresent s' = isHandPresent (fst r) /\
  gesture s' = gesture (fst r) /\
  gestureStrength s' = gestureStrength (fst r) /\
  doublePalmTimer s' = doublePalmTimer (fst r) /\
  isStreamReady s' = isStreamReady (sceneState app).
Proof.
  unfold predict, ready.
  destruct (videoReady f && isStreamReady (sceneState app)).
  - destruct (detectHands_keeps f (sceneState app)) as (_ & _ & Hr).
    destruct (detectHands f (sceneState app)) as [s fx].
    cbn [fst snd] in *.
    match goal with
    | |- context [animate ?n ?a] =>
        destruct (animate_keeps n a) as (K1 & K2 & K3 & K4 & K5 & K6)
    end.
    cbn [sceneState] in *. repeat split; congruence.
  - cbn [fst snd].
    match goal with
    | |- context [animate ?n ?a] =>
        destruct (animate_keeps n a) as (K1 & K2 & K3 & K4 & K5 & K6)
    end.
    cbn [sceneState] in *. repeat split; congruence.
Qed.

Lemma triggers_app (fx fx' : list Effect) :
  triggers (fx ++ fx') = (triggers fx + triggers fx')%nat.
Proof. unfold triggers. now rewrite List.filter_app, length_app. Qed.

Lemma reported_app (fx fx' : list Effect) :
  reported (fx ++ fx') = reported fx ++ reported fx'.
Proof. unfold reported. apply flat_map_app. Qed.

Lemma run_cons (f : Frame) (frames : list Frame) (app : App) :
  fst (run (f :: frames) app) = fst (run frames (fst (predict f app))) /\
  snd (run (f :: frames) app)
  = snd (predict f app) ++ snd (run frames (fst (predict f app))).
Proof.
  cbn [run]. destruct (predict f app) as [app1 fx1].
  cbn [fst snd]. destruct (run frames app1) as [app2 fx2]. now split.
Qed.

End WithHost.

Lemma detectGesture_strength (l : list HandLandmark.t) (g : Gesture) :
  detectGesture l = Normal g ->
  (0 <=? strength g) = true /\ (strength g <=? 1) = true.
Proof.
  destruct (Nat.lt_ge_cases (length l) 21) as [Hs|Hl].
  - rewrite (detectGesture_short l Hs). intros [= <-]. now split.
  - rewrite (detectGesture_complete l Hl).
    destruct (_ <? 0.05) eqn:Hp; intros [= <-]; cbn [strength].
    + destruct (pinch_strength_bounds _ (pinchDistance_nonneg l Hp))
        as (H0 & H1 & _). now split.
    + destruct (ClassifierSpec.classify l); now split.
Qed.

Lemma detectHands_strength (f : Frame) (s : SceneState) :
  gestureStrength (fst (detectHands f s)) = gestureStrength s \/
  exists l g, detectGesture l = Normal g /\
              gestureStrength (fst (detectHands f s)) = strength g.
Proof.
  unfold detectHands.
  destruct (detectForVideo f) as [[|landmarks rest]|]; try (now left).
  destruct (landmarks !! 9%nat) as [l9|]; [|now left].
  destruct (detectGesture landmarks) as [g|] eqn:Hg; [|now left].
  right. exists landmarks, g. split; [exact Hg|].
  destruct rest as [|second [|third rest]]; try reflexivity.
  destruct (detectGesture second) as [g2|]; [|reflexivity].
  now destruct (doublePalm _ _ _ _).
Qed.

End PoseFacts.

Module TickProperties.
Import JS GestureLogic HandParticlesScene Observations TickObservations.
Import FloatFacts ClassifierFacts SceneFacts TickFacts PoseFacts Examples.
Local Open Scope float_scope.

Section WithHost.
Context {host : Host}.

(** X12. A frame on which the detection fails, by an exception of
    [detectForVideo] or by a first hand with fewer than ten landmarks,
    keeps the hand position, the gesture, its strength and the timer,
    fires nothing and reports the gesture of before; in the second case
    the hand already counts as present. *)
Theorem failed_detection_keeps_state (f : Frame) (app : App) :
  ready f app = true ->
  detectForVideo f = Throw \/
  (exists hand rest, detectForVideo f = Normal (hand :: rest) /\
                     (length hand < 10)%nat) ->
  let s := sceneState app in
  let s' := sceneState (fst (predict f app)) in
  snd (predict f app) = [onGestureChange (gesture s)] /\
  handPosition s' = handPosition s /\
  gesture s' = gesture s /\
  gestureStrength s' = gestureStrength s /\
  doublePalmTimer s' = doublePalmTimer s /\
  (detectForVideo f = Throw -> isHandPresent s' = isHandPresent s) /\
  (detectForVideo f <> Throw -> isHandPresent s' = true).
Proof.
  intros Hr Hd s s'.
  destruct (predict_unfold f app) as (E & K1 & K2 & K3 & K4 & K5 & _).
  rewrite Hr in *. cbv zeta in *. fold s s' in K1, K2, K3, K4, K5.
  rewrite E, K1, K2, K3, K4, K5. clear E K1 K2 K3 K4 K5.
  unfold detectHands. fold s.
  destruct Hd as [-> | (hand & rest & -> & Hl)].
  - cbn. repeat split; auto; intros H; now contradiction H.
  - rewrite (lookup_ge_None_2 hand 9) by lia. cbn.
    repeat split; auto; discriminate.
Qed.

(** X13. A frame with no hand in it takes the hand away and resets the
    gesture to NONE, which it reports; the hand position, the gesture
    strength and the double-palm timer stay as they were, and nothing
    fires. *)
Theorem no_hand_resets_gesture (f : Frame) (app : App) :
  ready f app = true ->
  detectForVideo f = Normal [] ->
  let s := sceneState app in
  let s' := sceneState (fst (predict f app)) in
  snd (predict f app) = [onGestureChange NONE] /\
  isHandPresent s' = false /\ gesture s' = NONE /\
  handPosition s' = handPosition s /\
  gestureStrength s' = gestureStrength s /\
  doublePalmTimer s' = doublePalmTimer s.
Proof.
  intros Hr Hd s s'.
  destruct (predict_unfold f app) as (E & K1 & K2 & K3 & K4 & K5 & _).
  rewrite Hr in *. cbv zeta in *. fold s s' in K1, K2, K3, K4, K5.
  rewrite E, K1, K2, K3, K4, K5. clear E K1 K2 K3 K4 K5.
  unfold detectHands. fold s. rewrite Hd. cbn. repeat split.
Qed.

Lemma predict_reported (f : Frame) (app : App) :
  reported (snd (predict f app))
  = if ready f app then [gesture (sceneState (fst (predict f app)))] else [].
Proof.
  destruct (predict_unfold f app) as (E & _ & _ & K3 & _).
  cbv zeta in *. rewrite E, K3. destruct (ready f app); [|reflexivity].
  destruct (detectHands_cases f (sceneState app)) as (_ & Hrep & _).
  cbv zeta in Hrep. now rewrite reported_app, Hrep.
Qed.

Lemma predict_stream (f : Frame) (app : App) :
  isStreamReady (sceneState (fst (predict f app)))
  = isStreamReady (sceneState app).
Proof. now destruct (predict_unfold f app) as (_ & _ & _ & _ & _ & _ & K). Qed.

(** X14. The parent hears of the gesture exactly once per frame whose
    pose part runs, and what it hears is the gesture the particles are
    then driven by; over a run that makes as many notifications as there
    are frames with a ready video, and none while the stream is not
    ready. *)
Theorem one_report_per_ready_frame (frames : list Frame) (f : Frame)
    (app : App) :
  reported (snd (predict f app))
  = (if ready f app then [gesture (sceneState (fst (predict f app)))]
     else []) /\
  length (reported (snd (run frames app)))
  = (if isStreamReady (sceneState app)
     then length (List.filter videoReady frames) else 0%nat).
Proof.
  split; [apply predict_reported|].
  revert app. induction frames as [|f' frames IH]; intros app.
  - cbn. now destruct (isStreamReady _).
  - destruct (run_cons f' frames app) as [_ ->].
    rewrite reported_app, length_app, IH, predict_reported, predict_stream.
    unfold ready. cbn [List.filter].
    destruct (videoReady f'), (isStreamReady (sceneState app));
      cbn [andb length]; lia.
Qed.

Lemma predict_gesture (f : Frame) (app : App) :
  gesture (sceneState app) <> DOUBLE_PALM ->
  gesture (sceneState (fst (predict f app))) <> DOUBLE_PALM.
Proof.
  intros Hg. destruct (predict_unfold f app) as (_ & _ & _ & K3 & _).
  cbv zeta in K3. rewrite K3. destruct (ready f app); [|exact Hg].
  now apply detectHands_cases.
Qed.

(** X15. DOUBLE_PALM is never a gesture of the scene: from a state whose
    gesture is another one (as the initial NONE), no run of frames makes
    it the current gesture or reports it to the parent. *)
Theorem double_palm_is_never_a_gesture (frames : list Frame) (app : App) :
  gesture (sceneState app) <> DOUBLE_PALM ->
  gesture (sceneState (fst (run frames app))) <> DOUBLE_PALM /\
  ~ In DOUBLE_PALM (reported (snd (run frames app))).
Proof.
  revert app. induction frames as [|f frames IH]; intros app Hg.
  - cbn. auto.
  - destruct (run_cons f frames app) as [-> ->].
    pose proof (predict_gesture f app Hg) as Hg1.
    destruct (IH _ Hg1) as [H1 H2]. split; [exact H1|].
    rewrite reported_app, in_app_iff, predict_reported.
    intros [H|H]; [|now apply H2].
    destruct (ready f app); cbn in H; [|exact H].
    destruct H as [H|[]]. now apply Hg1.
Qed.


Lemma predict_timer (f : Frame) (app : App) :
  let t := doublePalmTimer (sceneState app) in
  let t' := doublePalmTimer (sceneState (fst (predict f app))) in
  t' = t \/
  ready f app = true /\ twoHands f /\
  (t' = 0 \/ t' = performance_now f /\ openPair f).
Proof.
  destruct (predict_unfold f app) as (_ & _ & _ & _ & _ & K5 & _).
  cbv zeta in *. rewrite K5. destruct (ready f app); [|now left].
  destruct (detectHands_cases f (sceneState app)) as (_ & _ & _ & H & _).
  cbv zeta in H. destruct H as [H|[H1 H2]]; auto.
Qed.

Lemma predict_triggers (f : Frame) (app : App) :
  (triggers (snd (predict f app)) <= 1)%nat /\
  (triggers (snd (predict f app)) = 1%nat ->
   doublePalmTimer (sceneState (fst (predict f app))) = 0 /\
   (doublePalmTimer (sceneState app) >? 0) = true /\
   ready f app = true /\ openPair f).
Proof.
  destruct (predict_unfold f app) as (E & _ & _ & _ & _ & K5 & _).
  cbv zeta in *. rewrite E, K5. destruct (ready f app).
  - destruct (detectHands_cases f (sceneState app)) as (H1 & _ & H3 & _).
    cbv zeta in *. rewrite triggers_app. cbn [triggers List.filter isTrigger
      length] in *. rewrite Nat.add_0_r.
    split; [exact H1|]. intros Ht. destruct (H3 Ht) as (A & B & C). auto.
  - cbn. split; [lia | discriminate].
Qed.

(** X16. The double-palm timer only ever holds the value it started
    with, zero, or the time of a frame that showed two open hands. *)
Theorem timer_holds_an_open_pair_time (frames : list Frame) (app : App) :
  let t0 := doublePalmTimer (sceneState app) in
  let t := doublePalmTimer (sceneState (fst (run frames app))) in
  t = t0 \/ t = 0 \/
  exists f, In f frames /\ bothOpenHands f /\ t = performance_now f.
Proof.
  revert app. induction frames as [|f frames IH]; intros app; cbv zeta.
  - now left.
  - destruct (run_cons f frames app) as [-> _].
    destruct (IH (fst (predict f app))) as [H|[H|(f' & Hin & Hb & H)]].
    + rewrite H. destruct (predict_timer f app) as [H'|(Hr & _ & [H'|[H' Ho]])];
        auto.
      right. right. exists f. split; [now left|]. split; [|exact H'].
      split; [|exact Ho]. unfold ready in Hr.
      now apply andb_true_iff in Hr.
    + auto.
    + right. right. exists f'. split; [now right|]. auto.
Qed.

Lemma run_triggers (frames : list Frame) :
  forall app : App,
    (2 * triggers (snd (run frames app))
     <= length frames
        + (if doublePalmTimer (sceneState app) >? 0 then 1 else 0))%nat.
Proof.
  induction frames as [|f frames IH]; intros app.
  - cbn. lia.
  - destruct (run_cons f frames app) as [_ ->].
    rewrite triggers_app. cbn [length].
    destruct (predict_triggers f app) as [H1 H2].
    specialize (IH (fst (predict f app))).
    destruct (Nat.eq_dec (triggers (snd (predict f app))) 1%nat) as [E|E].
    + destruct (H2 E) as (T0 & Tp & _). rewrite T0 in IH. rewrite Tp.
      change (0 >? 0) with false in IH. cbv iota in IH |- *. lia.
    + destruct (doublePalmTimer (sceneState (fst (predict f app))) >? 0),
        (doublePalmTimer (sceneState app) >? 0); lia.
Qed.

(** X17. The fullscreen toggle is debounced: a frame fires it at most
    once, a frame that fires it leaves the timer unset, so that no two
    frames in a row fire; a run of n frames fires it at most (n + 1) / 2
    times, and at most n / 2 times from a timer that is not positive. *)
Theorem toggles_at_most_every_second_frame (frames : list Frame)
    (f : Frame) (app : App) :
  (triggers (snd (predict f app)) <= 1)%nat /\
  (triggers (snd (predict f app)) = 1%nat ->
   doublePalmTimer (sceneState (fst (predict f app))) = 0) /\
  (2 * triggers (snd (run frames app)) <= length frames + 1)%nat /\
  ((doublePalmTimer (sceneState app) >? 0) = false ->
   (2 * triggers (snd (run frames app)) <= length frames)%nat).
Proof.
  destruct (predict_triggers f app) as [H1 H2].
  pose proof (run_triggers frames app) as H3.
  split; [exact H1|]. split; [intros Ht; apply (H2 Ht)|].
  split; [destruct (_ >? 0); lia|].
  intros Hz. rewrite Hz in H3. lia.
Qed.

Lemma run_one (f : Frame) (app : App) :
  fst (run [f] app) = fst (predict f app) /\
  snd (run [f] app) = snd (predict f app).
Proof.
  cbn [run]. destruct (predict f app) as [app1 fx1]. cbn [fst snd].
  now rewrite app_nil_r.
Qed.

Lemma pair_induction {A : Type} (P : list A -> Prop) :
  P [] -> (forall a, P [a]) ->
  (forall a b l, P l -> P (a :: b :: l)) ->
  forall l, P l.
Proof.
  intros H0 H1 H2.
  assert (H : forall l, P l /\ forall a, P (a :: l)).
  { induction l as [|b l [IH1 IH2]]; split; auto. }
  intros l. apply H.
Qed.

(** A frame with two open hands and no window open starts one; with a
    window opened at a positive time less than a second ago it fires. *)
Lemma predict_open_pair (f : Frame) (app : App) :
  bothOpenHands f ->
  isStreamReady (sceneState app) = true ->
  let t := doublePalmTimer (sceneState app) in
  let app' := fst (predict f app) in
  isStreamReady (sceneState app') = true /\
  (t = 0 ->
   triggers (snd (predict f app)) = 0%nat /\
   doublePalmTimer (sceneState app') = performance_now f) /\
  ((t >? 0) = true -> (performance_now f - t <? 1000) = true ->
   triggers (snd (predict f app)) = 1%nat /\
   doublePalmTimer (sceneState app') = 0).
Proof.
  intros Hb Hs t app'.
  destruct (predict_both_open f app Hb Hs) as (s1 & s2 & E & T & S).
  cbv zeta in E, T. fold t in E, T. unfold app'. rewrite E, T, triggers_app.
  split; [exact S|]. unfold doublePalm.
  cbn [type GestureType_eqb andb]. split.
  - intros ->. change (0 >? 0) with false. rewrite andb_false_r.
    change (0 =? 0) with true. now cbn.
  - intros Hp Hw. rewrite Hp, Hw. cbn [andb fst snd].
    now destruct (negb _).
Qed.

(** X18. Two palms held open toggle fullscreen again and again: over
    frames that all show both hands open, at positive times and less than
    a second apart two by two, the toggle fires on every second frame. *)
Theorem held_palms_toggle_every_second_frame (frames : list Frame)
    (app : App) :
  isStreamReady (sceneState app) = true ->
  doublePalmTimer (sceneState app) = 0 ->
  heldOpen frames ->
  triggers (snd (run frames app)) = Nat.div2 (length frames).
Proof.
  revert app. induction frames as [|f0|f0 f1 frames IH] using pair_induction;
    intros app Hs Ht Hh.
  - reflexivity.
  - destruct (run_one f0 app) as [_ ->].
    destruct (predict_open_pair f0 app Hh Hs) as (_ & H0 & _).
    now destruct (H0 Ht) as [-> _].
  - destruct Hh as (B0 & B1 & Hp & Hw & Hrest).
    destruct (run_cons f0 (f1 :: frames) app) as [_ ->].
    destruct (run_cons f1 frames (fst (predict f0 app))) as [_ ->].
    destruct (predict_open_pair f0 app B0 Hs) as (S0 & H0 & _).
    destruct (H0 Ht) as [T0 E0].
    destruct (predict_open_pair f1 _ B1 S0) as (S1 & _ & H1).
    rewrite E0 in H1. destruct (H1 Hp Hw) as [T1 E1].
    rewrite !triggers_app, T0, T1, (IH _ S1 E1 Hrest). reflexivity.
Qed.

Lemma run_app (l l' : list Frame) :
  forall app : App,
    fst (run (l ++ l') app) = fst (run l' (fst (run l app))) /\
    snd (run (l ++ l') app)
    = snd (run l app) ++ snd (run l' (fst (run l app))).
Proof.
  induction l as [|f l IH]; intros app.
  - cbn [List.app run fst snd]. now split.
  - rewrite <- app_comm_cons.
    destruct (run_cons f (l ++ l') app) as [-> ->].
    destruct (run_cons f l app) as [-> ->].
    destruct (IH (fst (predict f app))) as [-> ->].
    now rewrite app_assoc.
Qed.

Lemma run_without_two_hands (frames : list Frame) :
  Forall (fun f => ~ twoHands f) frames ->
  forall app : App,
    doublePalmTimer (sceneState (fst (run frames app)))
    = doublePalmTimer (sceneState app) /\
    triggers (snd (run frames app)) = 0%nat /\
    isStreamReady (sceneState (fst (run frames app)))
    = isStreamReady (sceneState app).
Proof.
  induction 1 as [|f frames Hf _ IH]; intros app.
  - now cbn.
  - destruct (run_cons f frames app) as [-> ->].
    destruct (IH (fst (predict f app))) as (-> & Ht & ->).
    rewrite triggers_app, Ht, predict_stream.
    destruct (predict_timer f app) as [->|(_ & H2 & _)];
      [|now contradiction Hf].
    destruct (predict_triggers f app) as [H1 H3].
    split; [reflexivity|]. split; [|reflexivity].
    destruct (Nat.eq_dec (triggers (snd (predict f app))) 1%nat) as [E|E]; [|lia].
    destruct (H3 E) as (_ & _ & _ & (a & b & s1 & s2 & Hd & _)).
    contradiction Hf. now exists a, b.
Qed.

(** X19. The window survives frames that do not show two hands: after
    two open hands at a positive time, any number of frames with no hand,
    one hand or a failed detection leave the timer alone, and two open
    hands less than a second after the first pair still fire, once. *)
Theorem window_survives_other_frames (f0 f1 : Frame) (mid : list Frame)
    (app : App) :
  isStreamReady (sceneState app) = true ->
  doublePalmTimer (sceneState app) = 0 ->
  bothOpenHands f0 -> bothOpenHands f1 ->
  Forall (fun f => ~ twoHands f) mid ->
  (performance_now f0 >? 0) = true ->
  (performance_now f1 - performance_now f0 <? 1000) = true ->
  doublePalmTimer (sceneState (fst (run (f0 :: mid) app)))
  = performance_now f0 /\
  triggers (snd (run (f0 :: mid) app)) = 0%nat /\
  triggers (snd (run (f0 :: mid ++ [f1]) app)) = 1%nat.
Proof.
  intros Hs Ht B0 B1 Hmid Hp Hw.
  destruct (predict_open_pair f0 app B0 Hs) as (S0 & H0 & _).
  destruct (H0 Ht) as [T0 E0].
  destruct (run_without_two_hands mid Hmid (fst (predict f0 app)))
    as (Em & Tm & Sm).
  destruct (run_cons f0 mid app) as [R1 R2].
  assert (G1 : doublePalmTimer (sceneState (fst (run (f0 :: mid) app)))
               = performance_now f0) by (rewrite R1; congruence).
  assert (G2 : triggers (snd (run (f0 :: mid) app)) = 0%nat)
    by (rewrite R2, triggers_app; lia).
  split; [exact G1|]. split; [exact G2|].
  rewrite app_comm_cons.
  destruct (run_app (f0 :: mid) [f1] app) as [_ ->].
  rewrite triggers_app, G2.
  destruct (run_one f1 (fst (run (f0 :: mid) app))) as [_ ->].
  assert (S1 : isStreamReady (sceneState (fst (run (f0 :: mid) app))) = true)
    by (rewrite R1; congruence).
  destruct (predict_open_pair f1 _ B1 S1) as (_ & _ & H1).
  rewrite G1 in H1. now destruct (H1 Hp Hw) as [-> _].
Qed.

End WithHost.

Lemma frameAt_open_pair (now : float) :
  bothOpenHands (frameAt now [openHand; openHand]).
Proof.
  split; [reflexivity|]. exists openHand, openHand, 1, 1.
  repeat split; reflexivity.
Qed.

Lemma failed_detection_keeps_state_witness :
  snd (predict (host := constantHost)
         (mkFrame true Throw 16 false 16) (idleApp 0))
  = [onGestureChange NONE].
Proof.
  apply (failed_detection_keeps_state (host := constantHost)
           (mkFrame true Throw 16 false 16) (idleApp 0) eq_refl
           (or_introl eq_refl)).
Defined.

Lemma no_hand_resets_gesture_witness :
  snd (predict (host := constantHost) (frameAt 16 [])
         (runningApp restingBuffers true OPEN_HAND))
  = [onGestureChange NONE].
Proof.
  apply (no_hand_resets_gesture (host := constantHost) (frameAt 16 [])
           (runningApp restingBuffers true OPEN_HAND) eq_refl eq_refl).
Defined.

Lemma double_palm_is_never_a_gesture_witness :
  gesture (sceneState
             (fst (run (host := constantHost)
                     [frameAt 1000 [openHand; openHand];
                      frameAt 1500 [openHand; openHand]] (idleApp 0))))
  <> DOUBLE_PALM /\
  ~ In DOUBLE_PALM
      (reported (snd (run (host := constantHost)
                        [frameAt 1000 [openHand; openHand];
                         frameAt 1500 [openHand; openHand]] (idleApp 0)))).
Proof.
  apply (double_palm_is_never_a_gesture (host := constantHost)
           [frameAt 1000 [openHand; openHand];
            frameAt 1500 [openHand; openHand]] (idleApp 0)).
  discriminate.
Defined.

Lemma held_palms_toggle_every_second_frame_witness :
  triggers (snd (run (host := constantHost)
                   [frameAt 1000 [openHand; openHand];
                    frameAt 1016 [openHand; openHand];
                    frameAt 1033 [openHand; openHand];
                    frameAt 1050 [openHand; openHand]] (idleApp 0)))
  = 2%nat.
Proof.
  apply (held_palms_toggle_every_second_frame (host := constantHost)
           [frameAt 1000 [openHand; openHand];
            frameAt 1016 [openHand; openHand];
            frameAt 1033 [openHand; openHand];
            frameAt 1050 [openHand; openHand]] (idleApp 0) eq_refl eq_refl).
  repeat split; try apply frameAt_open_pair; reflexivity.
Defined.

Lemma window_survives_other_frames_witness :
  triggers (snd (run (host := constantHost)
                   (frameAt 1000 [openHand; openHand]
                    :: [frameAt 1100 []; frameAt 1200 [openHand]]
                    ++ [frameAt 1500 [openHand; openHand]]) (idleApp 0)))
  = 1%nat.
Proof.
  apply (window_survives_other_frames (host := constantHost)
           (frameAt 1000 [openHand; openHand])
           (frameAt 1500 [openHand; openHand])
           [frameAt 1100 []; frameAt 1200 [openHand]] (idleApp 0)
           eq_refl eq_refl (frameAt_open_pair 1000) (frameAt_open_pair 1500)).
  - repeat constructor; intros (a & b & H); discriminate H.
  - reflexivity.
  - reflexivity.
Defined.

Section WithHost.
Context {host : Host}.

(** X20. The gesture strength stays between 0 and 1: a tick keeps it or
    takes it from the classifier, so that from a strength in that range
    every run ends with one. *)
Theorem strength_stays_in_unit_interval (frames : list Frame) (app : App) :
  let inUnit (v : float) := (0 <=? v) = true /\ (v <=? 1) = true in
  inUnit (gestureStrength (sceneState app)) ->
  inUnit (gestureStrength (sceneState (fst (run frames app)))).
Proof.
  cbv zeta. revert app.
  induction frames as [|f frames IH]; intros app Hu; [exact Hu|].
  destruct (run_cons f frames app) as [-> _]. apply IH.
  destruct (predict_unfold f app) as (_ & _ & _ & _ & K4 & _).
  cbv zeta in K4. rewrite K4. destruct (ready f app); [|exact Hu].
  destruct (detectHands_strength f (sceneState app)) as [->|(l & g & Hg & ->)];
    [exact Hu | now apply (detectGesture_strength l)].
Qed.

End WithHost.

Lemma strength_stays_in_unit_interval_witness :
  (0 <=? gestureStrength
           (sceneState
              (fst (run (host := constantHost)
                      [frameAt 16 [pinchAt 0.01]; frameAt 32 []]
                      (idleApp 0))))) = true /\
  (gestureStrength
     (sceneState
        (fst (run (host := constantHost)
                [frameAt 16 [pinchAt 0.01]; frameAt 32 []] (idleApp 0))))
   <=? 1) = true.
Proof.
  apply (strength_stays_in_unit_interval (host := constantHost)
           [frameAt 16 [pinchAt 0.01]; frameAt 32 []] (idleApp 0)).
  split; reflexivity.
Defined.

Section WithHost.
Context {host : Host}.

(** X21. An incomplete hand is a hand with no gesture: a single hand of
    ten to twenty landmarks moves the hand position a fifth of the way
    to where its joint 9 points, counts as present, and sets the gesture
    to NONE with strength 0, which is what the parent is told. *)
Theorem incomplete_hand_has_no_gesture (f : Frame) (app : App)
    (hand : list HandLandmark.t) (l9 : HandLandmark.t) :
  ready f app = true ->
  detectForVideo f = Normal [hand] ->
  hand !! 9%nat = Some l9 ->
  (length hand < 21)%nat ->
  let s := sceneState app in
  let s' := sceneState (fst (predict f app)) in
  let targetPos :=
    Vector3.mk ((0.5 - HandLandmark.x l9) * BOUNDS * 2.5)
      ((0.5 - HandLandmark.y l9) * BOUNDS * 2.5)
      (- HandLandmark.z l9 * BOUNDS * 2) in
  snd (predict f app) = [onGestureChange NONE] /\
  isHandPresent s' = true /\ gesture s' = NONE /\ gestureStrength s' = 0 /\
  handPosition s' = Vector3.lerp (handPosition s) targetPos 0.2 /\
  doublePalmTimer s' = doublePalmTimer s.
Proof.
  intros Hr Hd H9 Hl s s' targetPos.
  destruct (predict_unfold f app) as (E & K1 & K2 & K3 & K4 & K5 & _).
  rewrite Hr in *. cbv zeta in *. unfold s', s.
  rewrite E, K1, K2, K3, K4, K5. clear E K1 K2 K3 K4 K5.
  rewrite (detectHands_one_hand f (sceneState app) hand l9
             (mkGesture NONE 0) Hd H9 (detectGesture_short hand Hl)).
  repeat split; reflexivity.
Qed.

End WithHost.

Lemma incomplete_hand_has_no_gesture_witness :
  snd (predict (host := constantHost) (frameAt 16 [firstn 12 openHand])
         (idleApp 0))
  = [onGestureChange NONE].
Proof.
  apply (incomplete_hand_has_no_gesture (host := constantHost)
           (frameAt 16 [firstn 12 openHand]) (idleApp 0)
           (firstn 12 openHand) (P 0 0.05 0) eq_refl eq_refl eq_refl).
  cbn. lia.
Defined.

End TickProperties.

(** ** Building the scene *)

Module InitFacts.
Import JS GestureLogic HandParticlesScene Observations.
Import FloatFacts SceneFacts TickFacts.
Local Open Scope float_scope.

Section WithHost.
Context {host : Host}.

Lemma initParticle_draws (acc : Buffers * nat) (i : nat) :
  snd (initParticle acc i) = (snd acc + 4)%nat.
Proof.
  destruct acc as [b d]. unfold initParticle.
  now destruct (Color_gradient _) as [[cr cg] cb].
Qed.

Lemma initLoop_draws (l : list nat) :
  forall acc : Buffers * nat,
    snd (fold_left initParticle l acc) = (snd acc + 4 * length l)%nat.
Proof.
  induction l as [|i l IH]; intros acc; cbn [fold_left length]; [lia|].
  rewrite IH, initParticle_draws. lia.
Qed.

(** The seeding writes the same numbers to the positions and to the home
    positions, and zeros to the velocities. *)
Lemma initParticle_home (acc : Buffers * nat) (i : nat) (n : nat) :
  positions (fst acc) = homePositions (fst acc) ->
  velocities (fst acc) = new_Float32Array n ->
  positions (fst (initParticle acc i)) = homePositions (fst (initParticle acc i))
  /\ velocities (fst (initParticle acc i)) = new_Float32Array n.
Proof.
  destruct acc as [b d]. cbn [fst]. intros Hp Hv. unfold initParticle.
  destruct (Color_gradient _) as [[cr cg] cb].
  cbn [fst positions homePositions velocities]. rewrite Hp, Hv.
  split; [reflexivity|].
  unfold set, new_Float32Array. change (Math_fround 0) with 0.
  now rewrite !insert_replicate.
Qed.

Lemma initLoop_home (l : list nat) (n : nat) :
  forall acc : Buffers * nat,
    positions (fst acc) = homePositions (fst acc) ->
    velocities (fst acc) = new_Float32Array n ->
    positions (fst (fold_left initParticle l acc))
    = homePositions (fst (fold_left initParticle l acc)) /\
    velocities (fst (fold_left initParticle l acc)) = new_Float32Array n.
Proof.
  induction l as [|i l IH]; intros acc Hp Hv; cbn [fold_left]; [now split|].
  destruct (initParticle_home acc i n Hp Hv) as [Hp' Hv'].
  now apply IH.
Qed.

Lemma initParticle_colors_other (acc : Buffers * nat) (i j : nat) :
  (j < i * 3 \/ i * 3 + 2 < j)%nat ->
  get (colors (fst (initParticle acc i))) j = get (colors (fst acc)) j.
Proof.
  intros Hj. destruct acc as [b d]. unfold initParticle.
  destruct (Color_gradient _) as [[cr cg] cb]. cbn [fst colors].
  now apply get_set3_other.
Qed.

Lemma initLoop_colors_other (j : nat) (l : list nat) :
  (forall i, In i l -> j < i * 3 \/ i * 3 + 2 < j)%nat ->
  forall acc : Buffers * nat,
    get (colors (fst (fold_left initParticle l acc))) j
    = get (colors (fst acc)) j.
Proof.
  induction l as [|i l IH]; intros Hl acc; cbn [fold_left]; [reflexivity|].
  rewrite IH by (intros i' Hi'; apply Hl; now right).
  apply initParticle_colors_other. apply Hl. now left.
Qed.

Lemma initLoop_lengths (l : list nat) :
  forall acc : Buffers * nat,
    length (positions (fst (fold_left initParticle l acc)))
    = length (positions (fst acc)) /\
    length (colors (fst (fold_left initParticle l acc)))
    = length (colors (fst acc)).
Proof.
  induction l as [|i l IH]; intros acc; cbn [fold_left]; [now split|].
  destruct (IH (initParticle acc i)) as [-> ->].
  destruct (initParticle_lengths acc i) as (H1 & _ & _ & H4).
  cbv zeta in *. now split.
Qed.

(** What the seeding step of particle [i] writes to its cells. *)
Lemma initParticle_cells (b : Buffers) (d i : nat) :
  (i * 3 + 2 < length (positions b))%nat ->
  (i * 3 + 2 < length (colors b))%nat ->
  let r := BOUNDS * Math_cbrt (Math_random d) in
  let theta := Math_random (d + 1) * 2 * Math_PI in
  let phi := Math_acos (2 * Math_random (d + 2) - 1) in
  let c := Color_gradient (Math_random (d + 3)) in
  let b' := fst (initParticle (b, d) i) in
  (get (positions b') (i * 3) = Math_fround (r * Math_sin phi * Math_cos theta)
   /\ get (positions b') (i * 3 + 1)
      = Math_fround (r * Math_sin phi * Math_sin theta)
   /\ get (positions b') (i * 3 + 2) = Math_fround (r * Math_cos phi)) /\
  (get (colors b') (i * 3) = Math_fround (fst (fst c)) /\
   get (colors b') (i * 3 + 1) = Math_fround (snd (fst c)) /\
   get (colors b') (i * 3 + 2) = Math_fround (snd c)).
Proof.
  intros Hp Hc r theta phi c b'. unfold b', initParticle.
  fold r theta phi c. destruct c as [[cr cg] cb].
  cbn [fst snd positions colors].
  split; now apply get_set3.
Qed.

(** The seeding loop, seen from particle [i]. *)
Lemma initLoop_at (n i : nat) (b : Buffers) (d : nat) :
  (i < n)%nat ->
  (n * 3 <= length (positions b))%nat ->
  (n * 3 <= length (colors b))%nat ->
  let d' := (d + 4 * i)%nat in
  let r := BOUNDS * Math_cbrt (Math_random d') in
  let theta := Math_random (d' + 1) * 2 * Math_PI in
  let phi := Math_acos (2 * Math_random (d' + 2) - 1) in
  let c := Color_gradient (Math_random (d' + 3)) in
  let b' := fst (fold_left initParticle (seq 0 n) (b, d)) in
  (get (positions b') (i * 3) = Math_fround (r * Math_sin phi * Math_cos theta)
   /\ get (positions b') (i * 3 + 1)
      = Math_fround (r * Math_sin phi * Math_sin theta)
   /\ get (positions b') (i * 3 + 2) = Math_fround (r * Math_cos phi)) /\
  (get (colors b') (i * 3) = Math_fround (fst (fst c)) /\
   get (colors b') (i * 3 + 1) = Math_fround (snd (fst c)) /\
   get (colors b') (i * 3 + 2) = Math_fround (snd c)).
Proof.
  intros Hi Lp Lc d' r theta phi c b'. unfold b'.
  replace n with (i + (1 + (n - i - 1)))%nat by lia.
  rewrite !seq_app, !fold_left_app. cbn [seq fold_left].
  change (0 + i)%nat with i.
  assert (Hafter : forall i', In i' (seq (i + 1) (n - i - 1)) ->
            forall k, (k < 3)%nat ->
              (i * 3 + k < i' * 3 \/ i' * 3 + 2 < i * 3 + k)%nat).
  { intros i' Hi' k Hk. apply in_seq in Hi'. lia. }
  pose proof (initLoop_draws (seq 0 i) (b, d)) as Hd.
  destruct (initLoop_lengths (seq 0 i) (b, d)) as [Lp' Lc'].
  rewrite length_seq in Hd. cbn [fst snd] in Hd, Lp', Lc'.
  destruct (fold_left initParticle (seq 0 i) (b, d)) as [mid dm].
  cbn [fst snd] in Hd, Lp', Lc'. subst dm. fold d'.
  destruct (initParticle_cells mid d' i) as [(P0 & P1 & P2) (C0 & C1 & C2)];
    [lia | lia |].
  cbv zeta in P0, P1, P2, C0, C1, C2. fold r theta phi c in P0, P1, P2, C0, C1, C2.
  pose proof (fun k Hk => initLoop_other (i * 3 + k)
                (seq (i + 1) (n - i - 1))
                (fun i' Hi' => Hafter i' Hi' k Hk)
                (initParticle (mid, d') i)) as Fp.
  pose proof (fun k Hk => initLoop_colors_other (i * 3 + k)
                (seq (i + 1) (n - i - 1))
                (fun i' Hi' => Hafter i' Hi' k Hk)
                (initParticle (mid, d') i)) as Fc.
  pose proof (Fp 0%nat ltac:(lia)) as Fp0. rewrite Nat.add_0_r in Fp0.
  pose proof (Fc 0%nat ltac:(lia)) as Fc0. rewrite Nat.add_0_r in Fc0.
  rewrite Fp0, (Fp 1%nat), (Fp 2%nat), Fc0, (Fc 1%nat), (Fc 2%nat) by lia.
  repeat split; assumption.
Qed.

End WithHost.

End InitFacts.

Module InitProperties.
Import JS GestureLogic HandParticlesScene Observations.
Import FloatFacts SceneFacts TickFacts InitFacts Examples.
Local Open Scope float_scope.

Section WithHost.
Context {host : Host}.

(** X22. [initThree] builds the scene once: without a container it does
    nothing, on a built scene it does nothing, so calling it again
    changes nothing. *)
Theorem initThree_builds_once (container : bool) (app : App) :
  initThree false app = app /\
  (camera app <> None -> initThree container app = app) /\
  initThree container (initThree container app) = initThree container app.
Proof.
  split; [reflexivity|]. split.
  - intros Hc. unfold initThree. destruct container; [|reflexivity].
    cbn [negb]. destruct (camera app); [reflexivity | now contradiction Hc].
  - destruct container; [|reflexivity].
    destruct (camera app) as [cam|] eqn:Hc.
    + unfold initThree. cbn [negb]. now rewrite !Hc.
    + destruct (initThree_first_particle app Hc) as (b0 & d' & -> & _).
      reflexivity.
Qed.

(** X23. Every particle starts at its home and at rest: the scene
    [initThree] builds has its positions equal to its home positions and
    all its velocities zero; it has drawn four random numbers per
    particle. *)
Theorem particles_start_at_home (app : App) :
  camera app = None ->
  exists b0 : Buffers,
    arrays (sceneState (initThree true app)) = Some b0 /\
    positions b0 = homePositions b0 /\
    velocities b0 = new_Float32Array (PARTICLE_COUNT * 3) /\
    (forall j, (j < PARTICLE_COUNT * 3)%nat -> get (velocities b0) j = 0) /\
    randomCalls (initThree true app)
    = (randomCalls app + 4 * PARTICLE_COUNT)%nat.
Proof.
  intros Hc. unfold initThree. cbn [negb]. rewrite Hc.
  match goal with
  | |- context [fold_left initParticle ?l ?acc] =>
      destruct (initLoop_home l (PARTICLE_COUNT * 3) acc eq_refl eq_refl)
        as [Hp Hv];
      pose proof (initLoop_draws l acc) as Hd;
      destruct (fold_left initParticle l acc) as [b0 d']
  end.
  rewrite length_seq in Hd. cbn [fst snd] in Hp, Hv, Hd.
  exists b0. cbn [sceneState arrays set_arrays randomCalls].
  split; [reflexivity|]. split; [exact Hp|]. split; [exact Hv|].
  split; [|exact Hd].
  intros j Hj. rewrite Hv. unfold get, new_Float32Array.
  now rewrite (lookup_replicate_2 (PARTICLE_COUNT * 3) 0 j Hj).
Qed.

(** X24. Particle [i] is seeded from its own four random numbers, the
    draws 4i to 4i + 3 of the seeding: a radius BOUNDS * cbrt(u0), the
    angles 2 pi u1 and acos(2 u2 - 1), and the gradient color at u3. *)
Theorem particle_seed (app : App) (i : nat) :
  camera app = None ->
  (i < PARTICLE_COUNT)%nat ->
  let d := (randomCalls app + 4 * i)%nat in
  let r := BOUNDS * Math_cbrt (Math_random d) in
  let theta := Math_random (d + 1) * 2 * Math_PI in
  let phi := Math_acos (2 * Math_random (d + 2) - 1) in
  let c := Color_gradient (Math_random (d + 3)) in
  exists b0 : Buffers,
    arrays (sceneState (initThree true app)) = Some b0 /\
    (get (positions b0) (i * 3)
     = Math_fround (r * Math_sin phi * Math_cos theta) /\
     get (positions b0) (i * 3 + 1)
     = Math_fround (r * Math_sin phi * Math_sin theta) /\
     get (positions b0) (i * 3 + 2) = Math_fround (r * Math_cos phi)) /\
    (get (colors b0) (i * 3) = Math_fround (fst (fst c)) /\
     get (colors b0) (i * 3 + 1) = Math_fround (snd (fst c)) /\
     get (colors b0) (i * 3 + 2) = Math_fround (snd c)).
Proof.
  intros Hc Hi d r theta phi c. unfold initThree. cbn [negb]. rewrite Hc.
  match goal with
  | |- context [fold_left initParticle (seq 0 ?n) (?b, ?d0)] =>
      pose proof (initLoop_at n i b d0 Hi) as H
  end.
  cbn [positions colors] in H. unfold new_Float32Array in H at 1 2.
  rewrite length_replicate in H.
  specialize (H (Nat.le_refl _) (Nat.le_refl _)).
  cbv zeta in H. fold d r theta phi c in H.
  destruct (fold_left initParticle _ _) as [b0 d'].
  exists b0. cbn [sceneState arrays set_arrays fst] in *.
  split; [reflexivity | exact H].
Qed.

End WithHost.

Lemma particles_start_at_home_witness :
  exists b0 : Buffers,
    arrays (sceneState (initThree (host := constantHost) true (idleApp 0)))
    = Some b0 /\
    positions b0 = homePositions b0.
Proof.
  destruct (particles_start_at_home (host := constantHost) (idleApp 0) eq_refl)
    as (b0 & H0 & Hp & _).
  exists b0. now split.
Defined.

Lemma particle_seed_witness :
  exists b0 : Buffers,
    arrays (sceneState (initThree (host := constantHost) true (idleApp 0)))
    = Some b0 /\
    get (positions b0) 3 = 0 /\ get (colors b0) 3 = 1.
Proof.
  assert (H1 : (1 < PARTICLE_COUNT)%nat) by (unfold PARTICLE_COUNT; lia).
  destruct (particle_seed (host := constantHost) (idleApp 0) 1 eq_refl H1)
    as (b0 & H0 & (P0 & _) & (C0 & _)).
  exists b0. split; [exact H0|].
  split; (etransitivity; [eassumption | vm_compute; reflexivity]).
Defined.

End InitProperties.

(** ** The camera list and the overlay *)

Module InterfaceProperties.
Import JS GestureLogic MediaDevices Overlay.
Import ClassifierFacts PoseFacts.
Import String.StringSyntax.
Local Open Scope string_scope.

(** X25. The camera list holds the video inputs and nothing else: one
    entry per device of kind videoinput, in the order of the
    enumeration, under the identifier of the device. *)
Theorem videoDevices_are_the_video_inputs (devices : list MediaDeviceInfo) :
  List.map CameraDevice.deviceId (videoDevices devices)
  = List.map deviceId
      (List.filter (fun d => String.eqb (kind d) "videoinput") devices) /\
  (length (videoDevices devices) <= length devices)%nat /\
  (forall c, In c (videoDevices devices) ->
     exists d, In d devices /\ kind d = "videoinput" /\
               CameraDevice.deviceId c = deviceId d).
Proof.
  unfold videoDevices. split; [|split].
  - rewrite List.map_map. reflexivity.
  - rewrite length_map. apply List.filter_length_le.
  - intros c Hc. apply in_map_iff in Hc as (d & <- & Hd).
    apply List.filter_In in Hd as [Hd Hk]. apply String.eqb_eq in Hk.
    exists d. auto.
Qed.

Lemma String_or_nonempty (a b : String.string) :
  b <> String.EmptyString -> String_or a b <> String.EmptyString.
Proof.
  intros Hb. unfold String_or.
  destruct (String.eqb a "") eqn:Ha; [exact Hb|].
  now apply String.eqb_neq in Ha.
Qed.

Lemma substring_0_length (n : nat) (s : String.string) :
  (String.length (String.substring 0 n s) <= n)%nat.
Proof.
  revert s. induction n as [|n IH]; intros [|c s]; cbn; try lia.
  specialize (IH s). lia.
Qed.

Lemma append_length (s t : String.string) :
  String.length (String.append s t)
  = (String.length s + String.length t)%nat.
Proof. induction s as [|c s IH]; cbn; [reflexivity | now rewrite IH]. Qed.

Lemma videoDevices_label_nonempty (devices : list MediaDeviceInfo)
    (c : CameraDevice.t) :
  In c (videoDevices devices) -> CameraDevice.label c <> String.EmptyString.
Proof.
  unfold videoDevices. intros Hc.
  apply in_map_iff in Hc as (d & <- & _). cbn [CameraDevice.label].
  apply String_or_nonempty. discriminate.
Qed.

(** X26. No entry of the camera list has an empty label: a device keeps
    its label when it has one, and is otherwise called "Camera ", the
    first five characters of its identifier and "...", which makes ten to
    fifteen characters. *)
Theorem camera_labels_are_never_empty (devices : list MediaDeviceInfo)
    (c : CameraDevice.t) :
  In c (videoDevices devices) ->
  CameraDevice.label c <> String.EmptyString /\
  exists d, In d devices /\ CameraDevice.deviceId c = deviceId d /\
    (label d <> String.EmptyString -> CameraDevice.label c = label d) /\
    (label d = String.EmptyString ->
     CameraDevice.label c
     = String.append "Camera "
         (String.append (String.substring 0 5 (deviceId d)) "...") /\
     (10 <= String.length (CameraDevice.label c) <= 15)%nat).
Proof.
  intros Hc. split; [now apply (videoDevices_label_nonempty devices)|].
  unfold videoDevices in Hc.
  apply in_map_iff in Hc as (d & <- & Hd).
  apply List.filter_In in Hd as [Hd _]. cbn [CameraDevice.label].
  exists d. split; [exact Hd|]. split; [reflexivity|].
  unfold String_or, String_slice_0. split.
  - intros Hl. apply String.eqb_neq in Hl. now rewrite Hl.
  - intros ->. cbn [String.eqb]. split; [reflexivity|].
    rewrite !append_length.
    pose proof (substring_0_length 5 (deviceId d)). cbn [String.length]. lia.
Qed.

Lemma camera_labels_are_never_empty_witness :
  videoDevices [mkInfo "audioinput" "mic" "Microphone";
                mkInfo "videoinput" "0123456789abcdef" ""]
  = [CameraDevice.mk "0123456789abcdef" "Camera 01234..."] /\
  CameraDevice.label (CameraDevice.mk "0123456789abcdef" "Camera 01234...")
  <> String.EmptyString.
Proof.
  split; [reflexivity|].
  apply (camera_labels_are_never_empty
           [mkInfo "audioinput" "mic" "Microphone";
            mkInfo "videoinput" "0123456789abcdef" ""]).
  cbn. now left.
Defined.

Lemma listDevices_cases (flag : bool)
    (e : Completion (list MediaDeviceInfo)) :
  listDevices flag e
  = match flag, e with
    | false, Normal devices => (true, [videoDevices devices])
    | _, _ => (flag, [])
    end.
Proof. now destruct flag, e. Qed.

(** X27. The parent is told of the cameras at most once: over any
    sequence of [loadeddata] events handled one after the other nothing
    is listed once the flag is set, a failed enumeration leaves the flag
    as it is, so that the next event tries again, and the first
    enumeration that succeeds is the one and only list handed to
    [onCamerasFound]. *)
Theorem cameras_are_listed_once
    (events : list (Completion (list MediaDeviceInfo))) (flag : bool) :
  (length (snd (loads events flag)) <= 1)%nat /\
  (flag = true -> loads events flag = (true, [])) /\
  (Forall (fun e => e = Throw) events -> loads events flag = (flag, [])) /\
  (forall failed devices rest,
     flag = false -> Forall (fun e => e = Throw) failed ->
     events = (failed ++ Normal devices :: rest)%list ->
     loads events flag = (true, [videoDevices devices])).
Proof.
  assert (Hset : forall evs, loads evs true = (true, [])).
  { induction evs as [|e evs IH]; [reflexivity|].
    cbn [loads]. rewrite listDevices_cases, IH. reflexivity. }
  assert (Hfail : forall evs fl, Forall (fun e => e = Throw) evs ->
                                 loads evs fl = (fl, [])).
  { induction 1 as [|e evs -> _ IH]; [reflexivity|].
    cbn [loads]. rewrite listDevices_cases.
    replace (match fl with true | false => (fl, [])  end)
      with (fl, @nil (list CameraDevice.t)) by now destruct fl.
    now rewrite IH. }
  assert (Hfirst : forall failed devices rest,
            Forall (fun e => e = Throw) failed ->
            loads (failed ++ Normal devices :: rest)%list false
            = (true, [videoDevices devices])).
  { intros failed devices rest. induction 1 as [|e evs -> _ IH].
    - cbn [List.app loads]. rewrite listDevices_cases, Hset. reflexivity.
    - rewrite <- app_comm_cons. cbn [loads]. rewrite listDevices_cases, IH.
      reflexivity. }
  split; [|split; [|split]].
  - destruct flag; [rewrite Hset; cbn; lia|].
    induction events as [|e events IH]; [cbn; lia|].
    cbn [loads]. rewrite listDevices_cases. destruct e as [devices|].
    + rewrite Hset. cbn. lia.
    + destruct (loads events false) as [fl calls]. exact IH.
  - intros ->. apply Hset.
  - apply Hfail.
  - intros failed devices rest -> Hf ->. now apply Hfirst.
Qed.

(** X28. Whatever the classifier returns, the overlay has something to
    show for it: for NONE no box is drawn, and for every other category
    the box carries a text that is not empty. *)
Theorem every_classified_gesture_has_an_icon (landmarks : list HandLandmark.t)
    (g : Gesture) :
  detectGesture landmarks = Normal g ->
  (type g = NONE /\ feedback (type g) = None) \/
  (exists color icon,
     feedback (type g) = Some (color, icon) /\ icon <> String.EmptyString).
Proof.
  intros Hg. pose proof (detectGesture_not_double_palm _ _ Hg) as Hd.
  destruct (type g);
    [left; split; reflexivity| | | | | | |now contradiction Hd];
    right; eexists; eexists; (split; [reflexivity | discriminate]).
Qed.

Lemma every_classified_gesture_has_an_icon_witness :
  exists color icon,
    feedback OPEN_HAND = Some (color, icon) /\ icon <> String.EmptyString.
Proof.
  destruct (every_classified_gesture_has_an_icon Examples.openHand
              (mkGesture OPEN_HAND 1) eq_refl) as [[H _]|H];
    [discriminate H | exact H].
Defined.

(** X29. The texts of the six gestures are pairwise different, so the
    overlay tells every gesture apart; the colors do not (OPEN_HAND and
    THUMBS_UP share one). *)
Theorem gesture_icons_are_distinct (g1 g2 : GestureType) :
  getGestureIcon g1 <> String.EmptyString ->
  getGestureIcon g1 = getGestureIcon g2 -> g1 = g2.
Proof.
  destruct g1, g2; cbn [getGestureIcon]; intros Hne H;
    try reflexivity; try (now contradiction Hne); discriminate H.
Qed.

Lemma gesture_icons_are_distinct_witness :
  getGestureColor OPEN_HAND = getGestureColor THUMBS_UP /\
  (getGestureIcon PINCH = getGestureIcon PINCH -> PINCH = PINCH).
Proof.
  split; [reflexivity|].
  apply (gesture_icons_are_distinct PINCH PINCH). discriminate.
Defined.

(** X30. The camera menu is drawn only when there are cameras.  While no
    camera is selected its first option is the disabled placeholder, of
    empty value and text "Select Camera", which is the value shown, and
    the cameras follow it; once a camera is selected the menu shows its
    identifier and holds the cameras alone.  The cameras are listed in
    their order, one enabled option each under the camera's identifier
    and label; and on the list [startCamera] hands over no option has an
    empty text. *)
Theorem camera_menu_lists_the_cameras (cameras : list CameraDevice.t)
    (selectedCameraId : option String.string) :
  let entries :=
    List.map (fun cam => mkOption (CameraDevice.deviceId cam) false
                           (CameraDevice.label cam)) cameras in
  (cameras = [] -> cameraMenu cameras selectedCameraId = None) /\
  (cameras <> [] ->
   exists shown options,
     cameraMenu cameras selectedCameraId = Some (shown, options) /\
     (selectedCameraId = None \/ selectedCameraId = Some "" ->
      shown = "" /\
      options = (mkOption "" true "Select Camera" :: entries)%list) /\
     (forall id, selectedCameraId = Some id -> id <> "" ->
      shown = id /\ options = entries) /\
     List.filter (fun o => negb (disabled o)) options = entries /\
     length options
     = (length cameras + if noSelection selectedCameraId then 1 else 0)%nat) /\
  (forall devices shown options o,
     cameraMenu (videoDevices devices) selectedCameraId
     = Some (shown, options) ->
     In o options -> text o <> String.EmptyString).
Proof.
  intros entries. split; [|split].
  - now intros ->.
  - intros Hc. unfold cameraMenu.
    destruct cameras as [|cam cameras]; [now contradiction Hc|].
    cbn [length Nat.ltb Nat.leb]. eexists. eexists. split; [reflexivity|].
    assert (Hmap : forall l : list CameraDevice.t,
              List.filter (fun o => negb (disabled o))
                (List.map (fun cam => mkOption (CameraDevice.deviceId cam)
                                        false (CameraDevice.label cam)) l)
              = List.map (fun cam => mkOption (CameraDevice.deviceId cam)
                                       false (CameraDevice.label cam)) l).
    { induction l as [|a l IH]; [reflexivity|]. cbn. now rewrite IH. }
    fold entries.
    split; [|split; [|split]].
    + intros [-> | ->]; split; reflexivity.
    + intros id -> Hid. split; [reflexivity|].
      unfold noSelection. apply String.eqb_neq in Hid. rewrite Hid.
      reflexivity.
    + rewrite List.filter_app. unfold entries. rewrite Hmap.
      now destruct (noSelection selectedCameraId).
    + rewrite length_app. unfold entries. rewrite length_map.
      destruct (noSelection selectedCameraId); cbn; lia.
  - intros devices shown options o. unfold cameraMenu.
    destruct (0 <? length (videoDevices devices))%nat; [|discriminate].
    intros [= _ <-] Ho. apply in_app_iff in Ho as [Ho|Ho].
    + destruct (noSelection selectedCameraId); [|destruct Ho].
      destruct Ho as [<-|[]]. discriminate.
    + apply in_map_iff in Ho as (c & <- & Hc). cbn [text].
      now apply (videoDevices_label_nonempty devices).
Qed.

End InterfaceProperties.
